(** * f1bot: the retrieval-augmented chat route and the ingestion script

    A shallow embedding of
      - [app/api/chat/route.ts]   (the POST handler), and
      - [scripts/loadDb.ts]       (createCollection, loadSampleData,
                                   scrapePage, run), the seeding script,
                                   which the sources hold at lines 27 to
                                   221 of [scripts/clearDb.ts],
    with the properties of the design document proved about them.  Line
    numbers are those of the two source files.

    JavaScript values are modelled as far as the two files look at them:
    the request body and the stored documents are JSON, the handler reads
    them at type [any], so property reads, truthiness, [Array.prototype.join]
    and the exceptions the run time raises are written out. *)

From Stdlib Require Import String Ascii List Bool Arith Lia.
From Stdlib Require Import DecimalString Floats.
Import ListNotations.
Open Scope list_scope.
Open Scope string_scope.

(** ** JavaScript values *)

Module JS.

(** A JSON value as [JSON.parse] gives it, plus [undefined], which a
    property read can give.  A number is carried by its printing
    ([Number::toString]): the code only prints numbers and tests them for
    truthiness. *)
#[warnings="-register-all"]
Inductive value : Type :=
| VUndefined
| VNull
| VBool (b : bool)
| VNum (repr : string)
| VStr (s : string)
| VArr (elems : list value)
| VObj (props : list (string * value)).

(** What an expression evaluates to: a value, or a thrown value. *)
Inductive result (A : Type) : Type :=
| Ok (a : A)
| Throw (e : value).
Arguments Ok {A} a.
Arguments Throw {A} e.

(** Evaluation in sequence: a throw ends it. *)
Definition bind {A B} (r : result A) (f : A -> result B) : result B :=
  match r with
  | Ok a => f a
  | Throw e => Throw e
  end.

Declare Scope js_scope.
Delimit Scope js_scope with js.
Notation "x <- r ;; k" := (bind r (fun x => k))
  (at level 100, r at next level, right associativity) : js_scope.

(** An [Error] object with the given [name] and [message]. *)
Definition Error_ (name message : string) : value :=
  VObj [("name", VStr name); ("message", VStr message)].

(** The [TypeError] the run time raises; [what] says which operation. *)
Definition TypeError (what : string) : value := Error_ "TypeError" what.

(** Own-property lookup; the first binding of a key is the property. *)
Fixpoint lookup (key : string) (props : list (string * value)) : value :=
  match props with
  | [] => VUndefined
  | (k, v) :: rest => if String.eqb k key then v else lookup key rest
  end.

(** [v.key] for the keys the two files read ([parts], [content], [type],
    [text], [message]): none of them is inherited by a JSON value, so the
    read is an own-property read; reading from [undefined] or [null]
    throws. *)
Definition get (v : value) (key : string) : result value :=
  match v with
  | VUndefined =>
      Throw (TypeError ("Cannot read properties of undefined (reading '" ++ key ++ "')"))
  | VNull => Throw (TypeError ("Cannot read properties of null (reading '" ++ key ++ "')"))
  | VObj props => Ok (lookup key props)
  | VBool _ | VNum _ | VStr _ | VArr _ => Ok VUndefined
  end.

(** [v?.key] *)
Definition get_opt (v : value) (key : string) : value :=
  match v with
  | VObj props => lookup key props
  | _ => VUndefined
  end.

(** ToBoolean *)
Definition truthy (v : value) : bool :=
  match v with
  | VUndefined | VNull => false
  | VBool b => b
  | VNum repr => negb (String.eqb repr "0" || String.eqb repr "NaN")
  | VStr s => negb (String.eqb s "")
  | VArr _ | VObj _ => true
  end.

(** [v === s] for a string literal [s] *)
Definition strict_eq_str (v : value) (s : string) : bool :=
  match v with
  | VStr s' => String.eqb s' s
  | _ => false
  end.

(** The object has a property [key] of its own. *)
Definition has_own (key : string) (props : list (string * value)) : bool :=
  existsb (fun kv => String.eqb (fst kv) key) props.

(** ToString, and [Array.prototype.join], which prints [undefined] and
    [null] elements as the empty string.  An array prints as its elements
    joined by a comma; a plain object prints as [[object Object]], unless
    JSON gave it a [toString] property of its own, which is not callable. *)
Fixpoint to_string (v : value) : result string :=
  match v with
  | VUndefined => Ok "undefined"
  | VNull => Ok "null"
  | VBool true => Ok "true"
  | VBool false => Ok "false"
  | VNum repr => Ok repr
  | VStr s => Ok s
  | VArr elems =>
      (fix join_comma (l : list value) : result string :=
         match l with
         | [] => Ok ""
         | x :: rest =>
             bind (match x with
                   | VUndefined | VNull => Ok ""
                   | _ => to_string x
                   end)
               (fun sx =>
                  match rest with
                  | [] => Ok sx
                  | _ :: _ => bind (join_comma rest) (fun sr => Ok (sx ++ "," ++ sr))
                  end)
         end) elems
  | VObj props =>
      if has_own "toString" props
      then Throw (TypeError "Cannot convert object to primitive value")
      else Ok "[object Object]"
  end.

Definition element_string (x : value) : result string :=
  match x with
  | VUndefined | VNull => Ok ""
  | _ => to_string x
  end.

(** [l.join(sep)] *)
Fixpoint join (sep : string) (l : list value) : result string :=
  match l with
  | [] => Ok ""
  | x :: rest =>
      bind (element_string x) (fun sx =>
        match rest with
        | [] => Ok sx
        | _ :: _ => bind (join sep rest) (fun sr => Ok (sx ++ sep ++ sr))
        end)
  end.

(** [s.includes(sub)] on strings *)
Definition str_includes (s sub : string) : bool :=
  match String.index 0 sub s with
  | Some _ => true
  | None => false
  end.

End JS.

Export JS.
Open Scope js_scope.

(** ** The conversation of the request body, as the design types it *)

Module Conversation.

(** A part of a structured message: [{ type, text? }]. *)
Record Part : Type := { type : string; text : option string }.

(** A message: [{ role, content }] (flat), [{ role, parts }] (structured);
    the record lets a message carry both members, or neither. *)
Record ConversationMessage : Type :=
  { role : string; content : option string; parts : option (list Part) }.

Definition flat (r c : string) : ConversationMessage :=
  {| role := r; content := Some c; parts := None |}.

Definition structured (r : string) (ps : list Part) : ConversationMessage :=
  {| role := r; content := None; parts := Some ps |}.

Definition text_part (t : string) : Part := {| type := "text"; text := Some t |}.

(** The JSON the client sends for a part and for a message. *)
Definition part_value (p : Part) : value :=
  VObj (("type", VStr (type p)) ::
        match text p with
        | Some t => [("text", VStr t)]
        | None => []
        end).

Definition message_value (m : ConversationMessage) : value :=
  VObj ([("role", VStr (role m))]
        ++ match content m with
           | Some c => [("content", VStr c)]
           | None => []
           end
        ++ match parts m with
           | Some ps => [("parts", VArr (map part_value ps))]
           | None => []
           end)%list.

Definition is_text (p : Part) : bool := String.eqb (type p) "text".

Definition part_text (p : Part) : string :=
  match text p with
  | Some t => t
  | None => ""
  end.

(** The concatenation, in order, of the text of the parts of type
    [text]. *)
Definition text_of_parts (ps : list Part) : string :=
  String.concat "" (map part_text (filter is_text ps)).

(** The text a message resolves to, in the words of the design document:
    the flat content string, or the concatenation of all text parts in
    order; the empty string when there is neither. *)
Definition resolved_text (m : ConversationMessage) : string :=
  match parts m, content m with
  | Some ps, _ => text_of_parts ps
  | None, Some c => c
  | None, None => ""
  end.

(** The active query in the words of the design document: the resolved
    text of the last message whose role is [user]. *)
Fixpoint last_user_message (conversation : list ConversationMessage)
  : option ConversationMessage :=
  match conversation with
  | [] => None
  | m :: rest =>
      match last_user_message rest with
      | Some m' => Some m'
      | None => if String.eqb (role m) "user" then Some m else None
      end
  end.

Definition spec_query (conversation : list ConversationMessage) : string :=
  match last_user_message conversation with
  | Some m => resolved_text m
  | None => ""
  end.

End Conversation.

Export Conversation.

(** ** [JSON.stringify] *)

Module Json.

Definition dquote : ascii := "034"%char.
Definition backslash : ascii := "092"%char.

Definition hex_digit (n : nat) : ascii :=
  nth n (list_ascii_of_string "0123456789abcdef") "0"%char.

(** One character of a string, as [JSON.stringify] quotes it. *)
Definition escape_char (c : ascii) : string :=
  let n := nat_of_ascii c in
  if Nat.eqb n 34 then String backslash (String dquote "")
  else if Nat.eqb n 92 then String backslash (String backslash "")
  else if Nat.eqb n 8 then String backslash "b"
  else if Nat.eqb n 12 then String backslash "f"
  else if Nat.eqb n 10 then String backslash "n"
  else if Nat.eqb n 13 then String backslash "r"
  else if Nat.eqb n 9 then String backslash "t"
  else if Nat.ltb n 32 then
    String backslash
      ("u00" ++ String (hex_digit (Nat.div n 16)) (String (hex_digit (Nat.modulo n 16)) ""))
  else String c "".

Fixpoint escape (s : string) : string :=
  match s with
  | EmptyString => ""
  | String c rest => escape_char c ++ escape rest
  end.

Definition quote (s : string) : string :=
  String dquote (escape s ++ String dquote "").

Definition non_finite (repr : string) : bool :=
  String.eqb repr "NaN" || String.eqb repr "Infinity" || String.eqb repr "-Infinity".

(** [JSON.stringify(v)]; [None] is [undefined].  An object's properties are
    printed in the order of the list, and a property whose value is
    [undefined] is left out; [undefined] in an array prints as [null]. *)
Fixpoint stringify (v : value) : option string :=
  match v with
  | VUndefined => None
  | VNull => Some "null"
  | VBool true => Some "true"
  | VBool false => Some "false"
  | VNum repr => Some (if non_finite repr then "null" else repr)
  | VStr s => Some (quote s)
  | VArr elems =>
      Some ("[" ++
            (fix elements (l : list value) : string :=
               match l with
               | [] => ""
               | x :: rest =>
                   match stringify x with
                   | Some s => s
                   | None => "null"
                   end ++
                   match rest with
                   | [] => ""
                   | _ :: _ => "," ++ elements rest
                   end
               end) elems ++ "]")
  | VObj props =>
      Some ("{" ++
            (fix members (l : list (string * value)) (first : bool) : string :=
               match l with
               | [] => ""
               | (k, x) :: rest =>
                   match stringify x with
                   | Some s =>
                       (if first then "" else ",") ++ quote k ++ ":" ++ s
                       ++ members rest false
                   | None => members rest first
                   end
               end) props true ++ "}")
  end.

End Json.

(** ** Effects: the services the two files call *)

Module Effects.

(** [type SimilarityMetric = "dot_product" | "cosine" | "euclidean"] *)
Inductive SimilarityMetric : Type := dot_product | cosine | euclidean.

(** An embedding: [number[]]. *)
Definition vector : Type := list float.

(** What [streamText] returns: the handle of a generation under way. *)
Record StreamResult : Type := { textStream : list string }.

(** A [Response]: its body (none, or a text), status and headers. *)
Record Response : Type :=
  { body : option string; status : nat; headers : list (string * string) }.

(** The calls out of the process.  Each may fulfil or throw (reject), as
    the service decides. *)
Inductive call : Type -> Type :=
(* openai.embeddings.create({ model, input, encoding_format? }), read at .data[i].embedding *)
| embeddings_create (model : string) (input : value) (encoding_format : option string)
  : call (list vector)
(* db.collection(name) *)
| db_collection (name : value) : call unit
(* collection.find({}, { sort: { $vector }, limit }).toArray() *)
| collection_find (sort_vector : vector) (limit : nat) : call (list value)
(* convertToModelMessages(messages) *)
| convertToModelMessages (messages : list value) : call (list value)
(* streamText({ model: openai(model), system, messages }) *)
| streamText (model : string) (system : string) (messages : list value) : call StreamResult
(* result.toTextStreamResponse() *)
| toTextStreamResponse (r : StreamResult) : call Response
(* db.createCollection(name, { vector: { dimension, metric } }) *)
| db_createCollection (name : value) (dimension : nat) (metric : SimilarityMetric)
  : call value
(* loader.scrape() of a PuppeteerWebBaseLoader on url *)
| loader_scrape (url : string) : call (option string)
(* new RecursiveCharacterTextSplitter({ chunkSize, chunkOverlap }).splitText(text) *)
| splitter_splitText (chunkSize chunkOverlap : nat) (text : string) : call (list string)
(* collection.insertOne({ $vector, text }) *)
| collection_insertOne (vector_ : vector) (text_ : string) : call unit.

Inductive console : Type := console_log | console_error | stdout_write.

(** A program: what it returns or throws, what it writes to the console,
    and the calls it makes, each continued with the call's outcome. *)
Inductive prog (A : Type) : Type :=
| Ret (a : A)
| Raise (e : value)
| Log (out : console) (args : list value) (k : prog A)
| Call (X : Type) (c : call X) (k : result X -> prog A).
Arguments Ret {A} a.
Arguments Raise {A} e.
Arguments Log {A} out args k.
Arguments Call {A X} c k.

Fixpoint pbind {A B} (p : prog A) (f : A -> prog B) : prog B :=
  match p with
  | Ret a => f a
  | Raise e => Raise e
  | Log out args k => Log out args (pbind k f)
  | Call c k => Call c (fun r => pbind (k r) f)
  end.

(** [try { p } catch (error) { handler error }] *)
Fixpoint try_catch {A} (p : prog A) (handler : value -> prog A) : prog A :=
  match p with
  | Ret a => Ret a
  | Raise e => handler e
  | Log out args k => Log out args (try_catch k handler)
  | Call c k => Call c (fun r => try_catch (k r) handler)
  end.

(** An expression evaluated in place. *)
Definition lift {A} (r : result A) : prog A :=
  match r with
  | Ok a => Ret a
  | Throw e => Raise e
  end.

(** [await c] *)
Definition await {X} (c : call X) : prog X := Call c lift.

Definition log (out : console) (args : list value) : prog unit :=
  Log out args (Ret tt).

Declare Scope prog_scope.
Delimit Scope prog_scope with prog.
Notation "x <- p ;; k" := (pbind p (fun x => k))
  (at level 100, p at next level, right associativity) : prog_scope.
Notation "p ;;; k" := (pbind p (fun _ => k))
  (at level 100, right associativity) : prog_scope.

(** What happened during a run, in order. *)
Inductive event : Type :=
| Called (X : Type) (c : call X) (r : result X)
| Logged (out : console) (args : list value).
Arguments Called {X} c r.

Section Exec.
(** The world outside the process, and how it answers each call. *)
Context {World : Type}.
Variable oracle : forall X, call X -> World -> result X * World.

Fixpoint exec {A} (p : prog A) (w : World) : result A * World * list event :=
  match p with
  | Ret a => (Ok a, w, [])
  | Raise e => (Throw e, w, [])
  | Log out args k =>
      let '(r, w', t) := exec k w in (r, w', Logged out args :: t)
  | Call c k =>
      let '(x, w1) := oracle _ c w in
      let '(r, w2, t) := exec (k x) w1 in (r, w2, Called c x :: t)
  end.

Definition outcome {A} (p : prog A) (w : World) : result A := fst (fst (exec p w)).
Definition trace {A} (p : prog A) (w : World) : list event := snd (exec p w).
End Exec.

End Effects.

Export Effects.

(** ** [app/api/chat/route.ts] *)

Module Route.

Definition newline : string := String "010"%char "".

Definition nat_string (n : nat) : string :=
  NilEmpty.string_of_uint (Nat.to_uint n).

(** The request: what [await req.json()] gives, read at its [messages]
    member.  The body is an object; [messages], when the body has it, is
    an array ([None]: the member is missing or [null]).  The messages are
    JSON of any shape. *)
Record Request : Type := { json : result (option (list value)) }.

(** [messages.length], which throws when [messages] is [undefined] *)
Definition messages_array (messages : option (list value)) : result (list value) :=
  match messages with
  | None => Throw (TypeError "Cannot read properties of undefined (reading 'length')")
  | Some l => Ok l
  end.

(** [messages[messages.length - 1]] *)
Definition last_message (messages : list value) : value := last messages VUndefined.

(** [parts.filter((part) => part.type === "text")] *)
Fixpoint filter_text (parts : list value) : result (list value) :=
  match parts with
  | [] => Ok []
  | part :: rest =>
      (ty <- get part "type" ;;
       rest' <- filter_text rest ;;
       Ok (if strict_eq_str ty "text" then part :: rest' else rest'))%js
  end.

(** [textParts.map((part) => part.text)] *)
Fixpoint map_text (textParts : list value) : result (list value) :=
  match textParts with
  | [] => Ok []
  | part :: rest =>
      (t <- get part "text" ;;
       rest' <- map_text rest ;;
       Ok (t :: rest'))%js
  end.

(** Lines 27 to 34: the value of [userQuery] after the [if]. *)
Definition user_query (lastMessage : value) : result value :=
  if truthy (get_opt lastMessage "parts") then
    match get_opt lastMessage "parts" with
    | VArr parts =>
        (textParts <- filter_text parts ;;
         texts <- map_text textParts ;;
         s <- join "" texts ;;
         Ok (VStr s))%js
    | _ => Throw (TypeError "lastMessage.parts.filter is not a function")
    end
  else if truthy (get_opt lastMessage "content") then
    Ok (get_opt lastMessage "content")
  else Ok (VStr "").

(** Lines 26 to 34 together: the query the handler extracts from the
    [messages] of the body. *)
Definition extracted_query (messages : option (list value)) : result value :=
  (l <- messages_array messages ;; user_query (last_message l))%js.

(** [embeddingResponse.data[0].embedding] *)
Definition first_embedding (data : list vector) : result vector :=
  match data with
  | [] => Throw (TypeError "Cannot read properties of undefined (reading 'embedding')")
  | e :: _ => Ok e
  end.

(** [searchResults[0]?.text?.substring(0, 200)] *)
Definition first_result_preview (searchResults : list value) : result value :=
  match searchResults with
  | [] => Ok VUndefined
  | doc :: _ =>
      match get_opt doc "text" with
      | VUndefined | VNull => Ok VUndefined
      | VStr s => Ok (VStr (substring 0 200 s))
      | _ => Throw (TypeError "searchResults[0]?.text?.substring is not a function")
      end
  end.

(** [searchResults.map((doc) => doc.text)] *)
Fixpoint map_doc_text (searchResults : list value) : result (list value) :=
  match searchResults with
  | [] => Ok []
  | doc :: rest =>
      (t <- get doc "text" ;;
       rest' <- map_doc_text rest ;;
       Ok (t :: rest'))%js
  end.

(** Line 61: [searchResults.map((doc) => doc.text).join("\n\n") || ""] *)
Definition doc_context (searchResults : list value) : result string :=
  (texts <- map_doc_text searchResults ;;
   s <- join (newline ++ newline) texts ;;
   Ok (if String.eqb s "" then "" else s))%js.

(** Lines 64 to 81. *)
Definition systemPrompt (docContext : string) : string :=
  "You are an AI assistant who knows everything about Formula One.
Use the below context to augment what you know about Formula One racing.
The context will provide you with the most recent page data from wikipedia,
the official F1 website and others.

If the context doesn't include the information you need answer based on your
existing knowledge and don't mention the source of your information or
what the context does or doesn't include.
Format responses using markdown where applicable and don't return
images.

----------

START CONTEXT
" ++ docContext ++ "
END CONTEXT

----------".

(** Lines 93 to 96. *)
Definition internal_server_error : Response :=
  {| body := Json.stringify (VObj [("error", VStr "Internal server error")]);
     status := 500;
     headers := [("Content-Type", "application/json")] |}.

Section Handler.
(** [process.env.ASTRA_DB_COLLECTION] *)
Variable ASTRA_DB_COLLECTION : value.

(** The [try] block of [POST]. *)
Definition POST_try (req : Request) : prog Response :=
  (body_messages <- lift (json req) ;;
   messages <- lift (messages_array body_messages) ;;
   userQuery <- lift (user_query (last_message messages)) ;;
   data <- await (embeddings_create "text-embedding-3-small" userQuery None) ;;
   queryEmbedding <- lift (first_embedding data) ;;
   await (db_collection ASTRA_DB_COLLECTION) ;;;
   searchResults <- await (collection_find queryEmbedding 5) ;;
   log console_log [VStr "=== RAG Search Debug ==="] ;;;
   log console_log [VStr "User query:"; userQuery] ;;;
   log console_log [VStr "Number of results found:";
                    VNum (nat_string (length searchResults))] ;;;
   preview <- lift (first_result_preview searchResults) ;;
   log console_log [VStr "First result:"; preview] ;;;
   docContext <- lift (doc_context searchResults) ;;
   modelMessages <- await (convertToModelMessages messages) ;;
   result <- await (streamText "gpt-4" (systemPrompt docContext) modelMessages) ;;
   await (toTextStreamResponse result))%prog.

(** [export async function POST(req: Request)] *)
Definition POST (req : Request) : prog Response :=
  try_catch (POST_try req)
    (fun error =>
       (log console_error [VStr "Error in POST /api/chat:"; error] ;;;
        Ret internal_server_error)%prog).
End Handler.

End Route.

(** ** [scripts/loadDb.ts] ([scripts/clearDb.ts], lines 27 to 221) *)

Module LoadDb.

Definition f1Data : list string :=
  [ "https://en.wikipedia.org/wiki/Formula_One";
    "https://en.wikipedia.org/wiki/Formula_One_racing";
    "https://en.wikipedia.org/wiki/History_of_Formula_One";
    "https://en.wikipedia.org/wiki/2024_Formula_One_World_Championship";
    "https://en.wikipedia.org/wiki/2025_Formula_One_World_Championship";
    "https://en.wikipedia.org/wiki/List_of_Formula_One_World_Drivers%27_Champions";
    "https://en.wikipedia.org/wiki/List_of_Formula_One_constructors";
    "https://en.wikipedia.org/wiki/Red_Bull_Racing";
    "https://en.wikipedia.org/wiki/Scuderia_Ferrari";
    "https://en.wikipedia.org/wiki/Mercedes-Benz_in_Formula_One";
    "https://en.wikipedia.org/wiki/Aston_Martin_in_Formula_One";
    "https://en.wikipedia.org/wiki/McLaren";
    "https://en.wikipedia.org/wiki/Max_Verstappen";
    "https://en.wikipedia.org/wiki/Lewis_Hamilton";
    "https://en.wikipedia.org/wiki/Charles_Leclerc";
    "https://en.wikipedia.org/wiki/Lando_Norris";
    "https://en.wikipedia.org/wiki/Fernando_Alonso";
    "https://en.wikipedia.org/wiki/F1_Academy";
    "https://en.wikipedia.org/wiki/Formula_One_car";
    "https://en.wikipedia.org/wiki/Formula_One_regulations" ].

(** *** The clean-up of [scrapePage]

    A string is a sequence of code units; the ones below 256 are
    modelled.  Among them [\s] and [trim] take the same seven for white
    space. *)
Definition is_space (c : ascii) : bool :=
  let n := nat_of_ascii c in
  Nat.eqb n 9 || Nat.eqb n 10 || Nat.eqb n 11 || Nat.eqb n 12 || Nat.eqb n 13
  || Nat.eqb n 32 || Nat.eqb n 160.

(** [.replace(/<[^>]*>?/gm, '')]: from each [<] up to and with the next
    [>], or up to the end when there is none ([in_tag]: a match is under
    way). *)
Fixpoint strip_tags_from (in_tag : bool) (s : string) : string :=
  match s with
  | EmptyString => ""
  | String c rest =>
      if in_tag then
        if Ascii.eqb c ">" then strip_tags_from false rest
        else strip_tags_from true rest
      else if Ascii.eqb c "<" then strip_tags_from true rest
      else String c (strip_tags_from false rest)
  end.

Definition strip_tags (s : string) : string := strip_tags_from false s.

(** [.replace(/\s+/g, ' ')]: each maximal run of white space becomes one
    space ([in_run]: the run's space has been written). *)
Fixpoint collapse_from (in_run : bool) (s : string) : string :=
  match s with
  | EmptyString => ""
  | String c rest =>
      if is_space c then
        if in_run then collapse_from true rest
        else String " " (collapse_from true rest)
      else String c (collapse_from false rest)
  end.

Definition collapse_whitespace (s : string) : string := collapse_from false s.

(** [.replace(/\[edit\]/g, '')]: the occurrences of [[edit]], left to
    right, none overlapping ([skip]: code units of a match still to
    drop). *)
Fixpoint remove_edit_from (skip : nat) (s : string) : string :=
  match s with
  | EmptyString => ""
  | String c rest =>
      match skip with
      | S k => remove_edit_from k rest
      | O =>
          if String.prefix "[edit]" s then remove_edit_from 5 rest
          else String c (remove_edit_from 0 rest)
      end
  end.

Definition remove_edit (s : string) : string := remove_edit_from 0 s.

Fixpoint trim_start (s : string) : string :=
  match s with
  | EmptyString => ""
  | String c rest => if is_space c then trim_start rest else s
  end.

Fixpoint trim_end (s : string) : string :=
  match s with
  | EmptyString => ""
  | String c rest =>
      match trim_end rest with
      | EmptyString => if is_space c then "" else String c ""
      | r => String c r
      end
  end.

(** [.trim()] *)
Definition trim (s : string) : string := trim_end (trim_start s).

(** Lines 202 to 206: what [scrapePage] returns for the
    [rawContent] the loader scraped ([None]: [undefined]). *)
Definition clean_up (rawContent : option string) : string :=
  match rawContent with
  | None => ""
  | Some raw =>
      let cleaned := trim (remove_edit (collapse_whitespace (strip_tags raw))) in
      if String.eqb cleaned "" then "" else cleaned
  end.

(** Lines 149 to 207: [const scrapePage = async (url: string) => ...] *)
Definition scrapePage (url : string) : prog string :=
  (rawContent <- await (loader_scrape url) ;;
   Ret (clean_up rawContent))%prog.

(** [error.message?.includes("already exists")], the test of the [catch]
    block of [createCollection]. *)
Definition message_includes_already_exists (error : value) : result value :=
  (message <- get error "message" ;;
   match message with
   | VUndefined | VNull => Ok VUndefined
   | VStr s => Ok (VBool (str_includes s "already exists"))
   | VArr elems =>
       Ok (VBool (existsb (fun x => strict_eq_str x "already exists") elems))
   | VBool _ | VNum _ | VObj _ =>
       Throw (TypeError "error.message?.includes is not a function")
   end)%js.

Section Script.
(** [process.env.ASTRA_DB_COLLECTION] *)
Variable ASTRA_DB_COLLECTION : value.

(** Lines 93 to 109:
    [const createCollection = async (similarityMetric = "dot_product") => ...] *)
Definition createCollection (similarityMetric : SimilarityMetric) : prog unit :=
  try_catch
    (res <- await (db_createCollection ASTRA_DB_COLLECTION 1536 similarityMetric) ;;
     log console_log [VStr "Collection created:"; res])%prog
    (fun error =>
       (swallow <- lift (message_includes_already_exists error) ;;
        if truthy swallow
        then log console_log [VStr "Collection already exists, skipping creation"]
        else Raise error)%prog).

(** The inner loop of [loadSampleData], over the chunks still to load;
    it returns [chunkCount] and [totalChunks]. *)
Fixpoint load_chunks (n_chunks : nat) (chunks : list string)
  (chunkCount totalChunks : nat) : prog (nat * nat) :=
  match chunks with
  | [] => Ret (chunkCount, totalChunks)
  | chunk :: rest =>
      (data <- await (embeddings_create "text-embedding-3-small" (VStr chunk) (Some "float")) ;;
       vector_ <- lift (Route.first_embedding data) ;;
       await (collection_insertOne vector_ chunk) ;;;
       let chunkCount := S chunkCount in
       let totalChunks := S totalChunks in
       (if Nat.eqb (Nat.modulo chunkCount 10) 0
        then log stdout_write
               [VStr ("  Processed " ++ Route.nat_string chunkCount ++ "/"
                      ++ Route.nat_string n_chunks ++ " chunks" ++ String "013"%char "")]
        else Ret tt) ;;;
       load_chunks n_chunks rest chunkCount totalChunks)%prog
  end.

(** The outer loop of [loadSampleData], over the pages still to load; it
    returns [totalChunks]. *)
Fixpoint load_pages (urls : list string) (totalChunks : nat) : prog nat :=
  match urls with
  | [] => Ret totalChunks
  | url :: rest =>
      (log console_log [VStr (Route.newline ++ "Scraping: " ++ url)] ;;;
       content <- scrapePage url ;;
       chunks <- await (splitter_splitText 512 100 content) ;;
       log console_log [VStr ("  Found " ++ Route.nat_string (length chunks) ++ " chunks")] ;;;
       counts <- load_chunks (length chunks) chunks 0 totalChunks ;;
       log console_log
         [VStr ("  ✓ Completed " ++ Route.nat_string (length chunks) ++ " chunks")] ;;;
       load_pages rest (snd counts))%prog
  end.

(** Lines 112 to 146: [const loadSampleData = async () => ...] *)
Definition loadSampleData : prog unit :=
  (await (db_collection ASTRA_DB_COLLECTION) ;;;
   totalChunks <- load_pages f1Data 0 ;;
   log console_log
     [VStr (Route.newline ++ "✓ Loading complete! Total chunks inserted: "
            ++ Route.nat_string totalChunks)])%prog.

(** Lines 209 to 220: [const run = async () => ...]; the value is the
    exit code. *)
Definition run : prog nat :=
  try_catch
    (log console_log [VStr "Starting database setup..."] ;;;
     createCollection dot_product ;;;
     loadSampleData ;;;
     log console_log [VStr (Route.newline ++ "✓ All done! Database is ready.")] ;;;
     Ret 0)%prog
    (fun error =>
       (log console_error [VStr "Error:"; error] ;;;
        Ret 1)%prog).
End Script.

End LoadDb.

(** ** The chunker

    [splitter.splitText] is [RecursiveCharacterTextSplitter] of the
    package [@langchain/textsplitters]; the script only configures it
    (chunkSize 512, chunkOverlap 100, lines 87 to 90 of
    [scripts/clearDb.ts]) and calls it. *)

Module Chunker.

(** Modelled from the spec: the code of the splitter, imported from
    [@langchain/textsplitters], is missing from the sources.  The model is
    the algorithm of section 4.3 in the way that library carries it out
    ([splitText], [_splitText], [splitOnSeparator], [mergeSplits] and
    [joinDocs], with the defaults the script leaves in place), so that it
    gives the chunks the script receives.  The boundaries, coarsest
    first, are marked by these separators: a blank line, a line break, a
    space, and nothing for raw characters. *)
Definition separators : list string :=
  [Route.newline ++ Route.newline; Route.newline; " "; ""].

(** Modelled from the spec: raw character boundaries (section 4.3, step
    2), the library's [text.split("")]: every character is a piece. *)
Fixpoint characters (s : string) : list string :=
  match s with
  | EmptyString => []
  | String c rest => String c "" :: characters rest
  end.

(** Modelled from the spec: splitting on the boundaries that a separator
    marks (section 4.3, steps 1 and 2).  The library keeps the separator
    ([keepSeparator] is true for this splitter) and splits with the
    pattern [(?=separator)]: a piece ends right before each occurrence of
    the separator, but for an occurrence at the very start; the separator
    stays at the head of the piece it opens.  [piece] is the piece read so
    far. *)
Fixpoint split_before (sep : string) (piece : string) (s : string) : list string :=
  match s with
  | EmptyString => [piece]
  | String c rest =>
      if String.prefix sep s && negb (String.eqb piece "")
      then piece :: split_before sep (String c "") rest
      else split_before sep (piece ++ String c "") rest
  end.

(** Modelled from the spec: the library's [splitOnSeparator]; empty
    pieces are left out. *)
Definition splitOnSeparator (text separator : string) : list string :=
  filter (fun s => negb (String.eqb s ""))
    (if String.eqb separator "" then characters text
     else split_before separator "" text).

(** Modelled from the spec: the library's [joinDocs]: the pieces of a
    chunk joined and trimmed; no chunk ([None]) when nothing is left. *)
Definition joinDocs (docs : list string) (separator : string) : option string :=
  let text := LoadDb.trim (String.concat separator docs) in
  if String.eqb text "" then None else Some text.

Definition pushed (doc : option string) : list string :=
  match doc with
  | Some text => [text]
  | None => []
  end.

(** Modelled from the spec: the overlap of step 3 of section 4.3, as the
    library takes it: once a chunk is closed, pieces are dropped from its
    front [while (total > chunkOverlap || (total + len + currentDoc.length
    * separator.length > chunkSize && total > 0))]; the pieces that stay
    open the next chunk.  [total] is the length of the pieces of
    [currentDoc], so that the test fails on an empty [currentDoc]. *)
Fixpoint shift_while (chunkSize chunkOverlap len sepLen : nat)
  (currentDoc : list string) (total : nat) : list string * nat :=
  if Nat.ltb chunkOverlap total
     || (Nat.ltb chunkSize (total + len + length currentDoc * sepLen) && Nat.ltb 0 total)
  then
    match currentDoc with
    | [] => ([], total)
    | first :: rest =>
        shift_while chunkSize chunkOverlap len sepLen rest (total - String.length first)
    end
  else (currentDoc, total).

(** Modelled from the spec: step 3 of section 4.3, the loop of the
    library's [mergeSplits]: pieces are accumulated in [currentDoc] as
    long as the chunk stays within [chunkSize]; when the next piece does
    not fit, the chunk is closed and pushed, and the next one starts with
    the pieces [shift_while] leaves.  The warning the library prints for a
    chunk longer than [chunkSize] is left out. *)
Fixpoint merge_from (chunkSize chunkOverlap : nat) (separator : string)
  (splits : list string) (currentDoc : list string) (total : nat) : list string :=
  match splits with
  | [] => pushed (joinDocs currentDoc separator)
  | d :: rest =>
      let len := String.length d in
      if Nat.ltb chunkSize (total + len + length currentDoc * String.length separator)
      then
        match currentDoc with
        | [] => merge_from chunkSize chunkOverlap separator rest [d] (total + len)
        | _ :: _ =>
            let kept :=
              shift_while chunkSize chunkOverlap len (String.length separator)
                currentDoc total in
            (pushed (joinDocs currentDoc separator)
             ++ merge_from chunkSize chunkOverlap separator rest
                  (fst kept ++ [d]) (snd kept + len))%list
        end
      else merge_from chunkSize chunkOverlap separator rest
             (currentDoc ++ [d])%list (total + len)
  end.

Definition mergeSplits (chunkSize chunkOverlap : nat) (splits : list string)
  (separator : string) : list string :=
  merge_from chunkSize chunkOverlap separator splits [] 0.

(** Modelled from the spec: the second half of the library's
    [_splitText]: the pieces shorter than [chunkSize] are gathered in
    [goodSplits] and merged, with no separator between them since the
    pieces keep theirs; a piece that is not shorter is split again on the
    finer separators ([finer]), or pushed as it is when none is left. *)
Fixpoint collect (chunkSize chunkOverlap : nat) (finer : option (string -> list string))
  (splits : list string) (goodSplits : list string) : list string :=
  match splits with
  | [] =>
      match goodSplits with
      | [] => []
      | _ :: _ => mergeSplits chunkSize chunkOverlap goodSplits ""
      end
  | s :: rest =>
      if Nat.ltb (String.length s) chunkSize
      then collect chunkSize chunkOverlap finer rest (goodSplits ++ [s])%list
      else
        (match goodSplits with
         | [] => []
         | _ :: _ => mergeSplits chunkSize chunkOverlap goodSplits ""
         end
         ++ match finer with
            | Some split_again => split_again s
            | None => [s]
            end
         ++ collect chunkSize chunkOverlap finer rest [])%list
  end.

Definition chunks_of (chunkSize chunkOverlap : nat) (separator : string)
  (finer : option (string -> list string)) (text : string) : list string :=
  collect chunkSize chunkOverlap finer (splitOnSeparator text separator) [].

(** Modelled from the spec: steps 1 and 2 of section 4.3, the library's
    [_splitText].  The separator is the first of [separators] that occurs
    in the text, the empty one occurring in every text, and the last one
    when none occurs; the separators after it are the finer ones. *)
Fixpoint _splitText (chunkSize chunkOverlap : nat) (separators : list string)
  (text : string) : list string :=
  match separators with
  | [] => chunks_of chunkSize chunkOverlap "" None text
  | s :: rest =>
      if String.eqb s "" then chunks_of chunkSize chunkOverlap "" None text
      else if str_includes text s
      then chunks_of chunkSize chunkOverlap s
             (Some (_splitText chunkSize chunkOverlap rest)) text
      else
        match rest with
        | [] => chunks_of chunkSize chunkOverlap s None text
        | _ :: _ => _splitText chunkSize chunkOverlap rest text
        end
  end.

(** Modelled from the spec: the contract of section 4.3,
    [split(text, chunkSize, overlap)]; the library's [splitText]. *)
Definition split (text : string) (chunkSize overlap : nat) : list string :=
  _splitText chunkSize overlap separators text.

(** [s] without its first [n] characters. *)
Fixpoint drop (n : nat) (s : string) : string :=
  match n, s with
  | O, _ => s
  | S _, EmptyString => ""
  | S k, String _ rest => drop k rest
  end.

(** The reconstruction of section 8 (Chunk reconstruction): the chunks
    concatenated, the leading [overlap] characters of each chunk after
    the first stripped. *)
Definition reconstruct (overlap : nat) (chunks : list string) : string :=
  match chunks with
  | [] => ""
  | first :: others => first ++ String.concat "" (map (drop overlap) others)
  end.

(** A valid configuration: a positive chunk size, and an overlap below
    it (the library refuses the others). *)
Definition valid (chunkSize overlap : nat) : Prop :=
  0 < chunkSize /\ overlap < chunkSize.

(** [n] copies of the character [c]. *)
Fixpoint replicate (n : nat) (c : ascii) : string :=
  match n with
  | O => ""
  | S k => String c (replicate k c)
  end.

(** A word of [n] letters [a], a space, a word of 500 letters [b]. *)
Definition two_words (n : nat) : string :=
  replicate n "a" ++ " " ++ replicate 500 "b".

End Chunker.

(** ** A test double of the services *)

Module Double.

(** The state of the double: the collections that exist, the records
    inserted, and whether the vector store can be reached. *)
Record world : Type :=
  { collections : list string;
    records : list (vector * string);
    reachable : bool }.

(** A stored record as [find] returns it. *)
Definition document (text_ : string) : value := VObj [("text", VStr text_)].

Definition zero_vector : vector := repeat 0%float 1536.

Definition connection_error : value := Error_ "Error" "connect ECONNREFUSED".

Definition exists_error (name : string) : value :=
  Error_ "DataAPIResponseError" ("Collection already exists: " ++ name).

Definition has_collection (name : string) (w : world) : bool :=
  existsb (String.eqb name) (collections w).

(** How the double answers each call. *)
Definition service (X : Type) (c : call X) (w : world) : result X * world :=
  match c in call X return result X * world with
  | embeddings_create model _ _ =>
      if String.eqb model "text-embedding-3-small"
      then (Ok [zero_vector], w)
      else (Throw (Error_ "NotFoundError" "The model does not exist"), w)
  | db_collection _ => (Ok tt, w)
  | collection_find _ limit =>
      if reachable w
      then (Ok (firstn limit (map (fun r => document (snd r)) (records w))), w)
      else (Throw connection_error, w)
  | convertToModelMessages messages => (Ok messages, w)
  | streamText _ _ _ => (Ok {| textStream := ["Max "; "Verstappen."] |}, w)
  | toTextStreamResponse r =>
      (Ok {| body := Some (String.concat "" (textStream r));
             status := 200;
             headers := [("Content-Type", "text/plain; charset=utf-8")] |}, w)
  | db_createCollection name _ _ =>
      match name with
      | VStr n =>
          if has_collection n w
          then (Throw (exists_error n), w)
          else (Ok (VObj []),
                {| collections := n :: collections w;
                   records := records w;
                   reachable := reachable w |})
      | _ => (Throw (Error_ "Error" "Collection name is missing"), w)
      end
  | loader_scrape url => (Ok (Some ("<h1>" ++ url ++ "</h1> [edit]")), w)
  | splitter_splitText chunkSize chunkOverlap text_ =>
      (Ok (Chunker.split text_ chunkSize chunkOverlap), w)
  | collection_insertOne v text_ =>
      (Ok tt,
       {| collections := collections w;
          records := (records w ++ [(v, text_)])%list;
          reachable := reachable w |})
  end.

Definition empty_store : world :=
  {| collections := ["f1gpt"]; records := []; reachable := true |}.

Definition no_store : world :=
  {| collections := []; records := []; reachable := true |}.

Definition unreachable_store : world :=
  {| collections := ["f1gpt"]; records := []; reachable := false |}.

Definition question : Route.Request :=
  {| Route.json := Ok (Some [message_value (flat "user" "Who won 2023?")]) |}.

End Double.

(** ** The vocabulary of the properties *)

(** [wp answers p Q]: whatever the services answer, within [answers], the
    outcome and the trace of [p] satisfy [Q]. *)
Fixpoint wp (answers : forall X, call X -> result X -> Prop)
  {A} (p : prog A) (Q : result A -> list event -> Prop) : Prop :=
  match p with
  | Ret a => Q (Ok a) []
  | Raise e => Q (Throw e) []
  | Log out args k => wp answers k (fun r t => Q r (Logged out args :: t))
  | Call c k =>
      forall x, answers _ c x -> wp answers (k x) (fun r t => Q r (Called c x :: t))
  end.

(** Services that may answer anything. *)
Definition any_answer (X : Type) (c : call X) (r : result X) : Prop := True.

(** [part.text] for a part of the design's type. *)
Definition text_value (p : Part) : value :=
  match text p with
  | Some t => VStr t
  | None => VUndefined
  end.

(** The body of the failure response, [{"error":"Internal server error"}]. *)
Definition internal_server_error_json : string :=
  "{" ++ String Json.dquote "error" ++ String Json.dquote ":"
  ++ String Json.dquote "Internal server error" ++ String Json.dquote "}".

(** A stored record as a search returns it: [{ _id, text }]. *)
Definition stored_record (r : string * string) : value :=
  VObj [("_id", VStr (fst r)); ("text", VStr (snd r))].

(** What a [collection.find] event holds, for another event [None]. *)
Definition found (ev : event) : option (vector * nat * result (list value)) :=
  match ev with
  | Called c r =>
      match c in call X return result X -> option (vector * nat * result (list value)) with
      | collection_find v k => fun r => Some (v, k, r)
      | _ => fun _ => None
      end r
  | Logged _ _ => None
  end.

(** The creation answers that leave [createCollection] without an error:
    the collection is created, or the store reports, in an error's
    message, that it already exists. *)
Definition created_or_exists (r : result value) : Prop :=
  match r with
  | Ok _ => True
  | Throw error =>
      exists name message,
        error = Error_ name message /\ str_includes message "already exists" = true
  end.

(** The model both files name. *)
Definition embedding_model : string := "text-embedding-3-small".

(** The vector a call of the embedding model produced
    ([response.data[0].embedding]). *)
Definition produced_by (ev : event) : list vector :=
  match ev with
  | Called c r =>
      match c in call X return result X -> list vector with
      | embeddings_create m _ _ =>
          fun r =>
            if String.eqb m embedding_model
            then match r with
                 | Ok (v :: _) => [v]
                 | _ => []
                 end
            else []
      | _ => fun _ => []
      end r
  | Logged _ _ => []
  end.

(** An event keeps to the one model, given the vectors [produced] so far:
    an embedding is asked of the model, a vector inserted or searched has
    been produced by it, a collection is created with dimension 1536. *)
Definition keeps_model (produced : list vector) (ev : event) : Prop :=
  match ev with
  | Called c _ =>
      match c with
      | embeddings_create m _ _ => m = embedding_model
      | collection_insertOne v _ => In v produced
      | collection_find v _ => In v produced
      | db_createCollection _ d _ => d = 1536
      | _ => True
      end
  | Logged _ _ => True
  end.

(** Every event of a trace keeps to the model, the vectors produced
    adding up along the trace. *)
Fixpoint same_model (produced : list vector) (t : list event) : Prop :=
  match t with
  | [] => True
  | ev :: rest => keeps_model produced ev /\ same_model (produced_by ev ++ produced)%list rest
  end.

(** The vectors and the declared dimension an event shows all have
    length 1536. *)
Definition has_dimension (ev : event) : Prop :=
  match ev with
  | Called c _ =>
      match c with
      | collection_insertOne v _ => length v = 1536
      | collection_find v _ => length v = 1536
      | db_createCollection _ d _ => d = 1536
      | _ => True
      end
  | Logged _ _ => True
  end.

(** The embedding provider's contract: the model gives vectors of length
    1536. *)
Definition model_dimension (X : Type) (c : call X) (r : result X) : Prop :=
  match c in call X return result X -> Prop with
  | embeddings_create m _ _ =>
      fun r =>
        m = embedding_model ->
        match r with
        | Ok data => Forall (fun v : vector => length v = 1536) data
        | Throw _ => True
        end
  | _ => fun _ => True
  end r.

(** The answer an event records is within [answers]. *)
Definition answered (answers : forall X, call X -> result X -> Prop) (ev : event) : Prop :=
  match ev with
  | Called c r => answers _ c r
  | Logged _ _ => True
  end.

(** Programs all of whose traces keep to the model. *)
Definition good (answers : forall X, call X -> result X -> Prop) {A} (p : prog A) : Prop :=
  wp answers p (fun _ t => same_model [] t).

(** Every character of [s] satisfies [P]. *)
Definition all_chars (P : ascii -> Prop) (s : string) : Prop :=
  Forall P (list_ascii_of_string s).

(** No tag opens in [s]: it holds no [<]. *)
Definition no_tag (s : string) : Prop := all_chars (fun c => c <> "<"%char) s.

(** The first, and the last, character of [s] is white space. *)
Definition starts_with_space (s : string) : bool :=
  match s with
  | EmptyString => false
  | String c _ => LoadDb.is_space c
  end.

Fixpoint ends_with_space (s : string) : bool :=
  match s with
  | EmptyString => false
  | String c EmptyString => LoadDb.is_space c
  | String _ rest => ends_with_space rest
  end.

(** Two white-space characters in a row somewhere in [s]. *)
Fixpoint whitespace_run (s : string) : bool :=
  match s with
  | EmptyString => false
  | String c rest => (LoadDb.is_space c && starts_with_space rest) || whitespace_run rest
  end.

(** [s] has at most [n] characters. *)
Definition within (n : nat) (s : string) : Prop := String.length s <= n.

(** No character of [s] is white space. *)
Definition no_space (s : string) : Prop :=
  all_chars (fun c => LoadDb.is_space c = false) s.

(** The text of 1200 letters of the design document's example. *)
Fixpoint letters (k n : nat) : string :=
  match n with
  | O => ""
  | S n' => String (ascii_of_nat (97 + Nat.modulo k 26)) (letters (S k) n')
  end.

(** ** The runs of the handler, case by case *)

(** What an event of each kind holds; [None] for an event of another
    kind. *)
Definition insert_event (ev : event) : option (vector * string * result unit) :=
  match ev with
  | Called c r =>
      match c in call X return result X -> option (vector * string * result unit) with
      | collection_insertOne v text_ => fun r => Some (v, text_, r)
      | _ => fun _ => None
      end r
  | Logged _ _ => None
  end.

Definition stream_event (ev : event)
  : option (string * string * list value * result StreamResult) :=
  match ev with
  | Called c r =>
      match c in call X
            return result X -> option (string * string * list value * result StreamResult)
      with
      | streamText m system messages => fun r => Some (m, system, messages, r)
      | _ => fun _ => None
      end r
  | Logged _ _ => None
  end.

(** The stages of the handler that call a service, in the order of the
    source. *)
Inductive stage : Type :=
  Embed | OpenCollection | Search | Convert | Stream | Respond | Ingest.

Definition pipeline : list stage :=
  [Embed; OpenCollection; Search; Convert; Stream; Respond].

(** The step a call belongs to; the calls of the seeding script are
    [Ingest]. *)
Definition stage_of {X} (c : call X) : stage :=
  match c with
  | embeddings_create _ _ _ => Embed
  | db_collection _ => OpenCollection
  | collection_find _ _ => Search
  | convertToModelMessages _ => Convert
  | streamText _ _ _ => Stream
  | toTextStreamResponse _ => Respond
  | _ => Ingest
  end.

(** The stages of a trace, console lines left out. *)
Fixpoint stages (t : list event) : list stage :=
  match t with
  | [] => []
  | Called c _ :: rest => stage_of c :: stages rest
  | Logged _ _ :: rest => stages rest
  end.

(** The event is a call that threw. *)
Definition failed (ev : event) : bool :=
  match ev with
  | Called _ r =>
      match r with
      | Throw _ => true
      | Ok _ => false
      end
  | Logged _ _ => false
  end.

(** The event is a line on [console.error]. *)
Definition error_line (ev : event) : bool :=
  match ev with
  | Logged console_error _ => true
  | _ => false
  end.

(** The service calls made after the first call that threw. *)
Fixpoint calls_after_failure (t : list event) : list stage :=
  match t with
  | [] => []
  | ev :: rest => if failed ev then stages rest else calls_after_failure rest
  end.

(** The console line of the handler's [catch] block. *)
Definition POST_error (e : value) : event :=
  Logged console_error [VStr "Error in POST /api/chat:"; e].

(** Lines 23 to 34 of the handler: the messages of the body and the query
    extracted from them. *)
Definition request_query (req : Route.Request) : result (list value * value) :=
  (body_messages <- Route.json req ;;
   messages <- Route.messages_array body_messages ;;
   userQuery <- Route.user_query (Route.last_message messages) ;;
   Ok (messages, userQuery))%js.

(** The trace of a run whose search was answered, up to the third debug
    line. *)
Definition searched (name q : value) (v : vector) (others : list vector)
  (docs : list value) : list event :=
  [Called (embeddings_create "text-embedding-3-small" q None) (Ok (v :: others));
   Called (db_collection name) (Ok tt);
   Called (collection_find v 5) (Ok docs);
   Logged console_log [VStr "=== RAG Search Debug ==="];
   Logged console_log [VStr "User query:"; q];
   Logged console_log [VStr "Number of results found:";
                       VNum (Route.nat_string (length docs))]].

(** The same, up to the call that converts the messages. *)
Definition assembled (name q : value) (v : vector) (others : list vector)
  (docs : list value) (preview : value) : list event :=
  (searched name q v others docs ++ [Logged console_log [VStr "First result:"; preview]])%list.

(** The runs of [POST]: what it returns and the trace it leaves, one
    case for each place where the [try] block can end. *)
Inductive POST_run (name : value) (req : Route.Request)
  : result Response -> list event -> Prop :=
| POST_no_query e :
    request_query req = Throw e ->
    POST_run name req (Ok Route.internal_server_error) [POST_error e]
| POST_embedding_fails msgs q e :
    request_query req = Ok (msgs, q) ->
    POST_run name req (Ok Route.internal_server_error)
      [Called (embeddings_create "text-embedding-3-small" q None) (Throw e); POST_error e]
| POST_no_embedding msgs q e :
    request_query req = Ok (msgs, q) ->
    Route.first_embedding [] = Throw e ->
    POST_run name req (Ok Route.internal_server_error)
      [Called (embeddings_create "text-embedding-3-small" q None) (Ok []); POST_error e]
| POST_collection_fails msgs q v others e :
    request_query req = Ok (msgs, q) ->
    POST_run name req (Ok Route.internal_server_error)
      [Called (embeddings_create "text-embedding-3-small" q None) (Ok (v :: others));
       Called (db_collection name) (Throw e); POST_error e]
| POST_search_fails msgs q v others e :
    request_query req = Ok (msgs, q) ->
    POST_run name req (Ok Route.internal_server_error)
      [Called (embeddings_create "text-embedding-3-small" q None) (Ok (v :: others));
       Called (db_collection name) (Ok tt);
       Called (collection_find v 5) (Throw e); POST_error e]
| POST_preview_throws msgs q v others docs e :
    request_query req = Ok (msgs, q) ->
    Route.first_result_preview docs = Throw e ->
    POST_run name req (Ok Route.internal_server_error)
      (searched name q v others docs ++ [POST_error e])
| POST_context_throws msgs q v others docs preview e :
    request_query req = Ok (msgs, q) ->
    Route.first_result_preview docs = Ok preview ->
    Route.doc_context docs = Throw e ->
    POST_run name req (Ok Route.internal_server_error)
      (assembled name q v others docs preview ++ [POST_error e])
| POST_convert_fails msgs q v others docs preview docContext e :
    request_query req = Ok (msgs, q) ->
    Route.first_result_preview docs = Ok preview ->
    Route.doc_context docs = Ok docContext ->
    POST_run name req (Ok Route.internal_server_error)
      (assembled name q v others docs preview
       ++ [Called (convertToModelMessages msgs) (Throw e); POST_error e])
| POST_stream_fails msgs q v others docs preview docContext modelMessages e :
    request_query req = Ok (msgs, q) ->
    Route.first_result_preview docs = Ok preview ->
    Route.doc_context docs = Ok docContext ->
    POST_run name req (Ok Route.internal_server_error)
      (assembled name q v others docs preview
       ++ [Called (convertToModelMessages msgs) (Ok modelMessages);
           Called (streamText "gpt-4" (Route.systemPrompt docContext) modelMessages)
             (Throw e);
           POST_error e])
| POST_response_fails msgs q v others docs preview docContext modelMessages result_ e :
    request_query req = Ok (msgs, q) ->
    Route.first_result_preview docs = Ok preview ->
    Route.doc_context docs = Ok docContext ->
    POST_run name req (Ok Route.internal_server_error)
      (assembled name q v others docs preview
       ++ [Called (convertToModelMessages msgs) (Ok modelMessages);
           Called (streamText "gpt-4" (Route.systemPrompt docContext) modelMessages)
             (Ok result_);
           Called (toTextStreamResponse result_) (Throw e);
           POST_error e])
| POST_responds msgs q v others docs preview docContext modelMessages result_ response :
    request_query req = Ok (msgs, q) ->
    Route.first_result_preview docs = Ok preview ->
    Route.doc_context docs = Ok docContext ->
    POST_run name req (Ok response)
      (assembled name q v others docs preview
       ++ [Called (convertToModelMessages msgs) (Ok modelMessages);
           Called (streamText "gpt-4" (Route.systemPrompt docContext) modelMessages)
             (Ok result_);
           Called (toTextStreamResponse result_) (Ok response)]).

(** ** The runs of the seeding script, case by case *)

Definition scrape_event (ev : event) : option (string * result (option string)) :=
  match ev with
  | Called c r =>
      match c in call X return result X -> option (string * result (option string)) with
      | loader_scrape url => fun r => Some (url, r)
      | _ => fun _ => None
      end r
  | Logged _ _ => None
  end.

Definition split_event (ev : event) : option (nat * nat * string * result (list string)) :=
  match ev with
  | Called c r =>
      match c in call X return result X -> option (nat * nat * string * result (list string))
      with
      | splitter_splitText size overlap text_ => fun r => Some (size, overlap, text_, r)
      | _ => fun _ => None
      end r
  | Logged _ _ => None
  end.

Definition creation_event (ev : event)
  : option (value * nat * SimilarityMetric * result value) :=
  match ev with
  | Called c r =>
      match c in call X
            return result X -> option (value * nat * SimilarityMetric * result value)
      with
      | db_createCollection name dimension metric => fun r => Some (name, dimension, metric, r)
      | _ => fun _ => None
      end r
  | Logged _ _ => None
  end.

(** The value a call threw. *)
Definition thrown (ev : event) : option value :=
  match ev with
  | Called _ r =>
      match r with
      | Throw e => Some e
      | Ok _ => None
      end
  | Logged _ _ => None
  end.

(** The records stored along a trace: the vector and the text of each
    [insertOne] that succeeded, in order. *)
Fixpoint inserts (t : list event) : list (vector * string) :=
  match t with
  | [] => []
  | ev :: rest =>
      match insert_event ev with
      | Some (v, text_, Ok _) => (v, text_) :: inserts rest
      | _ => inserts rest
      end
  end.

(** The chunks the splitter returned along a trace, in order. *)
Fixpoint split_chunks (t : list event) : list string :=
  match t with
  | [] => []
  | ev :: rest =>
      match split_event ev with
      | Some (_, _, _, Ok chunks) => (chunks ++ split_chunks rest)%list
      | _ => split_chunks rest
      end
  end.

(** The arguments of the calls of the splitter along a trace. *)
Fixpoint split_calls (t : list event) : list (nat * nat * string) :=
  match t with
  | [] => []
  | ev :: rest =>
      match split_event ev with
      | Some (size, overlap, text_, _) => (size, overlap, text_) :: split_calls rest
      | None => split_calls rest
      end
  end.

(** The addresses the loader was asked for along a trace, and what it
    returned where it returned. *)
Fixpoint scraped (t : list event) : list string :=
  match t with
  | [] => []
  | ev :: rest =>
      match scrape_event ev with
      | Some (url, _) => url :: scraped rest
      | None => scraped rest
      end
  end.

Fixpoint scraped_contents (t : list event) : list (option string) :=
  match t with
  | [] => []
  | ev :: rest =>
      match scrape_event ev with
      | Some (_, Ok raw) => raw :: scraped_contents rest
      | _ => scraped_contents rest
      end
  end.

(** The events of the script, as the source writes them. *)
Definition chunk_embedding (chunk : string) (r : result (list vector)) : event :=
  Called (embeddings_create "text-embedding-3-small" (VStr chunk) (Some "float")) r.

Definition progress (n_chunks chunkCount : nat) : list event :=
  if Nat.eqb (Nat.modulo chunkCount 10) 0
  then [Logged stdout_write
          [VStr ("  Processed " ++ Route.nat_string chunkCount ++ "/"
                 ++ Route.nat_string n_chunks ++ " chunks" ++ String "013"%char "")]]
  else [].

Definition scraping (url : string) : event :=
  Logged console_log [VStr (Route.newline ++ "Scraping: " ++ url)].

Definition found_chunks (n : nat) : event :=
  Logged console_log [VStr ("  Found " ++ Route.nat_string n ++ " chunks")].

Definition completed_chunks (n : nat) : event :=
  Logged console_log [VStr ("  ✓ Completed " ++ Route.nat_string n ++ " chunks")].

Definition page_split (url : string) (raw : option string) (r : result (list string))
  : list event :=
  [scraping url;
   Called (loader_scrape url) (Ok raw);
   Called (splitter_splitText 512 100 (LoadDb.clean_up raw)) r].

Definition loading_complete (totalChunks : nat) : event :=
  Logged console_log
    [VStr (Route.newline ++ "✓ Loading complete! Total chunks inserted: "
           ++ Route.nat_string totalChunks)].

Definition starting : event := Logged console_log [VStr "Starting database setup..."].

Definition all_done : event :=
  Logged console_log [VStr (Route.newline ++ "✓ All done! Database is ready.")].

Definition run_error (e : value) : event := Logged console_error [VStr "Error:"; e].

(** The runs of the inner loop: [chunks_run n chunks chunkCount
    totalChunks r t]. *)
Inductive chunks_run (n_chunks : nat)
  : list string -> nat -> nat -> result (nat * nat) -> list event -> Prop :=
| chunks_done chunkCount totalChunks :
    chunks_run n_chunks [] chunkCount totalChunks (Ok (chunkCount, totalChunks)) []
| chunk_not_embedded chunk rest chunkCount totalChunks e :
    chunks_run n_chunks (chunk :: rest) chunkCount totalChunks (Throw e)
      [chunk_embedding chunk (Throw e)]
| chunk_no_embedding chunk rest chunkCount totalChunks e :
    Route.first_embedding [] = Throw e ->
    chunks_run n_chunks (chunk :: rest) chunkCount totalChunks (Throw e)
      [chunk_embedding chunk (Ok [])]
| chunk_not_inserted chunk rest chunkCount totalChunks v others e :
    chunks_run n_chunks (chunk :: rest) chunkCount totalChunks (Throw e)
      [chunk_embedding chunk (Ok (v :: others));
       Called (collection_insertOne v chunk) (Throw e)]
| chunk_loaded chunk rest chunkCount totalChunks v others r t :
    chunks_run n_chunks rest (S chunkCount) (S totalChunks) r t ->
    chunks_run n_chunks (chunk :: rest) chunkCount totalChunks r
      (chunk_embedding chunk (Ok (v :: others))
       :: Called (collection_insertOne v chunk) (Ok tt)
       :: progress n_chunks (S chunkCount) ++ t).

(** The runs of the outer loop: [pages_run urls totalChunks r t]. *)
Inductive pages_run : list string -> nat -> result nat -> list event -> Prop :=
| pages_done totalChunks : pages_run [] totalChunks (Ok totalChunks) []
| page_not_scraped url rest totalChunks e :
    pages_run (url :: rest) totalChunks (Throw e)
      [scraping url; Called (loader_scrape url) (Throw e)]
| page_not_split url rest totalChunks raw e :
    pages_run (url :: rest) totalChunks (Throw e) (page_split url raw (Throw e))
| page_not_loaded url rest totalChunks raw chunks e t :
    chunks_run (length chunks) chunks 0 totalChunks (Throw e) t ->
    pages_run (url :: rest) totalChunks (Throw e)
      (page_split url raw (Ok chunks) ++ found_chunks (length chunks) :: t)
| page_loaded url rest totalChunks raw chunks chunkCount totalChunks' t r t' :
    chunks_run (length chunks) chunks 0 totalChunks (Ok (chunkCount, totalChunks')) t ->
    pages_run rest totalChunks' r t' ->
    pages_run (url :: rest) totalChunks r
      (page_split url raw (Ok chunks)
       ++ found_chunks (length chunks) :: t ++ completed_chunks (length chunks) :: t').

(** The runs of [createCollection]. *)
Inductive creation_run (name : value) (metric : SimilarityMetric)
  : result unit -> list event -> Prop :=
| collection_created res :
    creation_run name metric (Ok tt)
      [Called (db_createCollection name 1536 metric) (Ok res);
       Logged console_log [VStr "Collection created:"; res]]
| collection_exists error swallow :
    LoadDb.message_includes_already_exists error = Ok swallow ->
    truthy swallow = true ->
    creation_run name metric (Ok tt)
      [Called (db_createCollection name 1536 metric) (Throw error);
       Logged console_log [VStr "Collection already exists, skipping creation"]]
| collection_refused error swallow :
    LoadDb.message_includes_already_exists error = Ok swallow ->
    truthy swallow = false ->
    creation_run name metric (Throw error)
      [Called (db_createCollection name 1536 metric) (Throw error)]
| collection_test_throws error e :
    LoadDb.message_includes_already_exists error = Throw e ->
    creation_run name metric (Throw e)
      [Called (db_createCollection name 1536 metric) (Throw error)].

(** The runs of the script: the exit code and the trace. *)
Inductive script_run (name : value) : result nat -> list event -> Prop :=
| script_no_collection e t :
    creation_run name dot_product (Throw e) t ->
    script_run name (Ok 1) (starting :: t ++ [run_error e])
| script_collection_unopened e t :
    creation_run name dot_product (Ok tt) t ->
    script_run name (Ok 1)
      (starting :: t ++ [Called (db_collection name) (Throw e); run_error e])
| script_stops e t t' :
    creation_run name dot_product (Ok tt) t ->
    pages_run LoadDb.f1Data 0 (Throw e) t' ->
    script_run name (Ok 1)
      (starting :: t ++ Called (db_collection name) (Ok tt) :: t' ++ [run_error e])
| script_completes totalChunks t t' :
    creation_run name dot_product (Ok tt) t ->
    pages_run LoadDb.f1Data 0 (Ok totalChunks) t' ->
    script_run name (Ok 0)
      (starting :: t ++ Called (db_collection name) (Ok tt)
       :: t' ++ [loading_complete totalChunks; all_done]).

(** Services in good health, as far as the script calls them: the model
    returns at least one vector; the collection [name] is created or
    reported to exist; the collection opens, the loader, the splitter and
    the insertion return. *)
Definition healthy (name : value) (X : Type) (c : call X) (r : result X) : Prop :=
  match c in call X return result X -> Prop with
  | embeddings_create m _ _ =>
      fun r => m = embedding_model -> exists v others, r = Ok (v :: others)
  | db_createCollection name' _ _ => fun r => name' = name -> created_or_exists r
  | db_collection _ => fun r => r = Ok tt
  | loader_scrape _ => fun r => exists raw, r = Ok raw
  | splitter_splitText _ _ _ => fun r => exists chunks, r = Ok chunks
  | collection_insertOne _ _ => fun r => r = Ok tt
  | _ => fun _ => True
  end r.

(** A second double: the network is down, so that the loader throws;
    every other call is answered as by the first double. *)
Module Offline.

Definition network_error : value := Error_ "Error" "net::ERR_INTERNET_DISCONNECTED".

Definition service (X : Type) (c : call X) (w : Double.world) : result X * Double.world :=
  match c in call X return result X * Double.world with
  | loader_scrape _ => (Throw network_error, w)
  | c' => Double.service _ c' w
  end.

End Offline.

(** Every insertion of the trace directly follows the embedding call for
    the text it stores, and stores the first vector that call returned. *)
Definition paired (t : list event) : Prop :=
  forall ev v text_ r,
    In ev t -> insert_event ev = Some (v, text_, r) ->
    exists others before after,
      t = (before ++ chunk_embedding text_ (Ok (v :: others)) :: ev :: after)%list.

(** A call that threw is the last event of the trace, and what it threw
    is the outcome. *)
Definition ends_at_failure {A} (r : result A) (t : list event) : Prop :=
  forall ev e,
    In ev t -> thrown ev = Some e ->
    r = Throw e /\ exists before, t = (before ++ [ev])%list.

(** ** The chat page

    [src/app/components/Bubble.tsx], and the form of the page component
    [Home], which follows the handler in [src/app/api/chat/route.ts]. *)
Module Bubble.

(** Lines 10 to 17 of [Bubble.tsx]: the text shown for [message].
    ['content' in message] is about an object, and throws for anything
    else but an array, which has no such member. *)
Definition text (message : value) : result string :=
  match message with
  | VObj props =>
      match has_own "content" props, lookup "content" props with
      | true, VStr content => Ok content
      | _, _ =>
          if truthy (lookup "parts" props) then
            match lookup "parts" props with
            | VArr parts =>
                (textParts <- Route.filter_text parts ;;
                 texts <- Route.map_text textParts ;;
                 join "" texts)%js
            | _ => Throw (TypeError "message.parts.filter is not a function")
            end
          else Ok ""
      end
  | VArr _ => Ok ""
  | _ => Throw (TypeError "Cannot use 'in' operator to search for 'content'")
  end.

End Bubble.

Module Page.

(** The [onSubmit] handler of the form, lines 149 to 155: what is given
    to [sendMessage], if anything, and the input field afterwards. *)
Definition onSubmit (input : string) : option string * string :=
  if negb (String.eqb (LoadDb.trim input) "")
  then (Some input, "")
  else (None, input).

End Page.

(** ** The maintenance scripts

    [clearDb.ts] (lines 1 to 26 of [src/scripts/clearDb.ts]),
    [checkDb.ts] and the document count of [src/unnamed/part_003].  Each
    asks the store once for each thing; what the store answers is the
    parameter [store], and the value of a script is its exit code. *)
Module Maintenance.

Record Store : Type :=
  { (** [db.dropCollection(name)] *)
    dropCollection : value -> result unit;
    (** [db.collection(name)] *)
    collection : value -> result unit;
    (** [collection.countDocuments({}, upperBound)] *)
    countDocuments : nat -> result nat;
    (** [collection.find({}, { limit }).toArray()] *)
    find : nat -> result (list value) }.

(** [error.message?.includes(sub)] *)
Definition message_includes (sub : string) (error : value) : result value :=
  (message <- get error "message" ;;
   match message with
   | VUndefined | VNull => Ok VUndefined
   | VStr s => Ok (VBool (str_includes s sub))
   | VArr elems => Ok (VBool (existsb (fun x => strict_eq_str x sub) elems))
   | VBool _ | VNum _ | VObj _ =>
       Throw (TypeError "error.message?.includes is not a function")
   end)%js.

(** [doc.text?.length || 0] *)
Definition text_length (doc : value) : result value :=
  (text_ <- get doc "text" ;;
   Ok (match text_ with
       | VStr s => VNum (Route.nat_string (String.length s))
       | VArr elems => VNum (Route.nat_string (length elems))
       | VObj props =>
           if truthy (lookup "length" props) then lookup "length" props else VNum "0"
       | VUndefined | VNull | VBool _ | VNum _ => VNum "0"
       end))%js.

(** [doc.text?.substring(0, 300)] *)
Definition text_preview (doc : value) : result value :=
  (text_ <- get doc "text" ;;
   match text_ with
   | VUndefined | VNull => Ok VUndefined
   | VStr s => Ok (VStr (substring 0 300 s))
   | _ => Throw (TypeError "doc.text?.substring is not a function")
   end)%js.

Section Scripts.
Variable ASTRA_DB_COLLECTION : value.
Variable store : Store.

(** [clearDb.ts], lines 14 to 24: [const clearDatabase = async () => ...] *)
Definition clearDatabase : prog nat :=
  try_catch
    (log console_log [VStr "Deleting collection..."] ;;;
     lift (dropCollection store ASTRA_DB_COLLECTION) ;;;
     log console_log [VStr "✓ Collection deleted successfully!"] ;;;
     Ret 0)%prog
    (fun error =>
       (log console_error [VStr "Error:"; error] ;;;
        Ret 1)%prog).

(** [part_003], lines 14 to 34: [const countDocs = async () => ...] *)
Definition countDocs : prog nat :=
  try_catch
    (lift (collection store ASTRA_DB_COLLECTION) ;;;
     try_catch
       (count <- lift (countDocuments store 1000) ;;
        log console_log
          [VStr ("✓ Documents in collection: " ++ Route.nat_string count)])%prog
       (fun error =>
          (swallow <- lift (message_includes "Too many" error) ;;
           if truthy swallow
           then log console_log
                  [VStr "✓ Documents in collection: 1000+ (still loading...)"]
           else Raise error)%prog) ;;;
     Ret 0)%prog
    (fun error =>
       (log console_error [VStr "Error:"; error] ;;;
        Ret 1)%prog).

(** The [forEach] of [checkData], over the samples still to show. *)
Fixpoint show_samples (index : nat) (samples : list value) : prog unit :=
  match samples with
  | [] => Ret tt
  | doc :: rest =>
      (log console_log
         [VStr (Route.newline ++ "Document " ++ Route.nat_string (index + 1) ++ ":")] ;;;
       text_length_ <- lift (text_length doc) ;;
       log console_log [VStr "Text length:"; text_length_] ;;;
       preview <- lift (text_preview doc) ;;
       log console_log [VStr "Text preview:"; preview] ;;;
       log console_log [VStr "---"] ;;;
       show_samples (S index) rest)%prog
  end.

(** [checkDb.ts], lines 14 to 30: [const checkData = async () => ...] *)
Definition checkData : prog unit :=
  (lift (collection store ASTRA_DB_COLLECTION) ;;;
   name <- lift (to_string ASTRA_DB_COLLECTION) ;;
   log console_log [VStr (Route.newline ++ "Collection: " ++ name)] ;;;
   log console_log [VStr "(Has more than 1000 documents)"] ;;;
   samples <- lift (find store 3) ;;
   log console_log [VStr (Route.newline ++ "=== Sample Documents ===")] ;;;
   show_samples 0 samples)%prog.

(** [checkDb.ts], lines 32 to 37: the exit code of the script. *)
Definition check : prog nat :=
  try_catch
    (checkData ;;; Ret 0)%prog
    (fun error =>
       (log console_error [VStr "Error:"; error] ;;;
        Ret 1)%prog).
End Scripts.

End Maintenance.

(** A sample can be shown: it is an object, or another value that is
    neither [null] nor [undefined], whose text is a string or missing. *)
Definition showable (doc : value) : Prop :=
  match get doc "text" with
  | Ok (VUndefined | VNull | VStr _) => True
  | _ => False
  end.

(** A store for the examples: it holds two documents, the second with a
    number for a text, and more documents than can be counted. *)
Definition crowded_store : Maintenance.Store :=
  {| Maintenance.dropCollection := fun _ => Ok tt;
     Maintenance.collection := fun _ => Ok tt;
     Maintenance.countDocuments :=
       fun _ => Throw (Error_ "TooManyDocumentsToCountError"
                         "Too many documents to count (provided limit is 1000)");
     Maintenance.find :=
       fun limit => Ok (firstn limit [Double.document "Max Verstappen won the 2023 title.";
                                      VObj [("text", VNum "2023")]]) |}.

(** What can make a loop of the script throw [e]: a call that threw [e],
    or an embedding answer without data, [e] being the TypeError of
    reading its first element. *)
Definition load_failure (e : value) (t : list event) : Prop :=
  (exists ev, In ev t /\ thrown ev = Some e)
  \/ (exists chunk, In (chunk_embedding chunk (Ok [])) t
                    /\ Route.first_embedding [] = Throw e).

(** ** Facts about runs *)

Section ExecFacts.
Context {World : Type}.
Variable oracle : forall X, call X -> World -> result X * World.

Lemma exec_bind {A B} (p : prog A) (f : A -> prog B) (w : World) :
  exec oracle (pbind p f) w =
  match exec oracle p w with
  | (Ok a, w', t) => let '(r, w'', t') := exec oracle (f a) w' in (r, w'', (t ++ t')%list)
  | (Throw e, w', t) => (Throw e, w', t)
  end.
Proof.
  revert w; induction p as [a | e | out args k IH | X c k IH]; intro w; simpl.
  - destruct (exec oracle (f a) w) as [[r w''] t']; reflexivity.
  - reflexivity.
  - rewrite IH. destruct (exec oracle k w) as [[[a | e] w'] t]; simpl.
    + destruct (exec oracle (f a) w') as [[r w''] t']; reflexivity.
    + reflexivity.
  - destruct (oracle X c w) as [x w1]. rewrite IH.
    destruct (exec oracle (k x) w1) as [[[a | e] w'] t]; simpl.
    + destruct (exec oracle (f a) w') as [[r w''] t']; reflexivity.
    + reflexivity.
Qed.

Lemma exec_try_catch {A} (p : prog A) (handler : value -> prog A) (w : World) :
  exec oracle (try_catch p handler) w =
  match exec oracle p w with
  | (Ok a, w', t) => (Ok a, w', t)
  | (Throw e, w', t) =>
      let '(r, w'', t') := exec oracle (handler e) w' in (r, w'', (t ++ t')%list)
  end.
Proof.
  revert w; induction p as [a | e | out args k IH | X c k IH]; intro w; simpl.
  - reflexivity.
  - destruct (exec oracle (handler e) w) as [[r w''] t']; reflexivity.
  - rewrite IH. destruct (exec oracle k w) as [[[a | e] w'] t]; simpl.
    + reflexivity.
    + destruct (exec oracle (handler e) w') as [[r w''] t']; reflexivity.
  - destruct (oracle X c w) as [x w1]. rewrite IH.
    destruct (exec oracle (k x) w1) as [[[a | e] w'] t]; simpl.
    + reflexivity.
    + destruct (exec oracle (handler e) w') as [[r w''] t']; reflexivity.
Qed.

Lemma exec_lift {A} (r : result A) (w : World) :
  exec oracle (lift r) w = (r, w, []).
Proof. destruct r; reflexivity. Qed.

Lemma exec_await {X} (c : call X) (w : World) :
  exec oracle (await c) w =
  (fst (oracle X c w), snd (oracle X c w), [Called c (fst (oracle X c w))]).
Proof.
  unfold await; simpl. destruct (oracle X c w) as [x w1]; simpl.
  rewrite exec_lift. reflexivity.
Qed.

Lemma exec_log (out : console) (args : list value) (w : World) :
  exec oracle (log out args) w = (Ok tt, w, [Logged out args]).
Proof. reflexivity. Qed.

End ExecFacts.

(** ** The extracted query (route.ts, lines 26 to 34) *)

Lemma filter_text_parts (ps : list Part) :
  Route.filter_text (map part_value ps) = Ok (map part_value (filter is_text ps)).
Proof.
  induction ps as [| p ps IH]; simpl; [reflexivity |].
  rewrite IH. unfold is_text. simpl.
  destruct (String.eqb (type p) "text"); reflexivity.
Qed.

Lemma map_text_parts (ps : list Part) :
  Route.map_text (map part_value ps) = Ok (map text_value ps).
Proof.
  induction ps as [| p ps IH]; simpl; [reflexivity |].
  rewrite IH. unfold text_value. destruct (text p); reflexivity.
Qed.

Lemma join_text_values (ps : list Part) :
  join "" (map text_value ps) = Ok (String.concat "" (map part_text ps)).
Proof.
  induction ps as [| p ps IH]; [reflexivity |].
  cbn [map join]. rewrite IH.
  assert (E : element_string (text_value p) = Ok (part_text p)).
  { unfold text_value, part_text. destruct (text p); reflexivity. }
  rewrite E. destruct ps; reflexivity.
Qed.

(** On a message of the design's type the handler's [if] computes the
    resolved text. *)
Lemma user_query_message (m : ConversationMessage) :
  Route.user_query (message_value m) = Ok (VStr (resolved_text m)).
Proof.
  destruct m as [r c ps]. unfold Route.user_query, resolved_text, message_value; simpl.
  destruct ps as [ps |]; destruct c as [c |]; simpl.
  - rewrite filter_text_parts; simpl. rewrite map_text_parts; simpl.
    rewrite join_text_values; reflexivity.
  - rewrite filter_text_parts; simpl. rewrite map_text_parts; simpl.
    rewrite join_text_values; reflexivity.
  - destruct (String.eqb c "") eqn:E; simpl; [| reflexivity].
    apply String.eqb_eq in E; subst; reflexivity.
  - reflexivity.
Qed.

Lemma extracted_query_last (history : list value) (m : value) :
  Route.extracted_query (Some (history ++ [m])%list) = Route.user_query m.
Proof.
  unfold Route.extracted_query, Route.last_message; simpl.
  rewrite last_last; reflexivity.
Qed.

Lemma last_user_message_last (history : list ConversationMessage) (m : ConversationMessage) :
  role m = "user" -> last_user_message (history ++ [m])%list = Some m.
Proof.
  intro R. induction history as [| h history IH]; simpl.
  - rewrite R; reflexivity.
  - rewrite IH; reflexivity.
Qed.

(** When the conversation ends with a user message, the handler extracts
    the query the design document describes. *)
Lemma extracted_query_when_user_is_last
  (history : list ConversationMessage) (m : ConversationMessage) :
  role m = "user" ->
  Route.extracted_query (Some (map message_value (history ++ [m])%list))
  = Ok (VStr (spec_query (history ++ [m])%list)).
Proof.
  intro R. rewrite map_app; simpl. rewrite extracted_query_last.
  unfold spec_query. rewrite (last_user_message_last history m R).
  apply user_query_message.
Qed.

(** C1 (the handler takes the last message, whatever its role): on a
    conversation that ends with an assistant message the handler extracts
    that message's text, while the last message whose role is user, the
    query of the design document, is another one.  When the conversation
    ends with a user message the two agree: the handler extracts that
    message's resolved text. *)
Theorem C1_last_message_whatever_its_role :
  Route.extracted_query
    (Some (map message_value
             [flat "user" "Who won 2023?"; flat "assistant" "Max Verstappen."]))
  = Ok (VStr "Max Verstappen.")
  /\ spec_query [flat "user" "Who won 2023?"; flat "assistant" "Max Verstappen."]
     = "Who won 2023?"
  /\ forall (history : list ConversationMessage) (m : ConversationMessage),
       role m = "user" ->
       Route.extracted_query (Some (map message_value (history ++ [m])%list))
       = Ok (VStr (spec_query (history ++ [m])%list)).
Proof.
  split; [reflexivity |]. split; [reflexivity |].
  exact extracted_query_when_user_is_last.
Qed.

(** C8 (message-shape equivalence): a flat message with content
    "Who won 2023?" and a structured message with the text parts "Who "
    and "won 2023?", each as the last message of a conversation, give the
    same extracted query, "Who won 2023?". *)
Theorem C8_message_shape_equivalence :
  forall (history : list value) (r : string),
    Route.extracted_query
      (Some (history ++ [message_value (flat r "Who won 2023?")])%list)
    = Ok (VStr "Who won 2023?")
    /\ Route.extracted_query
         (Some (history
                ++ [message_value
                      (structured r [text_part "Who "; text_part "won 2023?"])])%list)
       = Ok (VStr "Who won 2023?").
Proof.
  intros history r. rewrite !extracted_query_last, !user_query_message.
  split; reflexivity.
Qed.

Lemma filter_is_text_twice (ps : list Part) :
  filter is_text (filter is_text ps) = filter is_text ps.
Proof.
  induction ps as [| p ps IH]; simpl; [reflexivity |].
  destruct (is_text p) eqn:E; simpl; [rewrite E, IH |]; auto.
Qed.

(** C10 (parts take precedence): when the last message carries both a
    parts array and a content field, the extracted query is the
    concatenation of the text of its text parts, whatever the content is,
    and it is the same with the parts of any other type removed. *)
Theorem C10_parts_take_precedence :
  forall (history : list value) (r c : string) (ps : list Part),
    let both := {| role := r; content := Some c; parts := Some ps |} in
    let text_only := {| role := r; content := Some c; parts := Some (filter is_text ps) |} in
    Route.extracted_query (Some (history ++ [message_value both])%list)
    = Ok (VStr (String.concat "" (map part_text (filter is_text ps))))
    /\ Route.extracted_query (Some (history ++ [message_value text_only])%list)
       = Route.extracted_query (Some (history ++ [message_value both])%list).
Proof.
  intros history r c ps both text_only.
  rewrite !extracted_query_last, !user_query_message.
  unfold both, text_only, resolved_text, text_of_parts; simpl.
  rewrite filter_is_text_twice. split; reflexivity.
Qed.

(** ** A program logic for runs

    [wp answers p Q]: whatever the services answer, within [answers], the
    outcome and the trace of [p] satisfy [Q]. *)

Section Wp.
Variable answers : forall X, call X -> result X -> Prop.

Lemma wp_mono {A} (p : prog A) (Q Q' : result A -> list event -> Prop) :
  (forall r t, Q r t -> Q' r t) -> wp answers p Q -> wp answers p Q'.
Proof.
  revert Q Q'; induction p as [a | e | out args k IH | X c k IH]; simpl; intros Q Q' HQ H.
  - auto.
  - auto.
  - eapply IH; [| exact H]. intros r t; apply HQ.
  - intros x Hx. eapply IH; [| exact (H x Hx)]. intros r t; apply HQ.
Qed.

Lemma wp_bind {A B} (p : prog A) (f : A -> prog B) (Q : result B -> list event -> Prop) :
  wp answers p (fun r t =>
          match r with
          | Ok a => wp answers (f a) (fun r' t' => Q r' (t ++ t')%list)
          | Throw e => Q (Throw e) t
          end) ->
  wp answers (pbind p f) Q.
Proof.
  revert Q; induction p as [a | e | out args k IH | X c k IH]; simpl; intros Q H.
  - eapply wp_mono; [| exact H]. auto.
  - exact H.
  - apply IH. eapply wp_mono; [| exact H].
    intros [a | e] t; simpl; auto.
  - intros x Hx. apply IH. eapply wp_mono; [| exact (H x Hx)].
    intros [a | e] t; simpl; auto.
Qed.

Lemma wp_try_catch {A} (p : prog A) (handler : value -> prog A)
  (Q : result A -> list event -> Prop) :
  wp answers p (fun r t =>
          match r with
          | Ok a => Q (Ok a) t
          | Throw e => wp answers (handler e) (fun r' t' => Q r' (t ++ t')%list)
          end) ->
  wp answers (try_catch p handler) Q.
Proof.
  revert Q; induction p as [a | e | out args k IH | X c k IH]; simpl; intros Q H.
  - exact H.
  - eapply wp_mono; [| exact H]. auto.
  - apply IH. eapply wp_mono; [| exact H].
    intros [a | e] t; simpl; auto.
  - intros x Hx. apply IH. eapply wp_mono; [| exact (H x Hx)].
    intros [a | e] t; simpl; auto.
Qed.

Lemma wp_lift {A} (r : result A) (Q : result A -> list event -> Prop) :
  Q r [] -> wp answers (lift r) Q.
Proof. destruct r; simpl; auto. Qed.

Lemma wp_await {X} (c : call X) (Q : result X -> list event -> Prop) :
  (forall x, answers _ c x -> Q x [Called c x]) -> wp answers (await c) Q.
Proof. intros H x Hx. apply wp_lift. auto. Qed.

Lemma wp_log (out : console) (args : list value) (Q : result unit -> list event -> Prop) :
  Q (Ok tt) [Logged out args] -> wp answers (log out args) Q.
Proof. simpl; auto. Qed.

Lemma wp_any {A} (p : prog A) (Q : result A -> list event -> Prop) :
  (forall r t, Q r t) -> wp answers p Q.
Proof.
  revert Q; induction p as [a | e | out args k IH | X c k IH]; simpl; intros Q H; auto.
Qed.

(** The logic is sound for every world whose answers are within
    [answers]. *)
Lemma wp_sound {World : Type} (oracle : forall X, call X -> World -> result X * World)
  {A} (p : prog A) (Q : result A -> list event -> Prop) :
  (forall X c w, answers X c (fst (oracle X c w))) ->
  wp answers p Q -> forall w, Q (outcome oracle p w) (trace oracle p w).
Proof.
  intros Hans. unfold outcome, trace.
  revert Q; induction p as [a | e | out args k IH | X c k IH]; simpl; intros Q H w.
  - exact H.
  - exact H.
  - specialize (IH _ H w). destruct (exec oracle k w) as [[r w'] t]; exact IH.
  - specialize (Hans X c w). destruct (oracle X c w) as [x w1]; simpl in Hans.
    specialize (IH x _ (H x Hans) w1).
    destruct (exec oracle (k x) w1) as [[r w2] t]; exact IH.
Qed.

End Wp.

(** The query the handler extracts is the input of its first call, the
    embedding of the query. *)
Lemma POST_embeds_extracted_query
  (World : Type) (oracle : forall X, call X -> World -> result X * World)
  (ASTRA_DB_COLLECTION : value) (req : Route.Request) (w : World)
  (body_messages : option (list value)) (userQuery : value) :
  Route.json req = Ok body_messages ->
  Route.extracted_query body_messages = Ok userQuery ->
  exists embedded rest,
    trace oracle (Route.POST ASTRA_DB_COLLECTION req) w
    = Called (embeddings_create "text-embedding-3-small" userQuery None) embedded :: rest.
Proof.
  intros J E. unfold Route.extracted_query in E.
  destruct (Route.messages_array body_messages) as [msgs | e] eqn:M; simpl in E;
    [| discriminate E].
  pattern (outcome oracle (Route.POST ASTRA_DB_COLLECTION req) w),
          (trace oracle (Route.POST ASTRA_DB_COLLECTION req) w).
  apply wp_sound with (answers := any_answer); [intros; exact I |].
  unfold Route.POST. apply wp_try_catch. unfold Route.POST_try.
  rewrite J. apply wp_bind, wp_lift. cbv beta iota.
  rewrite M. apply wp_bind, wp_lift. cbv beta iota.
  rewrite E. apply wp_bind, wp_lift. cbv beta iota.
  apply wp_bind, wp_await. intros [data | e] _.
  - apply wp_any. intros [resp | e] t.
    + simpl. eauto.
    + apply wp_any. intros r t'. simpl. eauto.
  - apply wp_any. intros r t'. simpl. eauto.
Qed.

(** ** The request boundary (route.ts, lines 91 to 97) *)

(** C5 (errors at the request boundary): if the [try] block of the handler
    throws, at whatever step and whatever the thrown value, the handler
    answers with status 500 and the body
    [{"error":"Internal server error"}], a response in which nothing of the
    thrown value occurs; the thrown value goes to [console.error]. *)
Theorem C5_error_gives_internal_server_error :
  forall (World : Type) (oracle : forall X, call X -> World -> result X * World)
         (ASTRA_DB_COLLECTION : value) (req : Route.Request) (w : World)
         (error : value),
    outcome oracle (Route.POST_try ASTRA_DB_COLLECTION req) w = Throw error ->
    outcome oracle (Route.POST ASTRA_DB_COLLECTION req) w
    = Ok {| body := Some internal_server_error_json;
            status := 500;
            headers := [("Content-Type", "application/json")] |}
    /\ trace oracle (Route.POST ASTRA_DB_COLLECTION req) w
       = (trace oracle (Route.POST_try ASTRA_DB_COLLECTION req) w
          ++ [Logged console_error [VStr "Error in POST /api/chat:"; error]])%list.
Proof.
  intros World oracle name req w error. unfold outcome, trace, Route.POST.
  rewrite exec_try_catch.
  destruct (exec oracle (Route.POST_try name req) w) as [[r w'] t]; simpl.
  intros ->; simpl. split; reflexivity.
Qed.

(** The vector store cannot be reached: the caller gets the opaque
    failure, the connection error goes to the console. *)
Lemma C5_store_unreachable :
  outcome Double.service (Route.POST_try (VStr "f1gpt") Double.question)
    Double.unreachable_store
  = Throw Double.connection_error
  /\ outcome Double.service (Route.POST (VStr "f1gpt") Double.question)
       Double.unreachable_store
     = Ok {| body := Some internal_server_error_json;
             status := 500;
             headers := [("Content-Type", "application/json")] |}.
Proof.
  split; [reflexivity |].
  exact (proj1 (C5_error_gives_internal_server_error
                  Double.world Double.service (VStr "f1gpt") Double.question
                  Double.unreachable_store Double.connection_error eq_refl)).
Defined.

(** ** The grounding context (route.ts, lines 60 and 61, 83 to 90) *)

Arguments Route.systemPrompt : simpl never.

Ltac wp_next :=
  cbv beta iota; apply wp_bind; first [apply wp_lift | apply wp_await | apply wp_log];
  cbv beta.

(** [H] says that a trace written out holds a search that found nothing,
    and it holds none. *)
Ltac not_found H :=
  simpl in H;
  repeat (destruct H as [H | H];
          [ first [ discriminate H
                  | apply (f_equal found) in H; simpl in H; discriminate H ] | ]);
  try contradiction.

Lemma map_doc_text_records (rs : list (string * string)) :
  Route.map_doc_text (map stored_record rs) = Ok (map (fun r => VStr (snd r)) rs).
Proof.
  induction rs as [| r rs IH]; simpl; [reflexivity |].
  rewrite IH; reflexivity.
Qed.

Lemma join_strings (sep : string) (l : list string) :
  join sep (map VStr l) = Ok (String.concat sep l).
Proof.
  induction l as [| s l IH]; [reflexivity |].
  cbn [map join element_string to_string bind]. rewrite IH.
  destruct l; reflexivity.
Qed.

Lemma empty_or_itself (s : string) : (if String.eqb s "" then "" else s) = s.
Proof.
  destruct (String.eqb s "") eqn:E; [| reflexivity].
  apply String.eqb_eq in E; subst; reflexivity.
Qed.

Lemma doc_context_records (rs : list (string * string)) :
  Route.doc_context (map stored_record rs)
  = Ok (String.concat (Route.newline ++ Route.newline) (map snd rs)).
Proof.
  unfold Route.doc_context. rewrite map_doc_text_records; simpl.
  rewrite <- (map_map snd VStr). rewrite join_strings; simpl.
  rewrite empty_or_itself; reflexivity.
Qed.

(** After a search that found nothing the handler goes on to the
    generation: it converts the messages, calls [streamText] with the
    system prompt built over the empty context, and answers with the
    stream's response; only a failure of one of these calls stops it. *)
Lemma POST_after_empty_search
  (World : Type) (oracle : forall X, call X -> World -> result X * World)
  (ASTRA_DB_COLLECTION : value) (req : Route.Request) (w : World) :
  forall (v : vector) (k : nat),
    In (Called (collection_find v k) (Ok []))
      (trace oracle (Route.POST ASTRA_DB_COLLECTION req) w) ->
    exists messages converted,
      In (Called (convertToModelMessages messages) converted)
        (trace oracle (Route.POST ASTRA_DB_COLLECTION req) w)
      /\ forall modelMessages, converted = Ok modelMessages ->
         exists streamed,
           In (Called (streamText "gpt-4" (Route.systemPrompt "") modelMessages) streamed)
             (trace oracle (Route.POST ASTRA_DB_COLLECTION req) w)
           /\ forall result_, streamed = Ok result_ ->
              exists responded,
                In (Called (toTextStreamResponse result_) responded)
                  (trace oracle (Route.POST ASTRA_DB_COLLECTION req) w)
                /\ forall response, responded = Ok response ->
                   outcome oracle (Route.POST ASTRA_DB_COLLECTION req) w = Ok response.
Proof.
  pattern (outcome oracle (Route.POST ASTRA_DB_COLLECTION req) w),
          (trace oracle (Route.POST ASTRA_DB_COLLECTION req) w).
  apply wp_sound with (answers := any_answer); [intros; exact I |].
  unfold Route.POST. apply wp_try_catch. unfold Route.POST_try.
  wp_next. destruct (Route.json req) as [bm | e]; [| simpl; intros v k H; not_found H].
  wp_next. destruct (Route.messages_array bm) as [msgs | e];
    [| simpl; intros v k H; not_found H].
  wp_next. destruct (Route.user_query (Route.last_message msgs)) as [q | e];
    [| simpl; intros v k H; not_found H].
  wp_next. intros [data | e] _; [| simpl; intros v k H; not_found H].
  wp_next. destruct (Route.first_embedding data) as [qe | e];
    [| simpl; intros v k H; not_found H].
  wp_next. intros [u | e] _; [| simpl; intros v k H; not_found H].
  wp_next. intros [docs | e] _; [| simpl; intros v k H; not_found H].
  wp_next. wp_next. wp_next.
  destruct docs as [| d ds].
  2:{ wp_next. destruct (Route.first_result_preview (d :: ds)) as [pv | e];
        [| simpl; intros v k H; not_found H].
      wp_next. wp_next. destruct (Route.doc_context (d :: ds)) as [ctx | e];
        [| simpl; intros v k H; not_found H].
      wp_next. intros [mm | e] _; [| simpl; intros v k H; not_found H].
      wp_next. intros [sr | e] _; [| simpl; intros v k H; not_found H].
      cbv beta iota; apply wp_await.
      intros [resp | e] _; simpl; intros v k H; not_found H. }
  wp_next. change (Route.first_result_preview []) with (@Ok value VUndefined).
  wp_next. wp_next. change (Route.doc_context []) with (@Ok string "").
  wp_next. intros [mm | e] _.
  2:{ simpl; intros v k H. exists msgs, (Throw e). split; [simpl; auto 20 |].
      intros mm' E; discriminate E. }
  wp_next. intros [sr | e] _.
  2:{ simpl; intros v k H. exists msgs, (Ok mm). split; [simpl; auto 20 |].
      intros mm' E; inversion E; subst.
      exists (Throw e). split; [simpl; auto 20 |]. intros sr' E'; discriminate E'. }
  cbv beta iota; apply wp_await. intros [resp | e] _.
  - simpl; intros v k H. exists msgs, (Ok mm). split; [simpl; auto 20 |].
    intros mm' E; inversion E; subst.
    exists (Ok sr). split; [simpl; auto 20 |]. intros sr' E'; inversion E'; subst.
    exists (Ok resp). split; [simpl; auto 20 |]. intros resp' E''; inversion E''; subst.
    reflexivity.
  - simpl; intros v k H. exists msgs, (Ok mm). split; [simpl; auto 20 |].
    intros mm' E; inversion E; subst.
    exists (Ok sr). split; [simpl; auto 20 |]. intros sr' E'; inversion E'; subst.
    exists (Throw e). split; [simpl; auto 20 |]. intros resp' E''; discriminate E''.
Qed.

(** C6 (grounding context): the context built from the search results is
    their text fields joined by a blank line, in the order returned; for
    no results it is the empty string, and the handler then still goes on
    to the generation: it calls [streamText] with the system prompt built
    over the empty context and answers with the stream's response, unless
    one of the generation calls itself fails. *)
Theorem C6_grounding_context :
  (forall rs : list (string * string),
      Route.doc_context (map stored_record rs)
      = Ok (String.concat (Route.newline ++ Route.newline) (map snd rs)))
  /\ Route.doc_context [] = Ok ""
  /\ (forall (World : Type) (oracle : forall X, call X -> World -> result X * World)
             (ASTRA_DB_COLLECTION : value) (req : Route.Request) (w : World)
             (v : vector) (k : nat),
         In (Called (collection_find v k) (Ok []))
           (trace oracle (Route.POST ASTRA_DB_COLLECTION req) w) ->
         exists messages converted,
           In (Called (convertToModelMessages messages) converted)
             (trace oracle (Route.POST ASTRA_DB_COLLECTION req) w)
           /\ forall modelMessages, converted = Ok modelMessages ->
              exists streamed,
                In (Called (streamText "gpt-4" (Route.systemPrompt "") modelMessages)
                      streamed)
                  (trace oracle (Route.POST ASTRA_DB_COLLECTION req) w)
                /\ forall result_, streamed = Ok result_ ->
                   exists responded,
                     In (Called (toTextStreamResponse result_) responded)
                       (trace oracle (Route.POST ASTRA_DB_COLLECTION req) w)
                     /\ forall response, responded = Ok response ->
                        outcome oracle (Route.POST ASTRA_DB_COLLECTION req) w
                        = Ok response).
Proof.
  split; [exact doc_context_records |].
  split; [reflexivity |].
  intros World oracle name req w. apply POST_after_empty_search.
Qed.

(** The question asked of an empty collection: the search finds nothing,
    and the handler calls [streamText] all the same. *)
Lemma C6_empty_collection :
  In (Called (collection_find Double.zero_vector 5) (Ok []))
    (trace Double.service (Route.POST (VStr "f1gpt") Double.question) Double.empty_store)
  /\ exists messages converted,
       In (Called (convertToModelMessages messages) converted)
         (trace Double.service (Route.POST (VStr "f1gpt") Double.question)
            Double.empty_store)
       /\ forall modelMessages, converted = Ok modelMessages ->
          exists streamed,
            In (Called (streamText "gpt-4" (Route.systemPrompt "") modelMessages) streamed)
              (trace Double.service (Route.POST (VStr "f1gpt") Double.question)
                 Double.empty_store)
            /\ forall result_, streamed = Ok result_ ->
               exists responded,
                 In (Called (toTextStreamResponse result_) responded)
                   (trace Double.service (Route.POST (VStr "f1gpt") Double.question)
                      Double.empty_store)
                 /\ forall response, responded = Ok response ->
                    outcome Double.service (Route.POST (VStr "f1gpt") Double.question)
                      Double.empty_store
                    = Ok response.
Proof.
  assert (H : In (Called (collection_find Double.zero_vector 5) (Ok []))
                (trace Double.service (Route.POST (VStr "f1gpt") Double.question)
                   Double.empty_store)).
  { right; right; left; reflexivity. }
  split; [exact H |].
  exact (proj2 (proj2 C6_grounding_context) Double.world Double.service (VStr "f1gpt")
           Double.question Double.empty_store Double.zero_vector 5 H).
Defined.

(** ** Creating the collection ([createCollection], lines 93 to 109) *)

(** A run of [createCollection], written out. *)
Lemma exec_createCollection
  (World : Type) (oracle : forall X, call X -> World -> result X * World)
  (ASTRA_DB_COLLECTION : value) (metric : SimilarityMetric) (w : World) :
  exec oracle (LoadDb.createCollection ASTRA_DB_COLLECTION metric) w =
  let create := db_createCollection ASTRA_DB_COLLECTION 1536 metric in
  let '(r, w1) := oracle _ create w in
  match r with
  | Ok res =>
      (Ok tt, w1, [Called create (Ok res); Logged console_log [VStr "Collection created:"; res]])
  | Throw error =>
      match LoadDb.message_includes_already_exists error with
      | Ok v =>
          if truthy v
          then (Ok tt, w1,
                [Called create (Throw error);
                 Logged console_log [VStr "Collection already exists, skipping creation"]])
          else (Throw error, w1, [Called create (Throw error)])
      | Throw e' => (Throw e', w1, [Called create (Throw error)])
      end
  end.
Proof.
  unfold LoadDb.createCollection. rewrite exec_try_catch, exec_bind, exec_await.
  cbv zeta. destruct (oracle _ (db_createCollection ASTRA_DB_COLLECTION 1536 metric) w)
    as [[res | error] w1]; simpl; [reflexivity |].
  rewrite exec_bind, exec_lift.
  destruct (LoadDb.message_includes_already_exists error) as [v | e']; simpl;
    [| reflexivity].
  destruct (truthy v); reflexivity.
Qed.

(** The test gives [undefined], [true] or [false], or it throws. *)
Lemma already_exists_test_values (error : value) :
  LoadDb.message_includes_already_exists error = Ok VUndefined
  \/ LoadDb.message_includes_already_exists error = Ok (VBool true)
  \/ LoadDb.message_includes_already_exists error = Ok (VBool false)
  \/ exists e', LoadDb.message_includes_already_exists error = Throw e'.
Proof.
  unfold LoadDb.message_includes_already_exists.
  destruct (get error "message") as [message | e]; simpl; [| eauto].
  destruct message; eauto.
  - destruct (str_includes s "already exists"); auto.
  - destruct (existsb (fun x => strict_eq_str x "already exists") elems); auto.
Qed.

Lemma already_exists_test (name message : string) :
  LoadDb.message_includes_already_exists (Error_ name message)
  = Ok (VBool (str_includes message "already exists")).
Proof. reflexivity. Qed.

(** C7 (idempotent collection creation): [createCollection] returns
    normally when the store creates the collection and when the store
    rejects the creation with an error whose message says "already
    exists"; it throws the store's error in every other case (for a
    thrown value that is no error object: that value, or the TypeError of
    reading its message); so two calls in a row, the second finding the
    collection there, raise nothing. *)
Theorem C7_createCollection_swallows_already_exists :
  forall (World : Type) (oracle : forall X, call X -> World -> result X * World)
         (ASTRA_DB_COLLECTION : value) (metric : SimilarityMetric) (w : World),
    let create := db_createCollection ASTRA_DB_COLLECTION 1536 metric in
    let createCollection := LoadDb.createCollection ASTRA_DB_COLLECTION metric in
    (forall res, fst (oracle _ create w) = Ok res ->
                 outcome oracle createCollection w = Ok tt)
    /\ (forall name message,
           fst (oracle _ create w) = Throw (Error_ name message) ->
           outcome oracle createCollection w
           = if str_includes message "already exists" then Ok tt
             else Throw (Error_ name message))
    /\ (forall error,
           fst (oracle _ create w) = Throw error ->
           LoadDb.message_includes_already_exists error <> Ok (VBool true) ->
           exists e', outcome oracle createCollection w = Throw e'
                      /\ (e' = error
                          \/ LoadDb.message_includes_already_exists error = Throw e'))
    /\ (created_or_exists (fst (oracle _ create w)) ->
        created_or_exists (fst (oracle _ create (snd (oracle _ create w)))) ->
        outcome oracle (createCollection ;;; createCollection)%prog w = Ok tt).
Proof.
  intros World oracle name metric w create createCollection.
  subst create createCollection.
  assert (E := exec_createCollection World oracle name metric).
  cbv zeta in E. unfold outcome.
  repeat split.
  - intros res H. rewrite E.
    destruct (oracle _ (db_createCollection name 1536 metric) w) as [r w1];
      simpl in H; subst.
    reflexivity.
  - intros n m H. rewrite E.
    destruct (oracle _ (db_createCollection name 1536 metric) w) as [r w1];
      simpl in H; subst.
    rewrite already_exists_test; simpl.
    destruct (str_includes m "already exists"); reflexivity.
  - intros error H N. rewrite E.
    destruct (oracle _ (db_createCollection name 1536 metric) w) as [r w1];
      simpl in H; subst.
    destruct (already_exists_test_values error) as [T | [T | [T | [e' T]]]];
      rewrite T in *.
    + exists error; split; [reflexivity | left; reflexivity].
    + contradiction.
    + exists error; split; [reflexivity | left; reflexivity].
    + exists e'; split; [reflexivity | right; reflexivity].
  - intros H1 H2. rewrite exec_bind, E.
    destruct (oracle _ (db_createCollection name 1536 metric) w) as [r1 w1];
      simpl in H1, H2.
    assert (second :
              forall t, fst (fst (let '(r, w'', t') :=
                                    exec oracle (LoadDb.createCollection name metric) w1
                                  in (r, w'', (t ++ t')%list))) = Ok tt).
    { intro t. rewrite E.
      destruct (oracle _ (db_createCollection name 1536 metric) w1) as [r2 w2];
        simpl in H2.
      destruct r2 as [res2 | error2]; simpl in H2; [reflexivity |].
      destruct H2 as (n2 & m2 & -> & I2). rewrite already_exists_test; simpl.
      rewrite I2; reflexivity. }
    destruct r1 as [res | error]; simpl in H1; [apply second |].
    destruct H1 as (n & m & -> & I). rewrite already_exists_test; simpl. rewrite I.
    apply second.
Qed.

(** The script run twice against a store that has no collection yet: the
    first call creates it, the second is told it already exists, and
    neither throws. *)
Lemma C7_created_then_exists :
  fst (Double.service _ (db_createCollection (VStr "f1gpt") 1536 dot_product)
         Double.no_store)
  = Ok (VObj [])
  /\ fst (Double.service _ (db_createCollection (VStr "f1gpt") 1536 dot_product)
            (snd (Double.service _ (db_createCollection (VStr "f1gpt") 1536 dot_product)
                    Double.no_store)))
     = Throw (Double.exists_error "f1gpt")
  /\ outcome Double.service
       (LoadDb.createCollection (VStr "f1gpt") dot_product ;;;
        LoadDb.createCollection (VStr "f1gpt") dot_product)%prog
       Double.no_store
     = Ok tt.
Proof.
  split; [reflexivity |]. split; [reflexivity |].
  refine (proj2 (proj2 (proj2
            (C7_createCollection_swallows_already_exists
               Double.world Double.service (VStr "f1gpt") dot_product Double.no_store)))
            _ _).
  - exact I.
  - exists "DataAPIResponseError", "Collection already exists: f1gpt".
    split; reflexivity.
Defined.

(** ** One embedding model, one dimension *)

Lemma same_model_more (produced produced' : list vector) (t : list event) :
  (forall v, In v produced -> In v produced') ->
  same_model produced t -> same_model produced' t.
Proof.
  revert produced produced'; induction t as [| ev t IH]; simpl; intros p p' Hsub H; [exact I |].
  destruct H as [K S]. split.
  - destruct ev as [X c r | out args]; simpl in *; [| exact I].
    destruct c; simpl in *; auto.
  - eapply IH; [| exact S]. intros v Hv. apply in_app_iff in Hv. apply in_app_iff.
    destruct Hv; auto.
Qed.

Lemma same_model_app (produced : list vector) (t1 t2 : list event) :
  same_model produced t1 -> same_model produced t2 -> same_model produced (t1 ++ t2)%list.
Proof.
  revert produced; induction t1 as [| ev t1 IH]; simpl; intros p H1 H2; [exact H2 |].
  destruct H1 as [K S]. split; [exact K |].
  apply IH; [exact S |]. eapply same_model_more; [| exact H2].
  intros v Hv. apply in_app_iff; auto.
Qed.

Section Good.
Variable answers : forall X, call X -> result X -> Prop.

Lemma good_prefix {A} (p : prog A) (prefix : list event) :
  same_model [] prefix -> good answers p ->
  wp answers p (fun _ t => same_model [] (prefix ++ t)%list).
Proof.
  intros Hp Hg. eapply wp_mono; [| exact Hg].
  intros r t Ht; simpl. apply same_model_app; assumption.
Qed.

Lemma good_bind {A B} (p : prog A) (f : A -> prog B) :
  good answers p -> (forall a, good answers (f a)) -> good answers (pbind p f).
Proof.
  intros Hp Hf. apply wp_bind. eapply wp_mono; [| exact Hp].
  intros [a | e] t Ht; simpl; [| exact Ht].
  apply good_prefix; auto.
Qed.

Lemma good_try_catch {A} (p : prog A) (handler : value -> prog A) :
  good answers p -> (forall e, good answers (handler e)) -> good answers (try_catch p handler).
Proof.
  intros Hp Hh. apply wp_try_catch. eapply wp_mono; [| exact Hp].
  intros [a | e] t Ht; simpl; [exact Ht |].
  apply good_prefix; auto.
Qed.

Lemma good_lift {A} (r : result A) : good answers (lift r).
Proof. apply wp_lift. exact I. Qed.

Lemma good_ret {A} (a : A) : good answers (Ret a).
Proof. exact I. Qed.

Lemma good_raise {A} (e : value) : good answers (@Raise A e).
Proof. exact I. Qed.

Lemma good_log (out : console) (args : list value) : good answers (log out args).
Proof. apply wp_log. simpl; auto. Qed.

End Good.

Section KeepsModel.
Variable answers : forall X, call X -> result X -> Prop.
Variable ASTRA_DB_COLLECTION : value.

Lemma good_await {X} (c : call X) :
  (forall r, same_model [] [Called c r]) -> good answers (await c).
Proof. intro H. apply wp_await. intros r _. apply H. Qed.

Ltac good_step :=
  lazymatch goal with
  | |- good _ (Ret _) => apply good_ret
  | |- good _ (Raise _) => apply good_raise
  | |- good _ (log _ _) => apply good_log
  | |- good _ (lift _) => apply good_lift
  | |- good _ (await _) => apply good_await; intro; simpl; solve [auto]
  | |- good _ (pbind _ _) => apply good_bind; [| intro]
  end.

Ltac good_steps := repeat (cbv beta; good_step).

Lemma good_scrapePage (url : string) : good answers (LoadDb.scrapePage url).
Proof. unfold LoadDb.scrapePage. good_steps. Qed.

Lemma good_createCollection (metric : SimilarityMetric) :
  good answers (LoadDb.createCollection ASTRA_DB_COLLECTION metric).
Proof.
  unfold LoadDb.createCollection. apply good_try_catch.
  - good_steps.
  - intro error. apply good_bind; [apply good_lift | intro swallow].
    destruct (truthy swallow); good_steps.
Qed.

Lemma good_load_chunks (n_chunks : nat) (chunks : list string) :
  forall chunkCount totalChunks,
    good answers (LoadDb.load_chunks n_chunks chunks chunkCount totalChunks).
Proof.
  induction chunks as [| chunk rest IH]; intros chunkCount totalChunks.
  - exact I.
  - cbn [LoadDb.load_chunks]. unfold good.
    wp_next. intros [data | e] _; [| simpl; auto].
    wp_next. destruct data as [| v others]; [simpl; auto |].
    cbn [Route.first_embedding].
    wp_next. intros [u | e] _; [| simpl; auto].
    cbv beta iota zeta.
    apply (good_prefix answers _
             [Called (embeddings_create "text-embedding-3-small" (VStr chunk) (Some "float"))
                (Ok (v :: others));
              Called (collection_insertOne v chunk) (Ok u)]).
    + simpl; auto.
    + apply good_bind; [| intro; apply IH].
      destruct (Nat.eqb (Nat.modulo (S chunkCount) 10) 0); good_steps.
Qed.

Lemma good_load_pages (urls : list string) :
  forall totalChunks, good answers (LoadDb.load_pages urls totalChunks).
Proof.
  induction urls as [| url rest IH]; intro totalChunks.
  - exact I.
  - cbn [LoadDb.load_pages].
    apply good_bind; [apply good_log | intro].
    apply good_bind; [apply good_scrapePage | intro content].
    apply good_bind; [apply good_await; intro; simpl; auto | intro chunks].
    apply good_bind; [apply good_log | intro].
    apply good_bind; [apply good_load_chunks | intro counts].
    apply good_bind; [apply good_log | intro].
    apply IH.
Qed.

Lemma good_loadSampleData : good answers (LoadDb.loadSampleData ASTRA_DB_COLLECTION).
Proof.
  unfold LoadDb.loadSampleData.
  apply good_bind; [apply good_await; intro; simpl; auto | intro].
  apply good_bind; [apply good_load_pages | intro]. apply good_log.
Qed.

Lemma good_run : good answers (LoadDb.run ASTRA_DB_COLLECTION).
Proof.
  unfold LoadDb.run. apply good_try_catch.
  - apply good_bind; [apply good_log | intro].
    apply good_bind; [apply good_createCollection | intro].
    apply good_bind; [apply good_loadSampleData | intro].
    good_steps.
  - intro error. good_steps.
Qed.

Lemma good_POST (req : Route.Request) : good answers (Route.POST ASTRA_DB_COLLECTION req).
Proof.
  unfold Route.POST. apply good_try_catch; [| intro error; good_steps].
  unfold Route.POST_try.
  apply good_bind; [apply good_lift | intro bm].
  apply good_bind; [apply good_lift | intro msgs].
  apply good_bind; [apply good_lift | intro q].
  unfold good.
  wp_next. intros [data | e] _; [| simpl; auto].
  wp_next. destruct data as [| qe others]; [simpl; auto |].
  cbn [Route.first_embedding].
  wp_next. intros [u | e] _; [| simpl; auto].
  wp_next. intros [docs | e] _; [| simpl; auto].
  cbv beta iota.
  apply (good_prefix answers _
           [Called (embeddings_create "text-embedding-3-small" q None) (Ok (qe :: others));
            Called (db_collection ASTRA_DB_COLLECTION) (Ok u);
            Called (collection_find qe 5) (Ok docs)]).
  - simpl; auto.
  - good_steps.
Qed.

End KeepsModel.

Lemma wp_answered (answers : forall X, call X -> result X -> Prop) {A} (p : prog A) :
  forall Q : result A -> list event -> Prop,
    (forall r t, Forall (answered answers) t -> Q r t) -> wp answers p Q.
Proof.
  induction p as [a | e | out args k IH | X c k IH]; simpl; intros Q HQ.
  - apply HQ; constructor.
  - apply HQ; constructor.
  - apply IH. intros r t Ht. apply HQ. constructor; [exact I | exact Ht].
  - intros x Hx. apply IH. intros r t Ht. apply HQ. constructor; [exact Hx | exact Ht].
Qed.

(** Every call in a trace was answered by the world. *)
Lemma trace_answered (answers : forall X, call X -> result X -> Prop)
  {World : Type} (oracle : forall X, call X -> World -> result X * World) :
  (forall X c w, answers X c (fst (oracle X c w))) ->
  forall {A} (p : prog A) (w : World), Forall (answered answers) (trace oracle p w).
Proof.
  intros Hans A p w.
  apply (wp_sound answers oracle p (fun _ t => Forall (answered answers) t) Hans).
  apply wp_answered. auto.
Qed.

Lemma produced_by_dimension (ev : event) :
  answered model_dimension ev ->
  Forall (fun v : vector => length v = 1536) (produced_by ev).
Proof.
  destruct ev as [X c r | out args]; simpl; [| constructor].
  destruct c; simpl; try constructor.
  destruct (String.eqb model embedding_model) eqn:E; [| constructor].
  apply String.eqb_eq in E. intro H. specialize (H E).
  destruct r as [[| v others] | e]; try constructor.
  - inversion H; assumption.
  - constructor.
Qed.

(** When the provider keeps its contract, a trace that keeps to the model
    shows vectors of length 1536 only. *)
Lemma same_model_dimension (t : list event) :
  forall produced,
    Forall (fun v : vector => length v = 1536) produced ->
    same_model produced t ->
    Forall (answered model_dimension) t ->
    Forall has_dimension t.
Proof.
  induction t as [| ev t IH]; intros produced Hp Hs Ha; [constructor |].
  destruct Hs as [K S]. inversion Ha as [| ? ? A1 A2]; subst.
  constructor.
  - destruct ev as [X c r | out args]; simpl in *; [| exact I].
    destruct c; simpl in *; auto;
      eapply (proj1 (Forall_forall _ _) Hp); eassumption.
  - eapply IH; [| exact S | exact A2].
    apply Forall_app; split; [apply produced_by_dimension; exact A1 | exact Hp].
Qed.

(** C9 (one model, one dimension): in every run of the ingestion script
    and of the handler, each embedding is asked of
    [text-embedding-3-small], each vector inserted or searched is one
    that this model produced earlier in the run, and the collection is
    created with dimension 1536; so, the model giving vectors of length
    1536, every vector inserted or searched has length 1536, the
    dimension declared at creation. *)
Theorem C9_one_model_one_dimension :
  forall (World : Type) (oracle : forall X, call X -> World -> result X * World)
         (ASTRA_DB_COLLECTION : value) (req : Route.Request) (w : World),
    same_model [] (trace oracle (LoadDb.run ASTRA_DB_COLLECTION) w)
    /\ same_model [] (trace oracle (Route.POST ASTRA_DB_COLLECTION req) w)
    /\ ((forall X c w', model_dimension X c (fst (oracle X c w'))) ->
        Forall has_dimension (trace oracle (LoadDb.run ASTRA_DB_COLLECTION) w)
        /\ Forall has_dimension (trace oracle (Route.POST ASTRA_DB_COLLECTION req) w)).
Proof.
  intros World oracle name req w.
  assert (R : same_model [] (trace oracle (LoadDb.run name) w)).
  { apply (wp_sound any_answer oracle (LoadDb.run name) (fun _ t => same_model [] t));
      [intros; exact I | apply good_run]. }
  assert (P : same_model [] (trace oracle (Route.POST name req) w)).
  { apply (wp_sound any_answer oracle (Route.POST name req) (fun _ t => same_model [] t));
      [intros; exact I | apply good_POST]. }
  split; [exact R |]. split; [exact P |].
  intro Hans. split.
  - apply (same_model_dimension _ []); [constructor | exact R |].
    apply trace_answered; exact Hans.
  - apply (same_model_dimension _ []); [constructor | exact P |].
    apply trace_answered; exact Hans.
Qed.

Lemma double_model_dimension :
  forall X (c : call X) (w : Double.world),
    model_dimension X c (fst (Double.service X c w)).
Proof.
  intros X c w. destruct c; simpl; try exact I.
  intros ->. simpl. constructor; [reflexivity | constructor].
Defined.

(** The script and the handler run against the double, whose embedding
    model gives vectors of length 1536. *)
Lemma C9_double_dimension :
  Forall has_dimension (trace Double.service (LoadDb.run (VStr "f1gpt")) Double.no_store)
  /\ Forall has_dimension
       (trace Double.service (Route.POST (VStr "f1gpt") Double.question)
          Double.empty_store).
Proof.
  split.
  - exact (proj1 (proj2 (proj2 (C9_one_model_one_dimension
                    Double.world Double.service (VStr "f1gpt") Double.question
                    Double.no_store)) double_model_dimension)).
  - exact (proj2 (proj2 (proj2 (C9_one_model_one_dimension
                    Double.world Double.service (VStr "f1gpt") Double.question
                    Double.empty_store)) double_model_dimension)).
Defined.

(** ** The clean-up of scraped text ([scrapePage], lines 199 to 207) *)

Lemma strip_tags_no_tag (s : string) : forall in_tag, no_tag (LoadDb.strip_tags_from in_tag s).
Proof.
  unfold no_tag, all_chars.
  induction s as [| c s IH]; intro in_tag; simpl; [constructor |].
  destruct in_tag.
  - destruct (Ascii.eqb c ">"); apply IH.
  - destruct (Ascii.eqb c "<") eqn:E; [apply IH |].
    simpl. constructor; [| apply IH].
    intros ->. rewrite Ascii.eqb_refl in E; discriminate E.
Qed.

Lemma collapse_all_chars (P : ascii -> Prop) (s : string) :
  P " "%char -> all_chars P s -> forall in_run, all_chars P (LoadDb.collapse_from in_run s).
Proof.
  unfold all_chars. intros Hsp.
  induction s as [| c s IH]; intros H in_run; simpl; [constructor |].
  simpl in H. inversion H as [| ? ? Hc Hs]; subst.
  destruct (LoadDb.is_space c).
  - destruct in_run; [apply IH; exact Hs |].
    simpl. constructor; [exact Hsp | apply IH; exact Hs].
  - simpl. constructor; [exact Hc | apply IH; exact Hs].
Qed.

Lemma remove_edit_all_chars (P : ascii -> Prop) (s : string) :
  all_chars P s -> forall skip, all_chars P (LoadDb.remove_edit_from skip s).
Proof.
  unfold all_chars.
  induction s as [| c s IH]; intros H skip; [destruct skip; constructor |].
  simpl in H. inversion H as [| ? ? Hc Hs]; subst.
  cbn [LoadDb.remove_edit_from]. destruct skip as [| k]; [| apply IH; exact Hs].
  destruct (String.prefix "[edit]" (String c s)); [apply IH; exact Hs |].
  simpl. constructor; [exact Hc | apply IH; exact Hs].
Qed.

Lemma trim_start_all_chars (P : ascii -> Prop) (s : string) :
  all_chars P s -> all_chars P (LoadDb.trim_start s).
Proof.
  unfold all_chars.
  induction s as [| c s IH]; intro H; simpl; [constructor |].
  destruct (LoadDb.is_space c); [| exact H].
  simpl in H. inversion H; subst. apply IH; assumption.
Qed.

Lemma trim_end_all_chars (P : ascii -> Prop) (s : string) :
  all_chars P s -> all_chars P (LoadDb.trim_end s).
Proof.
  unfold all_chars.
  induction s as [| c s IH]; intro H; simpl; [constructor |].
  simpl in H. inversion H as [| ? ? Hc Hs]; subst. specialize (IH Hs).
  destruct (LoadDb.trim_end s) as [| d r].
  - destruct (LoadDb.is_space c); simpl; constructor; [exact Hc | constructor].
  - simpl. constructor; [exact Hc | exact IH].
Qed.

Lemma trim_start_starts (s : string) : starts_with_space (LoadDb.trim_start s) = false.
Proof.
  induction s as [| c s IH]; simpl; [reflexivity |].
  destruct (LoadDb.is_space c) eqn:E; [exact IH | simpl; exact E].
Qed.

Lemma trim_end_starts (s : string) :
  starts_with_space s = false -> starts_with_space (LoadDb.trim_end s) = false.
Proof.
  destruct s as [| c s]; simpl; [reflexivity |]. intro E.
  destruct (LoadDb.trim_end s); [rewrite E |]; simpl; auto.
Qed.

Lemma trim_end_ends (s : string) : ends_with_space (LoadDb.trim_end s) = false.
Proof.
  induction s as [| c s IH]; simpl; [reflexivity |].
  destruct (LoadDb.trim_end s) as [| d r].
  - destruct (LoadDb.is_space c) eqn:E; simpl; [reflexivity | exact E].
  - exact IH.
Qed.

(** What holds of every cleaned text: no tag opens in it, and it is
    trimmed. *)
Lemma clean_up_no_tag_and_trimmed (rawContent : option string) :
  no_tag (LoadDb.clean_up rawContent)
  /\ starts_with_space (LoadDb.clean_up rawContent) = false
  /\ ends_with_space (LoadDb.clean_up rawContent) = false.
Proof.
  destruct rawContent as [raw |]; simpl; [| repeat split; constructor].
  rewrite empty_or_itself. unfold LoadDb.trim. repeat split.
  - apply trim_end_all_chars, trim_start_all_chars, remove_edit_all_chars,
      collapse_all_chars; [discriminate | apply strip_tags_no_tag].
  - apply trim_end_starts, trim_start_starts.
  - apply trim_end_ends.
Qed.

(** C4 (normalization): the clean-up collapses white space before it
    removes the [[edit]] markers, so a marker between two spaces leaves
    the two spaces side by side: "a [edit] b" becomes "a  b".  What does
    hold of every cleaned text: no tag opens in it, and it is trimmed. *)
Theorem C4_edit_marker_leaves_two_spaces :
  LoadDb.clean_up (Some "a [edit] b") = "a  b"
  /\ whitespace_run (LoadDb.clean_up (Some "a [edit] b")) = true
  /\ forall rawContent,
       no_tag (LoadDb.clean_up rawContent)
       /\ starts_with_space (LoadDb.clean_up rawContent) = false
       /\ ends_with_space (LoadDb.clean_up rawContent) = false.
Proof.
  split; [reflexivity |]. split; [reflexivity |].
  exact clean_up_no_tag_and_trimmed.
Qed.

(** ** Every run of the handler is one of the cases *)

Lemma request_query_ok (req : Route.Request) bm msgs q :
  Route.json req = Ok bm -> Route.messages_array bm = Ok msgs ->
  Route.user_query (Route.last_message msgs) = Ok q ->
  request_query req = Ok (msgs, q).
Proof. intros J M Q. unfold request_query. rewrite J; simpl. rewrite M; simpl. rewrite Q. reflexivity. Qed.

Lemma POST_runs_wp (name : value) (req : Route.Request) :
  wp any_answer (Route.POST name req) (POST_run name req).
Proof.
  unfold Route.POST. apply wp_try_catch. unfold Route.POST_try.
  wp_next. destruct (Route.json req) as [bm | e] eqn:J.
  2:{ simpl. apply POST_no_query. unfold request_query. rewrite J. reflexivity. }
  wp_next. destruct (Route.messages_array bm) as [msgs | e] eqn:M.
  2:{ simpl. apply POST_no_query. unfold request_query. rewrite J; simpl. rewrite M.
      reflexivity. }
  wp_next. destruct (Route.user_query (Route.last_message msgs)) as [q | e] eqn:Q.
  2:{ simpl. apply POST_no_query. unfold request_query. rewrite J; simpl. rewrite M; simpl.
      rewrite Q. reflexivity. }
  assert (R := request_query_ok req bm msgs q J M Q).
  wp_next. intros [data | e] _; [| simpl; eapply POST_embedding_fails; eauto].
  wp_next. destruct data as [| v others];
    [simpl; eapply POST_no_embedding; eauto |].
  cbn [Route.first_embedding].
  wp_next. intros [[] | e] _; [| simpl; eapply POST_collection_fails; eauto].
  wp_next. intros [docs | e] _; [| simpl; eapply POST_search_fails; eauto].
  wp_next. wp_next. wp_next.
  wp_next. destruct (Route.first_result_preview docs) as [pv | e] eqn:P;
    [| simpl; eapply (POST_preview_throws name req msgs q v others docs); eauto].
  wp_next. wp_next. destruct (Route.doc_context docs) as [ctx | e] eqn:C;
    [| simpl; eapply (POST_context_throws name req msgs q v others docs pv); eauto].
  wp_next. intros [mm | e] _;
    [| simpl; eapply (POST_convert_fails name req msgs q v others docs pv ctx); eauto].
  wp_next. intros [sr | e] _;
    [| simpl; eapply (POST_stream_fails name req msgs q v others docs pv ctx mm); eauto].
  cbv beta iota; apply wp_await. intros [resp | e] _.
  - simpl. eapply (POST_responds name req msgs q v others docs pv ctx mm sr resp); eauto.
  - simpl. eapply (POST_response_fails name req msgs q v others docs pv ctx mm sr); eauto.
Qed.

(** Whatever the services answer, a run of the handler is one of the
    cases of [POST_run]. *)
Lemma POST_runs
  (World : Type) (oracle : forall X, call X -> World -> result X * World)
  (name : value) (req : Route.Request) (w : World) :
  POST_run name req (outcome oracle (Route.POST name req) w)
    (trace oracle (Route.POST name req) w).
Proof.
  apply (wp_sound any_answer oracle); [intros; exact I | apply POST_runs_wp].
Qed.

Ltac POST_cases World oracle name req w :=
  let R := fresh "R" in
  assert (R := POST_runs World oracle name req w);
  destruct R; unfold assembled, searched, POST_error; cbn [app].

(** X1.  The handler never throws: it fulfils with a response, which is
    either the fixed status-500 response, the run ending with the one
    line on [console.error], or the response [toTextStreamResponse] gave,
    the run ending with that call and no line on [console.error]. *)
Theorem POST_always_answers :
  forall (World : Type) (oracle : forall X, call X -> World -> result X * World)
         (ASTRA_DB_COLLECTION : value) (req : Route.Request) (w : World),
    exists response before,
      outcome oracle (Route.POST ASTRA_DB_COLLECTION req) w = Ok response
      /\ existsb error_line before = false
      /\ ((response = Route.internal_server_error
           /\ exists e,
               trace oracle (Route.POST ASTRA_DB_COLLECTION req) w
               = (before ++ [POST_error e])%list)
          \/ exists result_,
               trace oracle (Route.POST ASTRA_DB_COLLECTION req) w
               = (before ++ [Called (toTextStreamResponse result_) (Ok response)])%list).
Proof.
  intros World oracle name req w.
  POST_cases World oracle name req w.
  all: match goal with
       | |- exists response before, Ok ?r = Ok response /\ _ /\ (_ \/ exists _, ?t = _) =>
           exists r, (removelast t)
       end; cbn [removelast]; (split; [reflexivity | split; [reflexivity |]]).
  1-10: left; split; [reflexivity | eexists; reflexivity].
  right; eexists; reflexivity.
Qed.

(** X2.  The service calls of a run are an initial part of the pipeline
    embed, open the collection, search, convert, generate, respond, each
    made at most once and in this order; and once a call has thrown the
    handler calls no service again. *)
Theorem POST_calls_follow_pipeline :
  forall (World : Type) (oracle : forall X, call X -> World -> result X * World)
         (ASTRA_DB_COLLECTION : value) (req : Route.Request) (w : World),
    (exists not_reached,
        (stages (trace oracle (Route.POST ASTRA_DB_COLLECTION req) w) ++ not_reached)%list
        = pipeline)
    /\ calls_after_failure (trace oracle (Route.POST ASTRA_DB_COLLECTION req) w) = [].
Proof.
  intros World oracle name req w.
  POST_cases World oracle name req w.
  all: split; [eexists; cbn [stages stage_of app]; reflexivity | reflexivity].
Qed.

(** X3.  What the model is given.  Whenever a run calls [streamText], the
    model is [gpt-4]; the system prompt is the template around the
    context built from the very documents the search returned, the search
    having been made, with limit 5, on the first vector the embedding of
    the extracted query returned; and the messages are what
    [convertToModelMessages] returned for the messages of the body. *)
Theorem POST_generation_inputs :
  forall (World : Type) (oracle : forall X, call X -> World -> result X * World)
         (ASTRA_DB_COLLECTION : value) (req : Route.Request) (w : World)
         (ev : event) (model system : string) (modelMessages : list value)
         (answer : result StreamResult),
    In ev (trace oracle (Route.POST ASTRA_DB_COLLECTION req) w) ->
    stream_event ev = Some (model, system, modelMessages, answer) ->
    model = "gpt-4"
    /\ exists messages userQuery v others docs docContext,
         request_query req = Ok (messages, userQuery)
         /\ In (Called (embeddings_create "text-embedding-3-small" userQuery None)
                  (Ok (v :: others)))
              (trace oracle (Route.POST ASTRA_DB_COLLECTION req) w)
         /\ In (Called (collection_find v 5) (Ok docs))
              (trace oracle (Route.POST ASTRA_DB_COLLECTION req) w)
         /\ Route.doc_context docs = Ok docContext
         /\ system = Route.systemPrompt docContext
         /\ In (Called (convertToModelMessages messages) (Ok modelMessages))
              (trace oracle (Route.POST ASTRA_DB_COLLECTION req) w).
Proof.
  intros World oracle name req w ev model system mm answer.
  POST_cases World oracle name req w.
  all: intros Hin Hev; cbn [In] in Hin;
    repeat (destruct Hin as [<- | Hin]; [try discriminate Hev |]);
    try contradiction.
  all: cbn [stream_event] in Hev; injection Hev as <- <- <- <-;
    (split; [reflexivity |]);
    do 6 eexists; split; [eassumption |];
    split; [left; reflexivity |];
    split; [right; right; left; reflexivity |];
    split; [eassumption |];
    split; [reflexivity |];
    do 7 right; left; reflexivity.
Qed.

Lemma POST_generation_inputs_witness :
  let run_trace :=
    trace Double.service (Route.POST (VStr "f1gpt") Double.question) Double.empty_store in
  let generation :=
    Called (streamText "gpt-4" (Route.systemPrompt "")
              [message_value (flat "user" "Who won 2023?")])
      (Ok {| textStream := ["Max "; "Verstappen."] |}) in
  In generation run_trace
  /\ exists messages userQuery v others docs docContext,
       request_query Double.question = Ok (messages, userQuery)
       /\ In (Called (embeddings_create "text-embedding-3-small" userQuery None)
                (Ok (v :: others))) run_trace
       /\ In (Called (collection_find v 5) (Ok docs)) run_trace
       /\ Route.doc_context docs = Ok docContext
       /\ Route.systemPrompt "" = Route.systemPrompt docContext
       /\ In (Called (convertToModelMessages messages)
                (Ok [message_value (flat "user" "Who won 2023?")])) run_trace.
Proof.
  intros run_trace generation.
  assert (Hin : In generation run_trace) by (do 8 right; left; reflexivity).
  split; [exact Hin |].
  exact (proj2 (POST_generation_inputs Double.world Double.service (VStr "f1gpt")
                  Double.question Double.empty_store generation _ _ _ _ Hin eq_refl)).
Defined.

(** X4.  Every status-500 answer has a cause, and the value written on
    [console.error] is that cause: what reading the body or extracting
    the query threw, what a service call threw, the TypeError of an
    embedding answer without data, or what the debug preview or the
    building of the context threw on the documents found. *)
Theorem POST_error_has_a_cause :
  forall (World : Type) (oracle : forall X, call X -> World -> result X * World)
         (ASTRA_DB_COLLECTION : value) (req : Route.Request) (w : World) (e : value),
    In (POST_error e) (trace oracle (Route.POST ASTRA_DB_COLLECTION req) w) ->
    request_query req = Throw e
    \/ (exists ev,
           In ev (trace oracle (Route.POST ASTRA_DB_COLLECTION req) w)
           /\ thrown ev = Some e)
    \/ (exists model input format,
           In (Called (embeddings_create model input format) (Ok []))
             (trace oracle (Route.POST ASTRA_DB_COLLECTION req) w)
           /\ Route.first_embedding [] = Throw e)
    \/ (exists v limit docs,
           In (Called (collection_find v limit) (Ok docs))
             (trace oracle (Route.POST ASTRA_DB_COLLECTION req) w)
           /\ (Route.first_result_preview docs = Throw e
               \/ Route.doc_context docs = Throw e)).
Proof.
  intros World oracle name req w e.
  POST_cases World oracle name req w.
  all: intro Hin; cbn [In] in Hin;
    repeat (destruct Hin as [E | Hin]; [try discriminate E |]);
    try contradiction; injection E as <-.
  - left; assumption.
  - right; left. eexists; split; [left; reflexivity | reflexivity].
  - right; right; left. do 3 eexists; split; [left; reflexivity | assumption].
  - right; left. eexists; split; [right; left; reflexivity | reflexivity].
  - right; left. eexists; split; [right; right; left; reflexivity | reflexivity].
  - right; right; right. do 3 eexists; split; [right; right; left; reflexivity |].
    left; assumption.
  - right; right; right. do 3 eexists; split; [right; right; left; reflexivity |].
    right; assumption.
  - right; left. eexists; split; [do 7 right; left; reflexivity | reflexivity].
  - right; left. eexists; split; [do 8 right; left; reflexivity | reflexivity].
  - right; left. eexists; split; [do 9 right; left; reflexivity | reflexivity].
Qed.

Lemma POST_error_has_a_cause_witness :
  let run_trace :=
    trace Double.service (Route.POST (VStr "f1gpt") Double.question)
      Double.unreachable_store in
  In (POST_error Double.connection_error) run_trace
  /\ (request_query Double.question = Throw Double.connection_error
      \/ (exists ev, In ev run_trace /\ thrown ev = Some Double.connection_error)
      \/ (exists model input format,
             In (Called (embeddings_create model input format) (Ok [])) run_trace
             /\ Route.first_embedding [] = Throw Double.connection_error)
      \/ (exists v limit docs,
             In (Called (collection_find v limit) (Ok docs)) run_trace
             /\ (Route.first_result_preview docs = Throw Double.connection_error
                 \/ Route.doc_context docs = Throw Double.connection_error))).
Proof.
  intro run_trace.
  assert (Hin : In (POST_error Double.connection_error) run_trace)
    by (do 3 right; left; reflexivity).
  split; [exact Hin |].
  exact (POST_error_has_a_cause Double.world Double.service (VStr "f1gpt")
           Double.question Double.unreachable_store Double.connection_error Hin).
Defined.

(** ** Malformed and empty requests *)

Lemma filter_text_null_part (parts : list value) :
  In VNull parts -> ~ In VUndefined parts ->
  Route.filter_text parts
  = Throw (TypeError "Cannot read properties of null (reading 'type')").
Proof.
  induction parts as [| part rest IH]; intros N U; [contradiction |].
  destruct N as [-> | N]; [reflexivity |].
  assert (U' : ~ In VUndefined rest) by (intro H; apply U; right; exact H).
  cbn [Route.filter_text]. rewrite (IH N U').
  destruct part; try reflexivity.
  elim U. left; reflexivity.
Qed.

Lemma POST_without_query
  (World : Type) (oracle : forall X, call X -> World -> result X * World)
  (name : value) (req : Route.Request) (w : World) (e : value) :
  request_query req = Throw e ->
  outcome oracle (Route.POST name req) w = Ok Route.internal_server_error
  /\ trace oracle (Route.POST name req) w = [POST_error e].
Proof.
  intro Q. POST_cases World oracle name req w.
  all: match goal with
       | H : request_query _ = _ |- _ => rewrite H in Q
       end; try discriminate Q.
  injection Q as <-. split; reflexivity.
Qed.

Lemma POST_with_query
  (World : Type) (oracle : forall X, call X -> World -> result X * World)
  (name : value) (req : Route.Request) (w : World) (messages : list value) (q : value) :
  request_query req = Ok (messages, q) ->
  exists answer rest,
    trace oracle (Route.POST name req) w
    = Called (embeddings_create "text-embedding-3-small" q None) answer :: rest.
Proof.
  intro Q. POST_cases World oracle name req w.
  all: match goal with
       | H : request_query _ = _ |- _ => rewrite H in Q
       end; try discriminate Q.
  all: injection Q as <- <-; eexists; eexists; reflexivity.
Qed.

(** X5.  The extraction of the query decides whether any service is
    called: when reading the body or extracting the query throws, the
    handler logs the error and answers 500 without a single call;
    otherwise its first event is the embedding call for exactly the
    extracted query, with the model [text-embedding-3-small] and no
    encoding format. *)
Theorem POST_extraction_decides :
  forall (World : Type) (oracle : forall X, call X -> World -> result X * World)
         (ASTRA_DB_COLLECTION : value) (req : Route.Request) (w : World),
    match request_query req with
    | Throw e =>
        outcome oracle (Route.POST ASTRA_DB_COLLECTION req) w
        = Ok Route.internal_server_error
        /\ trace oracle (Route.POST ASTRA_DB_COLLECTION req) w = [POST_error e]
    | Ok (_, userQuery) =>
        exists answer rest,
          trace oracle (Route.POST ASTRA_DB_COLLECTION req) w
          = Called (embeddings_create "text-embedding-3-small" userQuery None) answer
            :: rest
    end.
Proof.
  intros World oracle name req w.
  destruct (request_query req) as [[messages q] | e] eqn:Q.
  - exact (POST_with_query World oracle name req w messages q Q).
  - exact (POST_without_query World oracle name req w e Q).
Qed.

(** X6.  A [null] among the parts of the last message is an internal
    error.  The parts being JSON, none of them is [undefined]; wherever
    the [null] stands among them, reading its [type] throws the TypeError
    of a property read on [null], and the handler writes it on
    [console.error] and answers 500 without calling any service. *)
Theorem POST_null_part_is_an_error :
  forall (World : Type) (oracle : forall X, call X -> World -> result X * World)
         (ASTRA_DB_COLLECTION : value) (w : World) (messages parts : list value),
    get_opt (Route.last_message messages) "parts" = VArr parts ->
    In VNull parts ->
    ~ In VUndefined parts ->
    outcome oracle (Route.POST ASTRA_DB_COLLECTION {| Route.json := Ok (Some messages) |}) w
    = Ok Route.internal_server_error
    /\ trace oracle (Route.POST ASTRA_DB_COLLECTION {| Route.json := Ok (Some messages) |}) w
       = [POST_error (TypeError "Cannot read properties of null (reading 'type')")].
Proof.
  intros World oracle name w messages parts P N U.
  apply POST_without_query.
  unfold request_query, Route.user_query. cbn [Route.json Route.messages_array bind].
  rewrite P. cbn [truthy]. rewrite (filter_text_null_part parts N U).
  reflexivity.
Qed.

Lemma POST_null_part_is_an_error_witness :
  let messages :=
    [VObj [("role", VStr "user");
           ("parts", VArr [VObj [("type", VStr "text"); ("text", VStr "Who won?")];
                           VNull])]] in
  In VNull [VObj [("type", VStr "text"); ("text", VStr "Who won?")]; VNull]
  /\ ~ In VUndefined [VObj [("type", VStr "text"); ("text", VStr "Who won?")]; VNull]
  /\ outcome Double.service
       (Route.POST (VStr "f1gpt") {| Route.json := Ok (Some messages) |}) Double.empty_store
     = Ok Route.internal_server_error
  /\ trace Double.service
       (Route.POST (VStr "f1gpt") {| Route.json := Ok (Some messages) |}) Double.empty_store
     = [POST_error (TypeError "Cannot read properties of null (reading 'type')")].
Proof.
  intro messages.
  assert (N : In VNull [VObj [("type", VStr "text"); ("text", VStr "Who won?")]; VNull])
    by (right; left; reflexivity).
  assert (U : ~ In VUndefined
                [VObj [("type", VStr "text"); ("text", VStr "Who won?")]; VNull])
    by (intros [H | [H | []]]; discriminate H).
  split; [exact N |]. split; [exact U |].
  exact (POST_null_part_is_an_error Double.world Double.service (VStr "f1gpt")
           Double.empty_store messages _ eq_refl N U).
Defined.

(** X7.  A request without text is not refused.  When the last message
    has neither parts nor content (both missing or falsy), or when there
    is no message at all, the handler goes on with the empty query: its
    first event is the embedding call for the empty string. *)
Theorem POST_embeds_the_empty_string :
  forall (World : Type) (oracle : forall X, call X -> World -> result X * World)
         (ASTRA_DB_COLLECTION : value) (w : World) (messages : list value),
    truthy (get_opt (Route.last_message messages) "parts") = false ->
    truthy (get_opt (Route.last_message messages) "content") = false ->
    exists answer rest,
      trace oracle (Route.POST ASTRA_DB_COLLECTION {| Route.json := Ok (Some messages) |}) w
      = Called (embeddings_create "text-embedding-3-small" (VStr "") None) answer :: rest.
Proof.
  intros World oracle name w messages P C.
  apply (POST_with_query World oracle name _ w messages).
  unfold request_query, Route.user_query. cbn [Route.json Route.messages_array bind].
  rewrite P, C. reflexivity.
Qed.

Lemma POST_embeds_the_empty_string_witness :
  truthy (get_opt (Route.last_message []) "parts") = false
  /\ truthy (get_opt (Route.last_message []) "content") = false
  /\ exists answer rest,
       trace Double.service
         (Route.POST (VStr "f1gpt") {| Route.json := Ok (Some []) |}) Double.empty_store
       = Called (embeddings_create "text-embedding-3-small" (VStr "") None) answer :: rest.
Proof.
  split; [reflexivity |]. split; [reflexivity |].
  exact (POST_embeds_the_empty_string Double.world Double.service (VStr "f1gpt")
           Double.empty_store [] eq_refl eq_refl).
Defined.

(** ** Every run of the seeding script is one of the cases *)

Lemma chunks_runs_wp (n_chunks : nat) (chunks : list string) :
  forall chunkCount totalChunks,
    wp any_answer (LoadDb.load_chunks n_chunks chunks chunkCount totalChunks)
      (chunks_run n_chunks chunks chunkCount totalChunks).
Proof.
  induction chunks as [| chunk rest IH]; intros chunkCount totalChunks.
  - apply chunks_done.
  - cbn [LoadDb.load_chunks].
    wp_next. intros [data | e] _; [| simpl; apply chunk_not_embedded].
    wp_next. destruct data as [| v others];
      [simpl; apply chunk_no_embedding; reflexivity |].
    cbn [Route.first_embedding].
    wp_next. intros [[] | e] _; [| simpl; apply chunk_not_inserted].
    cbv beta iota zeta. apply wp_bind.
    assert (step : forall (Q : result unit -> list event -> Prop),
               Q (Ok tt) (progress n_chunks (S chunkCount)) ->
               wp any_answer
                 (if Nat.eqb (Nat.modulo (S chunkCount) 10) 0
                  then log stdout_write
                         [VStr ("  Processed " ++ Route.nat_string (S chunkCount) ++ "/"
                                ++ Route.nat_string n_chunks ++ " chunks"
                                ++ String "013"%char "")]
                  else Ret tt) Q).
    { intros Q HQ. unfold progress in HQ.
      destruct (Nat.eqb (Nat.modulo (S chunkCount) 10) 0); exact HQ. }
    apply step. eapply wp_mono; [| apply IH].
    intros r t Hrun. cbn [app]. apply chunk_loaded. exact Hrun.
Qed.

Lemma pages_runs_wp (urls : list string) :
  forall totalChunks,
    wp any_answer (LoadDb.load_pages urls totalChunks) (pages_run urls totalChunks).
Proof.
  induction urls as [| url rest IH]; intro totalChunks.
  - apply pages_done.
  - cbn [LoadDb.load_pages].
    wp_next. apply wp_bind. unfold LoadDb.scrapePage.
    wp_next. intros [raw | e] _; [| simpl; apply page_not_scraped].
    cbn [wp app].
    wp_next. intros [chunks | e] _; [| simpl; apply page_not_split].
    wp_next. apply wp_bind. eapply wp_mono; [| apply chunks_runs_wp].
    intros [[chunkCount totalChunks'] | e] t Hchunks.
    + wp_next. eapply wp_mono; [| apply IH].
      intros r t' Hpages.
      exact (page_loaded url rest totalChunks raw chunks chunkCount totalChunks' t r t'
               Hchunks Hpages).
    + exact (page_not_loaded url rest totalChunks raw chunks e t Hchunks).
Qed.

Lemma creation_runs_wp (name : value) (metric : SimilarityMetric) :
  wp any_answer (LoadDb.createCollection name metric) (creation_run name metric).
Proof.
  unfold LoadDb.createCollection. apply wp_try_catch.
  wp_next. intros [res | error] _.
  - apply wp_log. apply collection_created.
  - cbv beta iota. apply wp_bind. apply wp_lift.
    destruct (LoadDb.message_includes_already_exists error) as [swallow | e] eqn:T.
    + destruct (truthy swallow) eqn:S.
      * apply wp_log. exact (collection_exists name metric error swallow T S).
      * exact (collection_refused name metric error swallow T S).
    + exact (collection_test_throws name metric error e T).
Qed.

Lemma script_run_trace (name : value) (r : result nat) (t t' : list event) :
  script_run name r t -> t = t' -> script_run name r t'.
Proof. intros H <-. exact H. Qed.

Ltac same_trace :=
  unfold starting, run_error, loading_complete, all_done; cbn [app];
  rewrite <- ?app_assoc; cbn [app]; rewrite ?app_nil_r; reflexivity.

Lemma script_runs_wp (name : value) :
  wp any_answer (LoadDb.run name) (script_run name).
Proof.
  unfold LoadDb.run. apply wp_try_catch.
  wp_next. apply wp_bind. eapply wp_mono; [| apply creation_runs_wp].
  intros [[] | e] t Hcreate.
  2:{ wp_next. cbn [wp].
      eapply script_run_trace; [exact (script_no_collection name e t Hcreate) |].
      same_trace. }
  apply wp_bind. unfold LoadDb.loadSampleData.
  wp_next. intros [[] | e] _.
  2:{ cbv beta iota. wp_next. cbn [wp].
      eapply script_run_trace; [exact (script_collection_unopened name e t Hcreate) |].
      same_trace. }
  apply wp_bind. eapply wp_mono; [| apply pages_runs_wp].
  intros [totalChunks | e] t' Hpages.
  2:{ wp_next. cbn [wp].
      eapply script_run_trace; [exact (script_stops name e t t' Hcreate Hpages) |].
      same_trace. }
  apply wp_log. wp_next. cbn [wp].
  eapply script_run_trace; [exact (script_completes name totalChunks t t' Hcreate Hpages) |].
  same_trace.
Qed.

(** Whatever the services answer, a run of the script is one of the cases
    of [script_run]. *)
Lemma script_runs
  (World : Type) (oracle : forall X, call X -> World -> result X * World)
  (name : value) (w : World) :
  script_run name (outcome oracle (LoadDb.run name) w) (trace oracle (LoadDb.run name) w).
Proof.
  apply (wp_sound any_answer oracle); [intros; exact I | apply script_runs_wp].
Qed.

(** ** What a trace of the script shows *)

Lemma inserts_app (t1 t2 : list event) :
  inserts (t1 ++ t2) = (inserts t1 ++ inserts t2)%list.
Proof.
  induction t1 as [| ev t1 IH]; [reflexivity |].
  cbn [app inserts]. destruct (insert_event ev) as [[[v text_] [u | e]] |]; rewrite IH;
    reflexivity.
Qed.

Lemma split_chunks_app (t1 t2 : list event) :
  split_chunks (t1 ++ t2) = (split_chunks t1 ++ split_chunks t2)%list.
Proof.
  induction t1 as [| ev t1 IH]; [reflexivity |].
  cbn [app split_chunks].
  destruct (split_event ev) as [[[[size overlap] text_] [chunks | e]] |]; rewrite IH;
    [rewrite app_assoc |..]; reflexivity.
Qed.

Lemma split_calls_app (t1 t2 : list event) :
  split_calls (t1 ++ t2) = (split_calls t1 ++ split_calls t2)%list.
Proof.
  induction t1 as [| ev t1 IH]; [reflexivity |].
  cbn [app split_calls].
  destruct (split_event ev) as [[[[size overlap] text_] r] |]; rewrite IH; reflexivity.
Qed.

Lemma scraped_app (t1 t2 : list event) :
  scraped (t1 ++ t2) = (scraped t1 ++ scraped t2)%list.
Proof.
  induction t1 as [| ev t1 IH]; [reflexivity |].
  cbn [app scraped]. destruct (scrape_event ev) as [[url r] |]; rewrite IH; reflexivity.
Qed.

Lemma scraped_contents_app (t1 t2 : list event) :
  scraped_contents (t1 ++ t2) = (scraped_contents t1 ++ scraped_contents t2)%list.
Proof.
  induction t1 as [| ev t1 IH]; [reflexivity |].
  cbn [app scraped_contents].
  destruct (scrape_event ev) as [[url [raw | e]] |]; rewrite IH; reflexivity.
Qed.

Lemma progress_unseen (n_chunks chunkCount : nat) :
  inserts (progress n_chunks chunkCount) = []
  /\ split_chunks (progress n_chunks chunkCount) = []
  /\ split_calls (progress n_chunks chunkCount) = []
  /\ scraped (progress n_chunks chunkCount) = []
  /\ scraped_contents (progress n_chunks chunkCount) = []
  /\ stages (progress n_chunks chunkCount) = []
  /\ Forall (fun ev => thrown ev = None /\ insert_event ev = None)
       (progress n_chunks chunkCount).
Proof.
  unfold progress. destruct (Nat.eqb (Nat.modulo chunkCount 10) 0);
    repeat split; repeat constructor.
Qed.

(** The inner loop stores the chunks in order, each under the first
    vector returned for it, calls neither the loader nor the splitter,
    and counts what it stored. *)
Lemma chunks_run_stores (n_chunks : nat) (chunks : list string)
  (chunkCount totalChunks : nat) (r : result (nat * nat)) (t : list event) :
  chunks_run n_chunks chunks chunkCount totalChunks r t ->
  (exists not_stored, (map snd (inserts t) ++ not_stored)%list = chunks
                      /\ match r with
                         | Ok (chunkCount', totalChunks') =>
                             not_stored = []
                             /\ chunkCount' = chunkCount + length (inserts t)
                             /\ totalChunks' = totalChunks + length (inserts t)
                         | Throw _ => True
                         end)
  /\ split_chunks t = [] /\ split_calls t = []
  /\ scraped t = [] /\ scraped_contents t = [].
Proof.
  induction 1 as [cc tot | chunk rest cc tot e | chunk rest cc tot e E
                 | chunk rest cc tot v others e
                 | chunk rest cc tot v others r t Hrun IH].
  - split; [exists []; repeat split; cbn; lia | repeat split].
  - split; [exists (chunk :: rest); split; [reflexivity | exact I] | repeat split].
  - split; [exists (chunk :: rest); split; [reflexivity | exact I] | repeat split].
  - split; [exists (chunk :: rest); split; [reflexivity | exact I] | repeat split].
  - destruct IH as [(not_stored & E & Hr) (C & K & U & R)].
    destruct (progress_unseen n_chunks (S cc)) as (P1 & P2 & P3 & P4 & P5 & _).
    cbn [inserts insert_event chunk_embedding split_chunks split_event split_calls
           scraped scrape_event scraped_contents].
    rewrite inserts_app, split_chunks_app, split_calls_app, scraped_app,
      scraped_contents_app, P1, P2, P3, P4, P5, C, K, U, R.
    split; [| repeat split].
    exists not_stored. cbn [app map snd length]. rewrite E. split; [reflexivity |].
    destruct r as [[cc' tot'] | e]; [| exact I].
    destruct Hr as (-> & -> & ->). repeat split; lia.
Qed.

(** The outer loop asks the loader for the pages in order, gives the
    splitter the cleaned text of each page it got, with sizes 512 and
    100, and stores the chunks the splitter returned, in order. *)
Lemma pages_run_stores (urls : list string) (totalChunks : nat) (r : result nat)
  (t : list event) :
  pages_run urls totalChunks r t ->
  (exists not_stored not_reached,
      (map snd (inserts t) ++ not_stored)%list = split_chunks t
      /\ (scraped t ++ not_reached)%list = urls
      /\ match r with
         | Ok totalChunks' =>
             not_stored = [] /\ not_reached = []
             /\ totalChunks' = totalChunks + length (inserts t)
         | Throw _ => True
         end)
  /\ split_calls t
     = map (fun raw => (512, 100, LoadDb.clean_up raw)) (scraped_contents t).
Proof.
  induction 1 as [tot | url rest tot e | url rest tot raw e
                 | url rest tot raw chunks e t Hchunks
                 | url rest tot raw chunks cc tot' t r t' Hchunks Hpages IH].
  - split; [exists [], []; repeat split; cbn; lia | reflexivity].
  - split; [exists [], rest; repeat split | reflexivity].
  - split; [exists [], rest; repeat split | reflexivity].
  - destruct (chunks_run_stores _ _ _ _ _ _ Hchunks)
      as [(not_stored & E & _) (C & K & U & R)].
    unfold page_split. cbn [app inserts insert_event scraping found_chunks split_chunks
                              split_event split_calls scraped scrape_event
                              scraped_contents].
    rewrite C, K, U, R, app_nil_r.
    split; [exists not_stored, rest; repeat split; assumption | reflexivity].
  - destruct (chunks_run_stores _ _ _ _ _ _ Hchunks)
      as [(not_stored & E & -> & _ & ->) (C & K & U & R)].
    rewrite app_nil_r in E.
    destruct IH as [(not_stored' & not_reached' & E' & U' & Hr) K'].
    unfold page_split. cbn [app inserts insert_event scraping found_chunks split_chunks
                              split_event split_calls scraped scrape_event
                              scraped_contents].
    rewrite inserts_app, split_chunks_app, split_calls_app, scraped_app,
      scraped_contents_app.
    cbn [app inserts insert_event completed_chunks split_chunks split_event split_calls
           scraped scrape_event scraped_contents].
    rewrite C, K, U, R. cbn [app map]. rewrite K'.
    split; [| reflexivity].
    exists not_stored', not_reached'. rewrite map_app, <- app_assoc, E, E', U'.
    repeat split.
    destruct r as [tot'' | e]; [| exact I].
    destruct Hr as (-> & -> & ->). repeat split. rewrite length_app. lia.
Qed.

Lemma creation_run_unseen (name : value) (metric : SimilarityMetric) (r : result unit)
  (t : list event) :
  creation_run name metric r t ->
  inserts t = [] /\ split_chunks t = [] /\ split_calls t = []
  /\ scraped t = [] /\ scraped_contents t = []
  /\ exists answer rest,
       t = Called (db_createCollection name 1536 metric) answer :: rest
       /\ Forall (fun ev => creation_event ev = None /\ thrown ev = None) rest.
Proof.
  destruct 1; repeat split; eexists; eexists; (split; [reflexivity |]);
    repeat constructor.
Qed.

Lemma chunks_run_no_error_line (n_chunks : nat) (chunks : list string)
  (chunkCount totalChunks : nat) (r : result (nat * nat)) (t : list event) :
  chunks_run n_chunks chunks chunkCount totalChunks r t -> existsb error_line t = false.
Proof.
  induction 1; try reflexivity.
  cbn [existsb error_line chunk_embedding orb]. rewrite existsb_app, IHchunks_run.
  unfold progress. destruct (Nat.eqb (Nat.modulo (S chunkCount) 10) 0); reflexivity.
Qed.

Lemma pages_run_no_error_line (urls : list string) (totalChunks : nat) (r : result nat)
  (t : list event) :
  pages_run urls totalChunks r t -> existsb error_line t = false.
Proof.
  induction 1 as [tot | url rest tot e | url rest tot raw e
                 | url rest tot raw chunks e t Hchunks
                 | url rest tot raw chunks cc tot' t r t' Hchunks Hpages IH];
    try reflexivity.
  - cbn. exact (chunks_run_no_error_line _ _ _ _ _ _ Hchunks).
  - cbn. rewrite existsb_app, (chunks_run_no_error_line _ _ _ _ _ _ Hchunks).
    cbn. exact IH.
Qed.

Lemma creation_run_no_error_line (name : value) (metric : SimilarityMetric)
  (r : result unit) (t : list event) :
  creation_run name metric r t -> existsb error_line t = false.
Proof. destruct 1; reflexivity. Qed.

(** X8.  The script always ends with an exit code and never with an
    uncaught error.  It starts by announcing itself and asking for the
    collection with dimension 1536 and the dot-product metric; it exits
    with 0 after the line "All done", or with 1 after the only line it
    writes on [console.error]. *)
Theorem run_exit_code :
  forall (World : Type) (oracle : forall X, call X -> World -> result X * World)
         (ASTRA_DB_COLLECTION : value) (w : World),
    exists code answer middle last_event,
      outcome oracle (LoadDb.run ASTRA_DB_COLLECTION) w = Ok code
      /\ trace oracle (LoadDb.run ASTRA_DB_COLLECTION) w
         = (starting
            :: Called (db_createCollection ASTRA_DB_COLLECTION 1536 dot_product) answer
            :: middle ++ [last_event])%list
      /\ existsb error_line middle = false
      /\ ((code = 0 /\ last_event = all_done)
          \/ (code = 1 /\ exists e, last_event = run_error e)).
Proof.
  intros World oracle name w.
  destruct (script_runs World oracle name w) as [e t C | e t C | e t t' C P | tot t t' C P];
    assert (N := creation_run_no_error_line _ _ _ _ C);
    destruct (creation_run_unseen _ _ _ _ C) as (_ & _ & _ & _ & _ & answer & rest & -> & _);
    cbn [existsb error_line orb] in N.
  - exists 1, answer, rest, (run_error e).
    repeat split; [assumption | right; split; [reflexivity | eexists; reflexivity]].
  - exists 1, answer, (rest ++ [Called (db_collection name) (Throw e)])%list, (run_error e).
    split; [reflexivity |]. split; [cbn [app]; rewrite <- app_assoc; reflexivity |].
    split; [rewrite existsb_app, N; reflexivity |].
    right; split; [reflexivity | eexists; reflexivity].
  - exists 1, answer, (rest ++ Called (db_collection name) (Ok tt) :: t')%list, (run_error e).
    split; [reflexivity |]. split; [cbn [app]; rewrite <- app_assoc; reflexivity |].
    split; [| right; split; [reflexivity | eexists; reflexivity]].
    rewrite existsb_app, N. cbn. exact (pages_run_no_error_line _ _ _ _ P).
  - exists 0, answer,
      (rest ++ Called (db_collection name) (Ok tt) :: t' ++ [loading_complete tot])%list,
      all_done.
    split; [reflexivity |].
    split; [cbn [app]; rewrite <- !app_assoc; cbn [app]; rewrite <- app_assoc;
            reflexivity |].
    split; [| left; split; reflexivity].
    rewrite existsb_app, N. cbn. rewrite existsb_app, (pages_run_no_error_line _ _ _ _ P).
    reflexivity.
Qed.

Lemma script_run_stores (name : value) (r : result nat) (t : list event) :
  script_run name r t ->
  (exists not_stored not_reached,
      (map snd (inserts t) ++ not_stored)%list = split_chunks t
      /\ (scraped t ++ not_reached)%list = LoadDb.f1Data
      /\ (r = Ok 0 ->
          not_stored = [] /\ not_reached = []
          /\ In (loading_complete (length (inserts t))) t))
  /\ split_calls t
     = map (fun raw => (512, 100, LoadDb.clean_up raw)) (scraped_contents t).
Proof.
  destruct 1 as [e t C | e t C | e t t' C P | tot t t' C P];
    destruct (creation_run_unseen _ _ _ _ C) as (I & S & K & U & R & _);
    cbn [inserts insert_event starting split_chunks split_event split_calls scraped
           scrape_event scraped_contents];
    rewrite ?inserts_app, ?split_chunks_app, ?split_calls_app, ?scraped_app,
      ?scraped_contents_app, I, S, K, U, R;
    cbn [app inserts insert_event run_error split_chunks split_event split_calls scraped
           scrape_event scraped_contents].
  - split; [exists [], LoadDb.f1Data; repeat split; discriminate | reflexivity].
  - split; [exists [], LoadDb.f1Data; repeat split; discriminate | reflexivity].
  - destruct (pages_run_stores _ _ _ _ P) as [(not_stored & not_reached & E & V & _) K'].
    rewrite ?inserts_app, ?split_chunks_app, ?split_calls_app, ?scraped_app,
      ?scraped_contents_app.
    cbn [app inserts insert_event run_error split_chunks split_event split_calls scraped
           scrape_event scraped_contents].
    rewrite !app_nil_r.
    split; [exists not_stored, not_reached; repeat split; try assumption; discriminate
           | exact K'].
  - destruct (pages_run_stores _ _ _ _ P)
      as [(not_stored & not_reached & E & V & -> & -> & ->) K'].
    rewrite ?inserts_app, ?split_chunks_app, ?split_calls_app, ?scraped_app,
      ?scraped_contents_app.
    cbn [app inserts insert_event loading_complete all_done split_chunks split_event
           split_calls scraped scrape_event scraped_contents].
    rewrite !app_nil_r.
    split; [| exact K'].
    exists [], [].
    split; [exact E |]. split; [exact V |]. intros _.
    split; [reflexivity |]. split; [reflexivity |].
    right. apply in_or_app; right. right. apply in_or_app; right. left. reflexivity.
Qed.

(** X9.  What the script stores is what the splitter returned: the texts
    of the records inserted are, in order, an initial part of the chunks
    returned by the calls of the splitter, nothing else being inserted;
    and when the script exits with 0 every chunk has been stored and the
    total it reports is the number of records inserted. *)
Theorem run_stores_the_chunks :
  forall (World : Type) (oracle : forall X, call X -> World -> result X * World)
         (ASTRA_DB_COLLECTION : value) (w : World),
    exists not_stored,
      (map snd (inserts (trace oracle (LoadDb.run ASTRA_DB_COLLECTION) w)) ++ not_stored)%list
      = split_chunks (trace oracle (LoadDb.run ASTRA_DB_COLLECTION) w)
      /\ (outcome oracle (LoadDb.run ASTRA_DB_COLLECTION) w = Ok 0 ->
          not_stored = []
          /\ In (loading_complete
                   (length (inserts (trace oracle (LoadDb.run ASTRA_DB_COLLECTION) w))))
               (trace oracle (LoadDb.run ASTRA_DB_COLLECTION) w)).
Proof.
  intros World oracle name w.
  destruct (script_run_stores _ _ _ (script_runs World oracle name w))
    as [(not_stored & not_reached & E & _ & Z) _].
  exists not_stored. split; [exact E |].
  intro H. destruct (Z H) as (N & _ & L). split; assumption.
Qed.

(** X10.  The pages the script asks the loader for are, in order, an
    initial part of the twenty addresses of [f1Data], all twenty when the
    script exits with 0; and the splitter is called once for each page the
    loader returned, on the cleaned text of that page, with chunk size 512
    and overlap 100. *)
Theorem run_scrapes_the_sources :
  forall (World : Type) (oracle : forall X, call X -> World -> result X * World)
         (ASTRA_DB_COLLECTION : value) (w : World),
    (exists not_reached,
        (scraped (trace oracle (LoadDb.run ASTRA_DB_COLLECTION) w) ++ not_reached)%list
        = LoadDb.f1Data
        /\ (outcome oracle (LoadDb.run ASTRA_DB_COLLECTION) w = Ok 0 ->
            not_reached = []))
    /\ split_calls (trace oracle (LoadDb.run ASTRA_DB_COLLECTION) w)
       = map (fun rawContent => (512, 100, LoadDb.clean_up rawContent))
           (scraped_contents (trace oracle (LoadDb.run ASTRA_DB_COLLECTION) w)).
Proof.
  intros World oracle name w.
  destruct (script_run_stores _ _ _ (script_runs World oracle name w))
    as [(not_stored & not_reached & _ & U & Z) K].
  split; [| exact K].
  exists not_reached. split; [exact U |].
  intro H. destruct (Z H) as (_ & N & _). exact N.
Qed.

Lemma paired_app (t1 t2 : list event) : paired t1 -> paired t2 -> paired (t1 ++ t2).
Proof.
  intros P1 P2 ev v text_ r Hin Hev.
  apply in_app_or in Hin. destruct Hin as [Hin | Hin].
  - destruct (P1 ev v text_ r Hin Hev) as (others & before & after & ->).
    exists others, before, (after ++ t2)%list.
    rewrite <- app_assoc. reflexivity.
  - destruct (P2 ev v text_ r Hin Hev) as (others & before & after & ->).
    exists others, (t1 ++ before)%list, after.
    rewrite <- app_assoc. reflexivity.
Qed.

Lemma paired_no_insert (t : list event) :
  Forall (fun ev => insert_event ev = None) t -> paired t.
Proof.
  intros H ev v text_ r Hin Hev.
  rewrite Forall_forall in H. rewrite (H ev Hin) in Hev. discriminate Hev.
Qed.

Lemma paired_insert (chunk : string) (v : vector) (others : list vector)
  (r : result unit) :
  paired [chunk_embedding chunk (Ok (v :: others)); Called (collection_insertOne v chunk) r].
Proof.
  intros ev v' text_ r' [<- | [<- | []]] Hev; [discriminate Hev |].
  injection Hev as <- <- <-.
  exists others, [], []. reflexivity.
Qed.

Lemma chunks_run_paired (n_chunks : nat) (chunks : list string)
  (chunkCount totalChunks : nat) (r : result (nat * nat)) (t : list event) :
  chunks_run n_chunks chunks chunkCount totalChunks r t -> paired t.
Proof.
  induction 1 as [cc tot | chunk rest cc tot e | chunk rest cc tot e E
                 | chunk rest cc tot v others e
                 | chunk rest cc tot v others r t Hrun IH].
  - apply paired_no_insert; constructor.
  - apply paired_no_insert; repeat constructor.
  - apply paired_no_insert; repeat constructor.
  - apply paired_insert.
  - apply (paired_app [_; _]); [apply paired_insert |].
    apply paired_app; [| exact IH].
    apply paired_no_insert.
    destruct (progress_unseen n_chunks (S cc)) as (_ & _ & _ & _ & _ & _ & F).
    eapply Forall_impl; [| exact F]. intros ev [_ H]; exact H.
Qed.

Lemma pages_run_paired (urls : list string) (totalChunks : nat) (r : result nat)
  (t : list event) :
  pages_run urls totalChunks r t -> paired t.
Proof.
  induction 1 as [tot | url rest tot e | url rest tot raw e
                 | url rest tot raw chunks e t Hchunks
                 | url rest tot raw chunks cc tot' t r t' Hchunks Hpages IH].
  - apply paired_no_insert; constructor.
  - apply paired_no_insert; repeat constructor.
  - apply paired_no_insert; repeat constructor.
  - apply (paired_app (page_split url raw (Ok chunks) ++ [found_chunks (length chunks)]) t).
    + apply paired_no_insert; repeat constructor.
    + exact (chunks_run_paired _ _ _ _ _ _ Hchunks).
  - apply (paired_app (page_split url raw (Ok chunks) ++ [found_chunks (length chunks)])
             (t ++ completed_chunks (length chunks) :: t')).
    + apply paired_no_insert; repeat constructor.
    + apply paired_app; [exact (chunks_run_paired _ _ _ _ _ _ Hchunks) |].
      apply (paired_app [_]); [apply paired_no_insert; repeat constructor | exact IH].
Qed.

Lemma creation_run_paired (name : value) (metric : SimilarityMetric) (r : result unit)
  (t : list event) :
  creation_run name metric r t -> paired t.
Proof. destruct 1; apply paired_no_insert; repeat constructor. Qed.

Lemma script_run_paired (name : value) (r : result nat) (t : list event) :
  script_run name r t -> paired t.
Proof.
  destruct 1 as [e t C | e t C | e t t' C P | tot t t' C P];
    (apply (paired_app [_]); [apply paired_no_insert; repeat constructor |]);
    (apply paired_app; [exact (creation_run_paired _ _ _ _ C) |]).
  - apply paired_no_insert; repeat constructor.
  - apply paired_no_insert; repeat constructor.
  - apply (paired_app [_]); [apply paired_no_insert; repeat constructor |].
    apply paired_app; [exact (pages_run_paired _ _ _ _ P) |].
    apply paired_no_insert; repeat constructor.
  - apply (paired_app [_]); [apply paired_no_insert; repeat constructor |].
    apply paired_app; [exact (pages_run_paired _ _ _ _ P) |].
    apply paired_no_insert; repeat constructor.
Qed.

(** X11.  Each record is stored under the embedding of its own text: an
    [insertOne] of the script, whatever its answer, directly follows the
    embedding call made, with the model [text-embedding-3-small] and the
    format [float], for the very text it stores, and its vector is the
    first one that call returned. *)
Theorem run_stores_each_chunk_with_its_embedding :
  forall (World : Type) (oracle : forall X, call X -> World -> result X * World)
         (ASTRA_DB_COLLECTION : value) (w : World)
         (ev : event) (v : vector) (text_ : string) (answer : result unit),
    In ev (trace oracle (LoadDb.run ASTRA_DB_COLLECTION) w) ->
    insert_event ev = Some (v, text_, answer) ->
    exists others before after,
      trace oracle (LoadDb.run ASTRA_DB_COLLECTION) w
      = (before
         ++ Called (embeddings_create "text-embedding-3-small" (VStr text_) (Some "float"))
              (Ok (v :: others))
         :: ev :: after)%list.
Proof.
  intros World oracle name w.
  exact (script_run_paired _ _ _ (script_runs World oracle name w)).
Qed.

Lemma run_stores_each_chunk_with_its_embedding_witness :
  let run_trace := trace Double.service (LoadDb.run (VStr "f1gpt")) Double.no_store in
  let insertion :=
    Called (collection_insertOne Double.zero_vector
              "https://en.wikipedia.org/wiki/Formula_One") (Ok tt) in
  In insertion run_trace
  /\ exists others before after,
       run_trace
       = (before
          ++ Called (embeddings_create "text-embedding-3-small"
                       (VStr "https://en.wikipedia.org/wiki/Formula_One") (Some "float"))
               (Ok (Double.zero_vector :: others))
          :: insertion :: after)%list.
Proof.
  intros run_trace insertion.
  assert (Hin : In insertion run_trace).
  { apply (nth_error_In run_trace 9). vm_compute. reflexivity. }
  split; [exact Hin |].
  exact (run_stores_each_chunk_with_its_embedding Double.world Double.service
           (VStr "f1gpt") Double.no_store insertion _ _ _ Hin eq_refl).
Defined.

Lemma ends_at_failure_after {A} (r : result A) (quiet t : list event) :
  Forall (fun ev => thrown ev = None) quiet ->
  ends_at_failure r t -> ends_at_failure r (quiet ++ t).
Proof.
  intros Q H ev e Hin Hev.
  apply in_app_or in Hin. destruct Hin as [Hin | Hin].
  - rewrite Forall_forall in Q. rewrite (Q ev Hin) in Hev. discriminate Hev.
  - destruct (H ev e Hin Hev) as (-> & before & ->).
    split; [reflexivity |]. exists (quiet ++ before)%list. apply app_assoc.
Qed.

Lemma ends_at_failure_quiet {A} (r : result A) (quiet : list event) :
  Forall (fun ev => thrown ev = None) quiet -> ends_at_failure r quiet.
Proof.
  intros Q ev e Hin Hev.
  rewrite Forall_forall in Q. rewrite (Q ev Hin) in Hev. discriminate Hev.
Qed.

Lemma ends_at_failure_last {A} (quiet : list event) {X} (c : call X) (e : value) :
  Forall (fun ev => thrown ev = None) quiet ->
  ends_at_failure (@Throw A e) (quiet ++ [Called c (Throw e)]).
Proof.
  intros Q. apply ends_at_failure_after; [exact Q |].
  intros ev e' [<- | []] Hev. injection Hev as <-.
  split; [reflexivity | exists []; reflexivity].
Qed.

Lemma progress_quiet (n_chunks chunkCount : nat) :
  Forall (fun ev => thrown ev = None) (progress n_chunks chunkCount).
Proof.
  destruct (progress_unseen n_chunks chunkCount) as (_ & _ & _ & _ & _ & _ & F).
  eapply Forall_impl; [| exact F]. intros ev [H _]; exact H.
Qed.

Lemma chunks_run_ends_at_failure (n_chunks : nat) (chunks : list string)
  (chunkCount totalChunks : nat) (r : result (nat * nat)) (t : list event) :
  chunks_run n_chunks chunks chunkCount totalChunks r t -> ends_at_failure r t.
Proof.
  induction 1 as [cc tot | chunk rest cc tot e | chunk rest cc tot e E
                 | chunk rest cc tot v others e
                 | chunk rest cc tot v others r t Hrun IH].
  - apply ends_at_failure_quiet; constructor.
  - apply (ends_at_failure_last []); constructor.
  - apply ends_at_failure_quiet; repeat constructor.
  - apply (ends_at_failure_last [_]); repeat constructor.
  - apply (ends_at_failure_after r [_; _]); [repeat constructor |].
    apply ends_at_failure_after; [apply progress_quiet | exact IH].
Qed.

Lemma pages_run_ends_at_failure (urls : list string) (totalChunks : nat) (r : result nat)
  (t : list event) :
  pages_run urls totalChunks r t -> ends_at_failure r t.
Proof.
  induction 1 as [tot | url rest tot e | url rest tot raw e
                 | url rest tot raw chunks e t Hchunks
                 | url rest tot raw chunks cc tot' t r t' Hchunks Hpages IH].
  - apply ends_at_failure_quiet; constructor.
  - apply (ends_at_failure_last [_]); repeat constructor.
  - apply (ends_at_failure_last [_; _]); repeat constructor.
  - apply (ends_at_failure_after _
             (page_split url raw (Ok chunks) ++ [found_chunks (length chunks)]) t);
      [repeat constructor |].
    intros ev e' Hin Hev.
    destruct (chunks_run_ends_at_failure _ _ _ _ _ _ Hchunks ev e' Hin Hev) as (E & B).
    injection E as <-. split; [reflexivity | exact B].
  - apply (ends_at_failure_after _
             (page_split url raw (Ok chunks) ++ [found_chunks (length chunks)])
             (t ++ completed_chunks (length chunks) :: t'));
      [repeat constructor |].
    apply ends_at_failure_after.
    + rewrite Forall_forall. intros ev Hin.
      destruct (thrown ev) as [e' |] eqn:Hev; [| reflexivity].
      destruct (chunks_run_ends_at_failure _ _ _ _ _ _ Hchunks ev e' Hin Hev) as (E & _).
      discriminate E.
    + apply (ends_at_failure_after _ [_]); [repeat constructor | exact IH].
Qed.

(** X12.  The script stops at the first failure.  When a call other than
    the creation of the collection throws, the script calls no service
    again: it writes the thrown value on [console.error] and exits with
    1, these being the last two events of the run. *)
Theorem run_stops_at_the_first_failure :
  forall (World : Type) (oracle : forall X, call X -> World -> result X * World)
         (ASTRA_DB_COLLECTION : value) (w : World) (ev : event) (e : value),
    In ev (trace oracle (LoadDb.run ASTRA_DB_COLLECTION) w) ->
    thrown ev = Some e ->
    creation_event ev = None ->
    outcome oracle (LoadDb.run ASTRA_DB_COLLECTION) w = Ok 1
    /\ exists before,
         trace oracle (LoadDb.run ASTRA_DB_COLLECTION) w
         = (before ++ [ev; run_error e])%list.
Proof.
  intros World oracle name w ev e.
  destruct (script_runs World oracle name w) as [e0 t C | e0 t C | e0 t t' C P | tot t t' C P];
    destruct (creation_run_unseen _ _ _ _ C)
      as (_ & _ & _ & _ & _ & answer & rest & -> & Q);
    intros Hin Hev Hcreation.
  - exfalso. destruct Hin as [<- | [<- | Hin]]; [discriminate Hev | discriminate Hcreation |].
    apply in_app_or in Hin. destruct Hin as [Hin | [<- | []]]; [| discriminate Hev].
    rewrite Forall_forall in Q. destruct (Q ev Hin) as [_ N]. rewrite N in Hev.
    discriminate Hev.
  - split; [reflexivity |].
    destruct Hin as [<- | [<- | Hin]]; [discriminate Hev | discriminate Hcreation |].
    apply in_app_or in Hin. destruct Hin as [Hin | [<- | [<- | []]]].
    + exfalso. rewrite Forall_forall in Q. destruct (Q ev Hin) as [_ N].
      rewrite N in Hev. discriminate Hev.
    + injection Hev as <-.
      exists (starting :: Called (db_createCollection name 1536 dot_product) answer :: rest)%list.
      reflexivity.
    + discriminate Hev.
  - split; [reflexivity |].
    destruct Hin as [<- | [<- | Hin]]; [discriminate Hev | discriminate Hcreation |].
    apply in_app_or in Hin. destruct Hin as [Hin | [<- | Hin]].
    + exfalso. rewrite Forall_forall in Q. destruct (Q ev Hin) as [_ N].
      rewrite N in Hev. discriminate Hev.
    + discriminate Hev.
    + apply in_app_or in Hin. destruct Hin as [Hin | [<- | []]]; [| discriminate Hev].
      destruct (pages_run_ends_at_failure _ _ _ _ P ev e Hin Hev) as (E & before & ->).
      injection E as <-.
      exists (starting :: Called (db_createCollection name 1536 dot_product) answer
              :: rest ++ Called (db_collection name) (Ok tt) :: before)%list.
      cbn [app]. rewrite <- ?app_assoc. cbn [app]. rewrite <- ?app_assoc. reflexivity.
  - exfalso.
    destruct Hin as [<- | [<- | Hin]]; [discriminate Hev | discriminate Hcreation |].
    apply in_app_or in Hin. destruct Hin as [Hin | [<- | Hin]].
    + rewrite Forall_forall in Q. destruct (Q ev Hin) as [_ N].
      rewrite N in Hev. discriminate Hev.
    + discriminate Hev.
    + apply in_app_or in Hin. destruct Hin as [Hin | [<- | [<- | []]]];
        [| discriminate Hev | discriminate Hev].
      destruct (pages_run_ends_at_failure _ _ _ _ P ev e Hin Hev) as (E & _).
      discriminate E.
Qed.

Lemma run_stops_at_the_first_failure_witness :
  let run_trace := trace Offline.service (LoadDb.run (VStr "f1gpt")) Double.no_store in
  let failure :=
    Called (loader_scrape "https://en.wikipedia.org/wiki/Formula_One")
      (Throw Offline.network_error) in
  In failure run_trace
  /\ outcome Offline.service (LoadDb.run (VStr "f1gpt")) Double.no_store = Ok 1
  /\ exists before, run_trace = (before ++ [failure; run_error Offline.network_error])%list.
Proof.
  intros run_trace failure.
  assert (Hin : In failure run_trace).
  { apply (nth_error_In run_trace 5). vm_compute. reflexivity. }
  split; [exact Hin |].
  exact (run_stops_at_the_first_failure Double.world Offline.service (VStr "f1gpt")
           Double.no_store failure Offline.network_error Hin eq_refl eq_refl).
Defined.

Lemma chunks_run_healthy (name : value) (n_chunks : nat) (chunks : list string)
  (chunkCount totalChunks : nat) (r : result (nat * nat)) (t : list event) :
  chunks_run n_chunks chunks chunkCount totalChunks r t ->
  Forall (answered (healthy name)) t -> exists counts, r = Ok counts.
Proof.
  induction 1 as [cc tot | chunk rest cc tot e | chunk rest cc tot e E
                 | chunk rest cc tot v others e
                 | chunk rest cc tot v others r t Hrun IH]; intro H.
  - eexists; reflexivity.
  - inversion H as [| ev l Hev _]; subst.
    destruct (Hev eq_refl) as (v & others & N). discriminate N.
  - inversion H as [| ev l Hev _]; subst.
    destruct (Hev eq_refl) as (v & others & N). discriminate N.
  - inversion H as [| ev l _ H']; subst. inversion H' as [| ev' l' Hev _]; subst.
    discriminate Hev.
  - inversion H as [| ev l _ H']; subst. inversion H' as [| ev' l' _ H'']; subst.
    apply Forall_app in H''. apply IH. exact (proj2 H'').
Qed.

Lemma pages_run_healthy (name : value) (urls : list string) (totalChunks : nat)
  (r : result nat) (t : list event) :
  pages_run urls totalChunks r t ->
  Forall (answered (healthy name)) t -> exists totalChunks', r = Ok totalChunks'.
Proof.
  induction 1 as [tot | url rest tot e | url rest tot raw e
                 | url rest tot raw chunks e t Hchunks
                 | url rest tot raw chunks cc tot' t r t' Hchunks Hpages IH]; intro H.
  - eexists; reflexivity.
  - inversion H as [| ev l _ H']; subst. inversion H' as [| ev' l' Hev _]; subst.
    destruct Hev as (raw & N). discriminate N.
  - unfold page_split in H.
    inversion H as [| ev l _ H']; subst. inversion H' as [| ev' l' _ H'']; subst.
    inversion H'' as [| ev'' l'' Hev _]; subst.
    destruct Hev as (chunks & N). discriminate N.
  - apply (Forall_app _ (page_split url raw (Ok chunks) ++ [found_chunks (length chunks)]) t)
      in H.
    destruct (chunks_run_healthy name _ _ _ _ _ _ Hchunks (proj2 H)) as (counts & N).
    discriminate N.
  - apply IH.
    apply (Forall_app _ (page_split url raw (Ok chunks) ++ [found_chunks (length chunks)])
             (t ++ completed_chunks (length chunks) :: t')) in H.
    destruct H as [_ H]. apply Forall_app in H. destruct H as [_ H].
    inversion H; assumption.
Qed.

Lemma creation_run_healthy (name : value) (metric : SimilarityMetric) (r : result unit)
  (t : list event) :
  creation_run name metric r t ->
  Forall (answered (healthy name)) t -> r = Ok tt.
Proof.
  destruct 1 as [res | error swallow T S | error swallow T S | error e T]; intro H;
    try reflexivity;
    inversion H as [| ev l Hev _]; subst;
    destruct (Hev eq_refl) as (n & m & -> & I);
    rewrite already_exists_test, I in T.
  - injection T as <-. discriminate S.
  - discriminate T.
Qed.

(** X13.  With services in good health the script exits with 0: when the
    model returns a vector for every text, the store creates the
    collection or reports, in an error's message, that it already exists,
    and the collection, the loader, the splitter and the insertions
    return, nothing is thrown on the way. *)
Theorem run_succeeds_on_healthy_services :
  forall (World : Type) (oracle : forall X, call X -> World -> result X * World)
         (ASTRA_DB_COLLECTION : value) (w : World),
    (forall X (c : call X) (w' : World),
        healthy ASTRA_DB_COLLECTION X c (fst (oracle X c w'))) ->
    outcome oracle (LoadDb.run ASTRA_DB_COLLECTION) w = Ok 0.
Proof.
  intros World oracle name w Hhealthy.
  assert (F := trace_answered (healthy name) oracle Hhealthy (LoadDb.run name) w).
  destruct (script_runs World oracle name w) as [e t C | e t C | e t t' C P | tot t t' C P];
    try reflexivity; exfalso;
    inversion F as [| ev l _ F']; subst; clear F;
    apply Forall_app in F'; destruct F' as [Fc F'].
  - assert (N := creation_run_healthy _ _ _ _ C Fc). discriminate N.
  - inversion F' as [| ev l Hev _]; subst. discriminate Hev.
  - inversion F' as [| ev l _ F'']; subst.
    apply Forall_app in F''. destruct F'' as [Fp _].
    destruct (pages_run_healthy name _ _ _ _ P Fp) as (tot & N). discriminate N.
Qed.

Lemma double_healthy :
  forall X (c : call X) (w : Double.world),
    healthy (VStr "f1gpt") X c (fst (Double.service X c w)).
Proof.
  intros X c w. destruct c; simpl; try exact I; try reflexivity;
    try (eexists; reflexivity).
  - intros ->. simpl. eexists; eexists; reflexivity.
  - intros ->. destruct (Double.has_collection "f1gpt" w); simpl; [| exact I].
    eexists; eexists; split; reflexivity.
Defined.

Lemma run_succeeds_on_healthy_services_witness :
  (forall X (c : call X) (w' : Double.world),
      healthy (VStr "f1gpt") X c (fst (Double.service X c w')))
  /\ outcome Double.service (LoadDb.run (VStr "f1gpt")) Double.empty_store = Ok 0.
Proof.
  split; [exact double_healthy |].
  exact (run_succeeds_on_healthy_services Double.world Double.service (VStr "f1gpt")
           Double.empty_store double_healthy).
Defined.

Lemma load_failure_incl (e : value) (t t' : list event) :
  incl t t' -> load_failure e t -> load_failure e t'.
Proof.
  intros I [(ev & Hin & Hev) | (chunk & Hin & E)].
  - left. exists ev. split; [exact (I _ Hin) | exact Hev].
  - right. exists chunk. split; [exact (I _ Hin) | exact E].
Qed.

Lemma chunks_run_failure (n_chunks : nat) (chunks : list string)
  (chunkCount totalChunks : nat) (r : result (nat * nat)) (t : list event) :
  chunks_run n_chunks chunks chunkCount totalChunks r t ->
  forall e, r = Throw e -> load_failure e t.
Proof.
  induction 1 as [cc tot | chunk rest cc tot e | chunk rest cc tot e E
                 | chunk rest cc tot v others e
                 | chunk rest cc tot v others r t Hrun IH]; intros e' R.
  - discriminate R.
  - injection R as <-. left. eexists; split; [left; reflexivity | reflexivity].
  - injection R as <-. right. exists chunk. split; [left; reflexivity | exact E].
  - injection R as <-. left. eexists; split; [right; left; reflexivity | reflexivity].
  - apply (load_failure_incl e' t); [| exact (IH e' R)].
    intros ev Hin. right; right. apply in_or_app; right. exact Hin.
Qed.

Lemma pages_run_failure (urls : list string) (totalChunks : nat) (r : result nat)
  (t : list event) :
  pages_run urls totalChunks r t ->
  forall e, r = Throw e -> load_failure e t.
Proof.
  induction 1 as [tot | url rest tot e | url rest tot raw e
                 | url rest tot raw chunks e t Hchunks
                 | url rest tot raw chunks cc tot' t r t' Hchunks Hpages IH]; intros e' R.
  - discriminate R.
  - injection R as <-. left. eexists; split; [right; left; reflexivity | reflexivity].
  - injection R as <-. left. eexists; split; [right; right; left; reflexivity | reflexivity].
  - injection R as <-.
    apply (load_failure_incl e t); [| exact (chunks_run_failure _ _ _ _ _ _ Hchunks e eq_refl)].
    intros ev Hin. apply in_or_app; right. right. exact Hin.
  - apply (load_failure_incl e' t'); [| exact (IH e' R)].
    intros ev Hin. apply in_or_app; right. right. apply in_or_app; right. right. exact Hin.
Qed.

(** X14.  Every exit with 1 has a cause, and the value the script writes
    on [console.error] is that cause: what a service call threw, what
    the test of the creation error's message threw, or the TypeError of
    an embedding answer without data. *)
Theorem run_error_has_a_cause :
  forall (World : Type) (oracle : forall X, call X -> World -> result X * World)
         (ASTRA_DB_COLLECTION : value) (w : World) (e : value),
    In (run_error e) (trace oracle (LoadDb.run ASTRA_DB_COLLECTION) w) ->
    (exists ev,
        In ev (trace oracle (LoadDb.run ASTRA_DB_COLLECTION) w) /\ thrown ev = Some e)
    \/ (exists ev error,
           In ev (trace oracle (LoadDb.run ASTRA_DB_COLLECTION) w)
           /\ thrown ev = Some error
           /\ LoadDb.message_includes_already_exists error = Throw e)
    \/ (exists chunk,
           In (chunk_embedding chunk (Ok []))
             (trace oracle (LoadDb.run ASTRA_DB_COLLECTION) w)
           /\ Route.first_embedding [] = Throw e).
Proof.
  intros World oracle name w e Hin.
  assert (N := script_runs World oracle name w).
  destruct N as [e0 t C | e0 t C | e0 t t' C P | tot t t' C P].
  - assert (e0 = e) as ->.
    { assert (Q := creation_run_no_error_line _ _ _ _ C).
      destruct Hin as [E | Hin]; [discriminate E |].
      apply in_app_or in Hin. destruct Hin as [Hin | [E | []]].
      - exfalso. rewrite <- Bool.not_true_iff_false in Q. apply Q.
        apply existsb_exists. exists (run_error e). split; [exact Hin | reflexivity].
      - injection E as ->. reflexivity. }
    inversion C as [| | error swallow T S | error e' T]; subst.
    + left. eexists; split; [right; left; reflexivity | reflexivity].
    + right; left. exists (Called (db_createCollection name 1536 dot_product) (Throw error)),
        error.
      split; [right; left; reflexivity |]. split; [reflexivity | exact T].
  - assert (e0 = e) as ->.
    { assert (Q := creation_run_no_error_line _ _ _ _ C).
      destruct Hin as [E | Hin]; [discriminate E |].
      apply in_app_or in Hin. destruct Hin as [Hin | [E | [E | []]]].
      - exfalso. rewrite <- Bool.not_true_iff_false in Q. apply Q.
        apply existsb_exists. exists (run_error e). split; [exact Hin | reflexivity].
      - discriminate E.
      - injection E as ->. reflexivity. }
    left. eexists.
    split; [right; apply in_or_app; right; left; reflexivity | reflexivity].
  - assert (e0 = e) as ->.
    { assert (Q := creation_run_no_error_line _ _ _ _ C).
      assert (Q' := pages_run_no_error_line _ _ _ _ P).
      destruct Hin as [E | Hin]; [discriminate E |].
      apply in_app_or in Hin. destruct Hin as [Hin | [E | Hin]].
      - exfalso. rewrite <- Bool.not_true_iff_false in Q. apply Q.
        apply existsb_exists. exists (run_error e). split; [exact Hin | reflexivity].
      - discriminate E.
      - apply in_app_or in Hin. destruct Hin as [Hin | [E | []]].
        + exfalso. rewrite <- Bool.not_true_iff_false in Q'. apply Q'.
          apply existsb_exists. exists (run_error e). split; [exact Hin | reflexivity].
        + injection E as ->. reflexivity. }
    assert (F := pages_run_failure _ _ _ _ P e eq_refl).
    apply (load_failure_incl e t'
             (starting :: t ++ Called (db_collection name) (Ok tt) :: t' ++ [run_error e]))
      in F.
    2:{ intros ev Hev. right. apply in_or_app; right. right. apply in_or_app; left.
        exact Hev. }
    destruct F as [(ev & Hev & T) | (chunk & Hc & T)].
    + left. exists ev. split; assumption.
    + right; right. exists chunk. split; assumption.
  - exfalso.
    assert (Q := creation_run_no_error_line _ _ _ _ C).
    assert (Q' := pages_run_no_error_line _ _ _ _ P).
    destruct Hin as [E | Hin]; [discriminate E |].
    apply in_app_or in Hin. destruct Hin as [Hin | [E | Hin]].
    + rewrite <- Bool.not_true_iff_false in Q. apply Q.
      apply existsb_exists. exists (run_error e). split; [exact Hin | reflexivity].
    + discriminate E.
    + apply in_app_or in Hin. destruct Hin as [Hin | [E | [E | []]]];
        [| discriminate E | discriminate E].
      rewrite <- Bool.not_true_iff_false in Q'. apply Q'.
      apply existsb_exists. exists (run_error e). split; [exact Hin | reflexivity].
Qed.

Lemma run_error_has_a_cause_witness :
  let run_trace := trace Offline.service (LoadDb.run (VStr "f1gpt")) Double.no_store in
  In (run_error Offline.network_error) run_trace
  /\ ((exists ev, In ev run_trace /\ thrown ev = Some Offline.network_error)
      \/ (exists ev error,
             In ev run_trace /\ thrown ev = Some error
             /\ LoadDb.message_includes_already_exists error
                = Throw Offline.network_error)
      \/ (exists chunk,
             In (chunk_embedding chunk (Ok [])) run_trace
             /\ Route.first_embedding [] = Throw Offline.network_error)).
Proof.
  intro run_trace.
  assert (Hin : In (run_error Offline.network_error) run_trace).
  { apply (nth_error_In run_trace 6). vm_compute. reflexivity. }
  split; [exact Hin |].
  exact (run_error_has_a_cause Double.world Offline.service (VStr "f1gpt")
           Double.no_store Offline.network_error Hin).
Defined.

(** ** More on the clean-up of scraped text *)

Lemma length_strip_tags (s : string) :
  forall in_tag, String.length (LoadDb.strip_tags_from in_tag s) <= String.length s.
Proof.
  induction s as [| c s IH]; intro in_tag; simpl; [lia |].
  destruct in_tag.
  - destruct (Ascii.eqb c ">"); [specialize (IH false) | specialize (IH true)]; lia.
  - destruct (Ascii.eqb c "<"); [specialize (IH true); lia |].
    simpl. specialize (IH false). lia.
Qed.

Lemma length_collapse (s : string) :
  forall in_run, String.length (LoadDb.collapse_from in_run s) <= String.length s.
Proof.
  induction s as [| c s IH]; intro in_run; simpl; [lia |].
  destruct (LoadDb.is_space c).
  - destruct in_run; [specialize (IH true); lia |].
    simpl. specialize (IH true). lia.
  - simpl. specialize (IH false). lia.
Qed.

Lemma length_remove_edit (s : string) :
  forall skip, String.length (LoadDb.remove_edit_from skip s) <= String.length s.
Proof.
  induction s as [| c s IH]; intro skip; [destruct skip; simpl; lia |].
  cbn [LoadDb.remove_edit_from]. destruct skip as [| k].
  - destruct (String.prefix "[edit]" (String c s)).
    + specialize (IH 5). simpl. lia.
    + specialize (IH 0). simpl. lia.
  - specialize (IH k). simpl. lia.
Qed.

Lemma length_trim_start (s : string) :
  String.length (LoadDb.trim_start s) <= String.length s.
Proof.
  induction s as [| c s IH]; simpl; [lia |].
  destruct (LoadDb.is_space c); simpl; lia.
Qed.

Lemma length_trim_end (s : string) :
  String.length (LoadDb.trim_end s) <= String.length s.
Proof.
  induction s as [| c s IH]; simpl; [lia |].
  destruct (LoadDb.trim_end s) as [| d r].
  - destruct (LoadDb.is_space c); simpl; lia.
  - simpl in *. lia.
Qed.

(** X15.  The clean-up only deletes and replaces: the cleaned text is
    never longer than the text scraped. *)
Theorem clean_up_never_longer :
  forall raw : string,
    String.length (LoadDb.clean_up (Some raw)) <= String.length raw.
Proof.
  intro raw. unfold LoadDb.clean_up.
  assert (L : String.length
                (LoadDb.trim
                   (LoadDb.remove_edit (LoadDb.collapse_whitespace (LoadDb.strip_tags raw))))
              <= String.length raw).
  { unfold LoadDb.trim, LoadDb.remove_edit, LoadDb.collapse_whitespace, LoadDb.strip_tags.
    eapply Nat.le_trans; [apply length_trim_end |].
    eapply Nat.le_trans; [apply length_trim_start |].
    eapply Nat.le_trans; [apply length_remove_edit |].
    eapply Nat.le_trans; [apply length_collapse |].
    apply length_strip_tags. }
  cbv zeta.
  destruct (String.eqb _ ""); [simpl; lia | exact L].
Qed.

Lemma collapse_plain_space (s : string) :
  forall in_run,
    all_chars (fun c => LoadDb.is_space c = true -> c = " "%char)
      (LoadDb.collapse_from in_run s).
Proof.
  unfold all_chars.
  induction s as [| c s IH]; intro in_run; simpl; [constructor |].
  destruct (LoadDb.is_space c) eqn:E.
  - destruct in_run; [apply IH |].
    simpl. constructor; [reflexivity | apply IH].
  - simpl. constructor; [| apply IH].
    intro H. rewrite H in E. discriminate E.
Qed.

(** X16.  The only white space left in a cleaned text is the space
    character: tabs, line breaks and no-break spaces never come out of
    [scrapePage]. *)
Theorem clean_up_white_space_is_the_space :
  forall rawContent : option string,
    all_chars (fun c => LoadDb.is_space c = true -> c = " "%char)
      (LoadDb.clean_up rawContent).
Proof.
  intros [raw |]; [| constructor].
  unfold LoadDb.clean_up. cbv zeta.
  destruct (String.eqb _ ""); [constructor |].
  unfold LoadDb.trim, LoadDb.remove_edit, LoadDb.collapse_whitespace.
  apply trim_end_all_chars, trim_start_all_chars, remove_edit_all_chars.
  apply collapse_plain_space.
Qed.

Lemma strip_tags_in_tag_no_close (b : string) :
  all_chars (fun c => c <> ">"%char) b -> LoadDb.strip_tags_from true b = "".
Proof.
  unfold all_chars. induction b as [| c b IH]; intro H; simpl; [reflexivity |].
  simpl in H. inversion H as [| ? ? Hc Hb]; subst.
  destruct (Ascii.eqb c ">") eqn:E; [| exact (IH Hb)].
  apply Ascii.eqb_eq in E. contradiction.
Qed.

Lemma strip_tags_unclosed (a b : string) :
  all_chars (fun c => c <> ">"%char) b ->
  forall in_tag,
    LoadDb.strip_tags_from in_tag (a ++ String "<" b) = LoadDb.strip_tags_from in_tag a.
Proof.
  intro H. induction a as [| c a IH]; intro in_tag.
  - cbn [append LoadDb.strip_tags_from].
    destruct in_tag; cbn; exact (strip_tags_in_tag_no_close b H).
  - cbn [append LoadDb.strip_tags_from].
    destruct in_tag.
    + destruct (Ascii.eqb c ">"); apply IH.
    + destruct (Ascii.eqb c "<"); [apply IH | rewrite IH; reflexivity].
Qed.

(** X17.  A [<] that no [>] follows costs the rest of the page: the tag
    pattern, whose closing [>] is optional, then matches up to the end of
    the text, so that everything from that [<] on is deleted. *)
Theorem clean_up_cuts_at_an_unclosed_tag :
  forall before after : string,
    all_chars (fun c => c <> ">"%char) after ->
    LoadDb.clean_up (Some (before ++ String "<" after))
    = LoadDb.clean_up (Some before).
Proof.
  intros before after H. unfold LoadDb.clean_up, LoadDb.strip_tags.
  rewrite (strip_tags_unclosed before after H false). reflexivity.
Qed.

Lemma clean_up_cuts_at_an_unclosed_tag_witness :
  all_chars (fun c => c <> ">"%char) " 350 km/h on the straights"
  /\ LoadDb.clean_up (Some ("Top speeds are " ++ String "<" " 350 km/h on the straights"))
     = LoadDb.clean_up (Some "Top speeds are ")
  /\ LoadDb.clean_up (Some "Top speeds are ") = "Top speeds are".
Proof.
  assert (H : all_chars (fun c => c <> ">"%char) " 350 km/h on the straights")
    by (repeat constructor; discriminate).
  split; [exact H |].
  split; [| reflexivity].
  exact (clean_up_cuts_at_an_unclosed_tag "Top speeds are " " 350 km/h on the straights" H).
Defined.

Lemma strip_tags_clean (s : string) : no_tag s -> LoadDb.strip_tags_from false s = s.
Proof.
  unfold no_tag, all_chars. induction s as [| c s IH]; intro H; simpl; [reflexivity |].
  simpl in H. inversion H as [| ? ? Hc Hs]; subst.
  destruct (Ascii.eqb c "<") eqn:E; [apply Ascii.eqb_eq in E; contradiction |].
  rewrite (IH Hs). reflexivity.
Qed.

Lemma collapse_clean (s : string) :
  all_chars (fun c => LoadDb.is_space c = true -> c = " "%char) s ->
  whitespace_run s = false ->
  forall in_run,
    (in_run = true -> starts_with_space s = false) ->
    LoadDb.collapse_from in_run s = s.
Proof.
  unfold all_chars. induction s as [| c s IH]; intros H R in_run S; simpl; [reflexivity |].
  simpl in H. inversion H as [| ? ? Hc Hs]; subst.
  simpl in R. apply Bool.orb_false_iff in R. destruct R as [R1 R2].
  destruct (LoadDb.is_space c) eqn:E.
  - destruct in_run; [specialize (S eq_refl); simpl in S; congruence |].
    rewrite (Hc eq_refl). f_equal. apply IH; [exact Hs | exact R2 |].
    intros _. simpl in R1. exact R1.
  - f_equal. apply IH; [exact Hs | exact R2 | discriminate].
Qed.

Lemma remove_edit_clean (s : string) :
  str_includes s "[edit]" = false -> LoadDb.remove_edit_from 0 s = s.
Proof.
  unfold str_includes. induction s as [| c s IH]; intro H; [reflexivity |].
  cbn [LoadDb.remove_edit_from]. cbn [String.index] in H.
  destruct (String.prefix "[edit]" (String c s)); [discriminate H |].
  f_equal. apply IH. destruct (String.index 0 "[edit]" s); [discriminate H | reflexivity].
Qed.

Lemma trim_start_clean (s : string) :
  starts_with_space s = false -> LoadDb.trim_start s = s.
Proof. destruct s as [| c s]; simpl; [reflexivity |]. intros ->. reflexivity. Qed.

Lemma trim_end_clean (s : string) :
  ends_with_space s = false -> LoadDb.trim_end s = s.
Proof.
  induction s as [| c s IH]; intro H; [reflexivity |].
  cbn [LoadDb.trim_end]. destruct s as [| d r].
  - simpl in *. rewrite H. reflexivity.
  - rewrite (IH H). reflexivity.
Qed.

(** X18.  A text that is already clean comes out unchanged: with no [<],
    no white space but single space characters inside the text, and no
    [[edit]] marker, the clean-up deletes and replaces nothing. *)
Theorem clean_up_keeps_a_clean_text :
  forall s : string,
    no_tag s ->
    all_chars (fun c => LoadDb.is_space c = true -> c = " "%char) s ->
    whitespace_run s = false ->
    starts_with_space s = false ->
    ends_with_space s = false ->
    str_includes s "[edit]" = false ->
    LoadDb.clean_up (Some s) = s.
Proof.
  intros s T P R S E M. unfold LoadDb.clean_up. cbv zeta. rewrite empty_or_itself.
  unfold LoadDb.trim, LoadDb.remove_edit, LoadDb.collapse_whitespace, LoadDb.strip_tags.
  rewrite (strip_tags_clean s T), (collapse_clean s P R false), (remove_edit_clean s M),
    (trim_start_clean s S), (trim_end_clean s E); [reflexivity | discriminate].
Qed.

Lemma clean_up_keeps_a_clean_text_witness :
  no_tag "Max Verstappen won the 2023 title."
  /\ LoadDb.clean_up (Some "Max Verstappen won the 2023 title.")
     = "Max Verstappen won the 2023 title.".
Proof.
  assert (T : no_tag "Max Verstappen won the 2023 title.")
    by (repeat constructor; discriminate).
  split; [exact T |].
  apply (clean_up_keeps_a_clean_text "Max Verstappen won the 2023 title." T);
    [| reflexivity | reflexivity | reflexivity | reflexivity].
  repeat constructor; (intro H; try reflexivity; discriminate H).
Defined.

(** ** The chat page *)

Lemma bubble_text_message (m : ConversationMessage) :
  Bubble.text (message_value m)
  = Ok (match content m with
        | Some c => c
        | None => resolved_text m
        end).
Proof.
  destruct m as [r c ps]. unfold Bubble.text, resolved_text, message_value; simpl.
  destruct c as [c |]; destruct ps as [ps |]; simpl; try reflexivity.
  rewrite filter_text_parts; simpl. rewrite map_text_parts; simpl.
  rewrite join_text_values; reflexivity.
Qed.

(** X19.  The bubble and the handler read a message in opposite orders.
    For a message with only a content string, or only parts, the text the
    bubble shows is the query the handler extracts; for a message with
    both, the bubble shows the content while the handler takes the text
    of the parts. *)
Theorem Bubble_shows_content_first :
  (forall m : ConversationMessage,
      content m = None \/ parts m = None ->
      exists shown,
        Bubble.text (message_value m) = Ok shown
        /\ Route.user_query (message_value m) = Ok (VStr shown))
  /\ (forall (r c : string) (ps : list Part),
         let both := {| role := r; content := Some c; parts := Some ps |} in
         Bubble.text (message_value both) = Ok c
         /\ Route.user_query (message_value both)
            = Ok (VStr (String.concat "" (map part_text (filter is_text ps))))).
Proof.
  split.
  - intros m H. exists (resolved_text m).
    rewrite bubble_text_message, user_query_message. split; [| reflexivity].
    destruct m as [r c ps]; simpl in *. destruct H as [-> | ->]; [reflexivity |].
    destruct c; reflexivity.
  - intros r c ps both. subst both.
    rewrite bubble_text_message, user_query_message. split; reflexivity.
Qed.

Lemma trim_blank (s : string) :
  all_chars (fun c => LoadDb.is_space c = true) s -> LoadDb.trim s = "".
Proof.
  unfold all_chars, LoadDb.trim. induction s as [| c s IH]; intro H; [reflexivity |].
  simpl in H. inversion H as [| ? ? Hc Hs]; subst.
  simpl. rewrite Hc. exact (IH Hs).
Qed.

Lemma trim_end_not_blank (c : ascii) (s : string) :
  LoadDb.is_space c = false -> LoadDb.trim_end (String c s) <> "".
Proof.
  intro H. cbn [LoadDb.trim_end].
  destruct (LoadDb.trim_end s); [rewrite H |]; discriminate.
Qed.

Lemma trim_not_blank (s : string) :
  LoadDb.trim s = "" -> all_chars (fun c => LoadDb.is_space c = true) s.
Proof.
  unfold all_chars, LoadDb.trim. induction s as [| c s IH]; intro H; [constructor |].
  simpl in H. destruct (LoadDb.is_space c) eqn:E.
  - simpl. constructor; [exact E | exact (IH H)].
  - exfalso. exact (trim_end_not_blank c s E H).
Qed.

(** X20.  The form sends nothing for a blank input, which stays in the
    field; any other input is handed to [sendMessage] as typed, white
    space at its ends included, and the field is emptied. *)
Theorem onSubmit_sends_unless_blank :
  forall input : string,
    (all_chars (fun c => LoadDb.is_space c = true) input ->
     Page.onSubmit input = (None, input))
    /\ (~ all_chars (fun c => LoadDb.is_space c = true) input ->
        Page.onSubmit input = (Some input, "")).
Proof.
  intro input. unfold Page.onSubmit. split; intro H.
  - rewrite (trim_blank input H). reflexivity.
  - destruct (String.eqb (LoadDb.trim input) "") eqn:E; [| reflexivity].
    apply String.eqb_eq in E. elim H. exact (trim_not_blank input E).
Qed.

(** ** The maintenance scripts *)

(** X21.  [clearDatabase] always ends with an exit code: 0 when the store
    dropped the collection, the success line being printed only then; 1
    when the store threw, what it threw being written on
    [console.error]. *)
Theorem clearDatabase_exit_code :
  forall (World : Type) (oracle : forall X, call X -> World -> result X * World)
         (ASTRA_DB_COLLECTION : value) (store : Maintenance.Store) (w : World),
    (Maintenance.dropCollection store ASTRA_DB_COLLECTION = Ok tt
     /\ outcome oracle (Maintenance.clearDatabase ASTRA_DB_COLLECTION store) w = Ok 0
     /\ trace oracle (Maintenance.clearDatabase ASTRA_DB_COLLECTION store) w
        = [Logged console_log [VStr "Deleting collection..."];
           Logged console_log [VStr "✓ Collection deleted successfully!"]])
    \/ (exists e,
           Maintenance.dropCollection store ASTRA_DB_COLLECTION = Throw e
           /\ outcome oracle (Maintenance.clearDatabase ASTRA_DB_COLLECTION store) w = Ok 1
           /\ trace oracle (Maintenance.clearDatabase ASTRA_DB_COLLECTION store) w
              = [Logged console_log [VStr "Deleting collection..."]; run_error e]).
Proof.
  intros World oracle name store w.
  unfold outcome, trace, Maintenance.clearDatabase.
  destruct (Maintenance.dropCollection store name) as [[] | e].
  - left. repeat split.
  - right. exists e. repeat split.
Qed.

(** X22.  [countDocs] takes the store's refusal to count past the bound
    for an answer.  With the collection open, an error of the count whose
    message includes "Too many" is swallowed: the script prints the 1000+
    line and exits with 0; any other error is written on [console.error]
    and the script exits with 1. *)
Theorem countDocs_swallows_too_many :
  forall (World : Type) (oracle : forall X, call X -> World -> result X * World)
         (ASTRA_DB_COLLECTION : value) (store : Maintenance.Store) (w : World)
         (name message : string),
    Maintenance.collection store ASTRA_DB_COLLECTION = Ok tt ->
    Maintenance.countDocuments store 1000 = Throw (Error_ name message) ->
    if str_includes message "Too many"
    then outcome oracle (Maintenance.countDocs ASTRA_DB_COLLECTION store) w = Ok 0
         /\ trace oracle (Maintenance.countDocs ASTRA_DB_COLLECTION store) w
            = [Logged console_log
                 [VStr "✓ Documents in collection: 1000+ (still loading...)"]]
    else outcome oracle (Maintenance.countDocs ASTRA_DB_COLLECTION store) w = Ok 1
         /\ trace oracle (Maintenance.countDocs ASTRA_DB_COLLECTION store) w
            = [run_error (Error_ name message)].
Proof.
  intros World oracle collection_name store w name message C N.
  unfold outcome, trace, Maintenance.countDocs. rewrite C, N.
  cbn. destruct (str_includes message "Too many"); split; reflexivity.
Qed.

Lemma countDocs_swallows_too_many_witness :
  outcome Double.service (Maintenance.countDocs (VStr "f1gpt") crowded_store)
    Double.empty_store = Ok 0
  /\ trace Double.service (Maintenance.countDocs (VStr "f1gpt") crowded_store)
       Double.empty_store
     = [Logged console_log [VStr "✓ Documents in collection: 1000+ (still loading...)"]].
Proof.
  exact (countDocs_swallows_too_many Double.world Double.service (VStr "f1gpt")
           crowded_store Double.empty_store
           "TooManyDocumentsToCountError"
           "Too many documents to count (provided limit is 1000)" eq_refl eq_refl).
Defined.

Lemma showable_preview (doc : value) :
  showable doc <-> exists preview, Maintenance.text_preview doc = Ok preview.
Proof.
  unfold showable, Maintenance.text_preview.
  destruct (get doc "text") as [[| | b | n | s | l | p] | e]; cbn [bind]; split;
    first [ intros _; eexists; reflexivity
          | intros _; exact I
          | intros [preview H]; discriminate H
          | intros [] ].
Qed.

Lemma showable_length (doc : value) :
  showable doc -> exists n, Maintenance.text_length doc = Ok n.
Proof.
  unfold showable, Maintenance.text_length.
  destruct (get doc "text") as [t | e]; simpl; [eexists; reflexivity | intros []].
Qed.

Lemma show_samples_wp (samples : list value) :
  forall index,
    wp any_answer (Maintenance.show_samples index samples)
      (fun r _ => r = Ok tt <-> Forall showable samples).
Proof.
  induction samples as [| doc rest IH]; intro index.
  - simpl. split; [constructor | reflexivity].
  - cbn [Maintenance.show_samples].
    wp_next. wp_next.
    destruct (Maintenance.text_length doc) as [n | e] eqn:L.
    2:{ cbv beta iota. split; [discriminate |].
        intro F. inversion F as [| ? ? Hd _]; subst.
        destruct (showable_length doc Hd) as (n & N). congruence. }
    wp_next. wp_next.
    destruct (Maintenance.text_preview doc) as [p | e] eqn:P.
    2:{ cbv beta iota. split; [discriminate |].
        intro F. inversion F as [| ? ? Hd _]; subst.
        apply showable_preview in Hd. destruct Hd as (p & N). congruence. }
    wp_next. wp_next. eapply wp_mono; [| apply (IH (S index))].
    cbv beta. intros r t [H1 H2]. split.
    + intro H. constructor; [apply showable_preview; eexists; exact P | exact (H1 H)].
    + intro F. inversion F; subst. auto.
Qed.

(** X23.  [checkDb.ts] exits with 0 exactly when every sample can be
    shown.  With the collection open and up to three samples found, the
    exit code is 0 if each sample has a string for its text, or no text;
    a sample whose text is something else, or that is [null], makes the
    script exit with 1. *)
Theorem check_exit_code :
  forall (World : Type) (oracle : forall X, call X -> World -> result X * World)
         (ASTRA_DB_COLLECTION : value) (store : Maintenance.Store) (w : World)
         (name : string) (samples : list value),
    Maintenance.collection store ASTRA_DB_COLLECTION = Ok tt ->
    to_string ASTRA_DB_COLLECTION = Ok name ->
    Maintenance.find store 3 = Ok samples ->
    (outcome oracle (Maintenance.check ASTRA_DB_COLLECTION store) w = Ok 0
     <-> Forall showable samples)
    /\ (outcome oracle (Maintenance.check ASTRA_DB_COLLECTION store) w = Ok 1
        <-> ~ Forall showable samples).
Proof.
  intros World oracle collection_name store w name samples C N F.
  apply (wp_sound any_answer oracle
           (Maintenance.check collection_name store)
           (fun r _ => (r = Ok 0 <-> Forall showable samples)
                       /\ (r = Ok 1 <-> ~ Forall showable samples)));
    [intros; exact I |].
  unfold Maintenance.check, Maintenance.checkData. rewrite C, N, F.
  apply wp_try_catch. apply wp_bind.
  do 6 wp_next. cbv beta iota.
  eapply wp_mono; [| apply (show_samples_wp samples 0)].
  cbv beta. intros [[] | e] t [H1 H2]; cbn.
  - assert (S := H1 eq_refl). split; split; auto; try discriminate. intro; contradiction.
  - split; split; auto; try discriminate.
    + intro S. specialize (H2 S). discriminate H2.
    + intros _ S. specialize (H2 S). discriminate H2.
Qed.

Lemma check_exit_code_witness :
  Maintenance.find crowded_store 3
  = Ok [Double.document "Max Verstappen won the 2023 title."; VObj [("text", VNum "2023")]]
  /\ (outcome Double.service (Maintenance.check (VStr "f1gpt") crowded_store)
        Double.empty_store = Ok 0
      <-> Forall showable [Double.document "Max Verstappen won the 2023 title.";
                           VObj [("text", VNum "2023")]])
  /\ (outcome Double.service (Maintenance.check (VStr "f1gpt") crowded_store)
        Double.empty_store = Ok 1
      <-> ~ Forall showable [Double.document "Max Verstappen won the 2023 title.";
                             VObj [("text", VNum "2023")]]).
Proof.
  split; [reflexivity |].
  exact (check_exit_code Double.world Double.service (VStr "f1gpt") crowded_store
           Double.empty_store "f1gpt" _ eq_refl eq_refl eq_refl).
Defined.

(** ** The chunker *)

Lemma append_empty (s : string) : s ++ "" = s.
Proof. induction s as [| c s IH]; simpl; [| rewrite IH]; reflexivity. Qed.

Lemma append_assoc (a b c : string) : (a ++ b) ++ c = a ++ (b ++ c).
Proof. induction a as [| x a IH]; simpl; [| rewrite IH]; reflexivity. Qed.

Lemma length_append (a b : string) :
  String.length (a ++ b) = String.length a + String.length b.
Proof. induction a as [| x a IH]; simpl; [| rewrite IH]; reflexivity. Qed.

Lemma concat_cons (x : string) (l : list string) :
  String.concat "" (x :: l) = x ++ String.concat "" l.
Proof. destruct l; simpl; [rewrite ?append_empty |]; reflexivity. Qed.

Lemma concat_app (l1 l2 : list string) :
  String.concat "" (l1 ++ l2)%list = String.concat "" l1 ++ String.concat "" l2.
Proof.
  induction l1 as [| x l1 IH]; [reflexivity |].
  cbn [app]. rewrite !concat_cons, IH, append_assoc. reflexivity.
Qed.

Lemma length_trim (s : string) : String.length (LoadDb.trim s) <= String.length s.
Proof.
  unfold LoadDb.trim.
  eapply Nat.le_trans; [apply length_trim_end | apply length_trim_start].
Qed.

(** A chunk is not longer than the pieces it joins. *)
Lemma pushed_joinDocs_within (docs : list string) (n : nat) :
  String.length (String.concat "" docs) <= n ->
  Forall (within n) (Chunker.pushed (Chunker.joinDocs docs "")).
Proof.
  intro H. unfold Chunker.joinDocs. cbv zeta.
  destruct (String.eqb (LoadDb.trim (String.concat "" docs)) ""); [constructor |].
  constructor; [| constructor]. unfold within.
  eapply Nat.le_trans; [apply length_trim | exact H].
Qed.

(** What [shift_while] leaves fits with the piece to come, or is
    nothing. *)
Lemma shift_while_fits (chunkSize chunkOverlap len : nat) (currentDoc : list string) :
  forall total,
    total = String.length (String.concat "" currentDoc) ->
    let kept := Chunker.shift_while chunkSize chunkOverlap len 0 currentDoc total in
    snd kept = String.length (String.concat "" (fst kept))
    /\ (snd kept + len <= chunkSize \/ snd kept = 0).
Proof.
  induction currentDoc as [| first rest IH]; intros total E; cbn [Chunker.shift_while].
  - subst total. simpl. rewrite Bool.andb_false_r. simpl. auto.
  - rewrite Nat.mul_0_r, Nat.add_0_r.
    destruct (Nat.ltb chunkOverlap total
              || (Nat.ltb chunkSize (total + len) && Nat.ltb 0 total)) eqn:C.
    + apply IH. subst total. rewrite concat_cons, length_append. lia.
    + cbn [fst snd]. split; [exact E |].
      apply Bool.orb_false_iff in C. destruct C as [_ C].
      apply Bool.andb_false_iff in C. destruct C as [C | C].
      * apply Nat.ltb_ge in C. left; exact C.
      * apply Nat.ltb_ge in C. right; lia.
Qed.

Lemma merge_from_within (chunkSize chunkOverlap : nat) (splits : list string) :
  Forall (within chunkSize) splits ->
  forall currentDoc total,
    total = String.length (String.concat "" currentDoc) ->
    total <= chunkSize ->
    Forall (within chunkSize)
      (Chunker.merge_from chunkSize chunkOverlap "" splits currentDoc total).
Proof.
  induction 1 as [| d rest Hd Hrest IH]; intros currentDoc total E B;
    cbn [Chunker.merge_from].
  - apply pushed_joinDocs_within. lia.
  - cbv zeta. cbn [String.length]. rewrite Nat.mul_0_r, Nat.add_0_r.
    destruct (Nat.ltb chunkSize (total + String.length d)) eqn:C.
    + destruct currentDoc as [| first others].
      * apply IH; [subst total; simpl; rewrite ?append_empty; reflexivity |].
        subst total. simpl. exact Hd.
      * apply Forall_app. split; [apply pushed_joinDocs_within; lia |].
        destruct (shift_while_fits chunkSize chunkOverlap (String.length d)
                    (first :: others) total E) as [K F].
        apply IH.
        -- rewrite concat_app, length_append, K. simpl. rewrite ?append_empty. reflexivity.
        -- unfold within in Hd. destruct F as [F | F]; lia.
    + apply Nat.ltb_ge in C. apply IH; [| exact C].
      rewrite concat_app, length_append, E. simpl. rewrite ?append_empty. reflexivity.
Qed.

Lemma mergeSplits_within (chunkSize chunkOverlap : nat) (splits : list string) :
  Forall (within chunkSize) splits ->
  Forall (within chunkSize) (Chunker.mergeSplits chunkSize chunkOverlap splits "").
Proof.
  intro H. unfold Chunker.mergeSplits.
  apply merge_from_within; [exact H | reflexivity | lia].
Qed.

Lemma collect_within (chunkSize chunkOverlap : nat) (finer : option (string -> list string))
  (splits : list string) :
  (forall s, In s splits -> chunkSize <= String.length s ->
             Forall (within chunkSize)
               match finer with
               | Some split_again => split_again s
               | None => [s]
               end) ->
  forall goodSplits,
    Forall (within chunkSize) goodSplits ->
    Forall (within chunkSize) (Chunker.collect chunkSize chunkOverlap finer splits goodSplits).
Proof.
  induction splits as [| s rest IH]; intros Hfiner goodSplits G; cbn [Chunker.collect].
  - destruct goodSplits; [constructor | apply mergeSplits_within; exact G].
  - destruct (Nat.ltb (String.length s) chunkSize) eqn:C.
    + apply IH; [intros; apply Hfiner; [right |]; assumption |].
      apply Forall_app. split; [exact G |].
      constructor; [| constructor]. apply Nat.ltb_lt in C. unfold within. lia.
    + apply Nat.ltb_ge in C.
      apply Forall_app. split;
        [destruct goodSplits; [constructor | apply mergeSplits_within; exact G] |].
      apply Forall_app. split; [apply Hfiner; [left; reflexivity | exact C] |].
      apply IH; [intros; apply Hfiner; [right |]; assumption | constructor].
Qed.

Lemma characters_single (s : string) :
  Forall (fun d => String.length d = 1) (Chunker.characters s).
Proof. induction s as [| c s IH]; simpl; constructor; [reflexivity | exact IH]. Qed.

Lemma chunks_of_characters_within (chunkSize chunkOverlap : nat) (text : string) :
  0 < chunkSize ->
  Forall (within chunkSize) (Chunker.chunks_of chunkSize chunkOverlap "" None text).
Proof.
  intro P. unfold Chunker.chunks_of, Chunker.splitOnSeparator. cbn [String.eqb].
  apply collect_within; [| constructor].
  intros s Hin _. apply filter_In in Hin. destruct Hin as [Hin _].
  assert (F := characters_single text). rewrite Forall_forall in F.
  constructor; [| constructor]. unfold within. rewrite (F s Hin). lia.
Qed.

(** With the empty separator among the separators, no chunk is longer
    than [chunkSize]. *)
Lemma splitText_within (chunkSize chunkOverlap : nat) (separators : list string) :
  0 < chunkSize -> In "" separators ->
  forall text,
    Forall (within chunkSize) (Chunker._splitText chunkSize chunkOverlap separators text).
Proof.
  intro P. induction separators as [| s rest IH]; intros Hin text; [contradiction |].
  cbn [Chunker._splitText].
  destruct (String.eqb s "") eqn:E; [apply chunks_of_characters_within; exact P |].
  assert (Hrest : In "" rest).
  { destruct Hin as [-> | H]; [discriminate E | exact H]. }
  destruct (str_includes text s).
  - unfold Chunker.chunks_of. apply collect_within; [| constructor].
    intros piece _ _. apply IH. exact Hrest.
  - destruct rest as [| s' rest']; [contradiction |]. apply IH. exact Hrest.
Qed.

(** Splitting drops no character. *)
Lemma split_before_concat (sep : string) (s : string) :
  forall piece, String.concat "" (Chunker.split_before sep piece s) = piece ++ s.
Proof.
  induction s as [| c s IH]; intro piece; cbn [Chunker.split_before].
  - simpl. rewrite append_empty. reflexivity.
  - destruct (String.prefix sep (String c s) && negb (String.eqb piece "")).
    + rewrite concat_cons, IH. reflexivity.
    + rewrite IH, append_assoc. reflexivity.
Qed.

Lemma characters_concat (s : string) : String.concat "" (Chunker.characters s) = s.
Proof.
  induction s as [| c s IH]; [reflexivity |].
  cbn [Chunker.characters]. rewrite concat_cons, IH. reflexivity.
Qed.

Lemma concat_without_empty (l : list string) :
  String.concat "" (filter (fun s => negb (String.eqb s "")) l) = String.concat "" l.
Proof.
  induction l as [| x l IH]; [reflexivity |].
  cbn [filter]. destruct (String.eqb x "") eqn:E; cbn [negb].
  - apply String.eqb_eq in E. subst x. rewrite concat_cons, IH. reflexivity.
  - rewrite !concat_cons, IH. reflexivity.
Qed.

Lemma splitOnSeparator_concat (text separator : string) :
  String.concat "" (Chunker.splitOnSeparator text separator) = text.
Proof.
  unfold Chunker.splitOnSeparator. rewrite concat_without_empty.
  destruct (String.eqb separator ""); [apply characters_concat |].
  rewrite split_before_concat. reflexivity.
Qed.

(** The pieces that are all shorter than [chunkSize] are merged
    together. *)
Lemma collect_good (chunkSize chunkOverlap : nat) (finer : option (string -> list string))
  (splits : list string) :
  Forall (fun s => String.length s < chunkSize) splits ->
  forall goodSplits,
    Chunker.collect chunkSize chunkOverlap finer splits goodSplits
    = Chunker.mergeSplits chunkSize chunkOverlap (goodSplits ++ splits) "".
Proof.
  induction 1 as [| s rest Hs Hrest IH]; intro goodSplits; cbn [Chunker.collect].
  - rewrite app_nil_r. destruct goodSplits; reflexivity.
  - apply Nat.ltb_lt in Hs. rewrite Hs, IH, <- app_assoc. reflexivity.
Qed.

(** Pieces that fit together in [chunkSize] make one chunk. *)
Lemma merge_from_fits (chunkSize chunkOverlap : nat) (splits : list string) :
  forall currentDoc total,
    total = String.length (String.concat "" currentDoc) ->
    total + String.length (String.concat "" splits) <= chunkSize ->
    Chunker.merge_from chunkSize chunkOverlap "" splits currentDoc total
    = Chunker.pushed (Chunker.joinDocs (currentDoc ++ splits) "").
Proof.
  induction splits as [| d rest IH]; intros currentDoc total E B;
    cbn [Chunker.merge_from].
  - rewrite app_nil_r. reflexivity.
  - cbv zeta. cbn [String.length]. rewrite Nat.mul_0_r, Nat.add_0_r.
    rewrite concat_cons, length_append in B.
    assert (C : Nat.ltb chunkSize (total + String.length d) = false)
      by (apply Nat.ltb_ge; lia).
    rewrite C, IH.
    + rewrite <- app_assoc. reflexivity.
    + rewrite concat_app, length_append, E. simpl. rewrite ?append_empty. reflexivity.
    + lia.
Qed.

Lemma piece_length (l : list string) (s : string) :
  In s l -> String.length s <= String.length (String.concat "" l).
Proof.
  induction l as [| x l IH]; intros []; rewrite concat_cons, length_append.
  - subst. lia.
  - specialize (IH H). lia.
Qed.

(** A text shorter than [chunkSize] is one chunk, the text trimmed, or no
    chunk when nothing is left of it. *)
Lemma chunks_of_short (chunkSize chunkOverlap : nat) (separator : string)
  (finer : option (string -> list string)) (text : string) :
  String.length text < chunkSize ->
  Chunker.chunks_of chunkSize chunkOverlap separator finer text
  = Chunker.pushed (Chunker.joinDocs [text] "").
Proof.
  intro H. unfold Chunker.chunks_of.
  assert (E := splitOnSeparator_concat text separator).
  rewrite collect_good.
  - cbn [app]. unfold Chunker.mergeSplits.
    rewrite merge_from_fits; [| reflexivity | rewrite E; simpl; lia].
    cbn [app]. unfold Chunker.joinDocs. rewrite E. reflexivity.
  - rewrite Forall_forall. intros s Hin.
    assert (L := piece_length _ s Hin). rewrite E in L. lia.
Qed.

Lemma splitText_short (chunkSize chunkOverlap : nat) (separators : list string) :
  forall text,
    String.length text < chunkSize ->
    Chunker._splitText chunkSize chunkOverlap separators text
    = Chunker.pushed (Chunker.joinDocs [text] "").
Proof.
  induction separators as [| s rest IH]; intros text H; cbn [Chunker._splitText].
  - apply chunks_of_short; exact H.
  - destruct (String.eqb s ""); [apply chunks_of_short; exact H |].
    destruct (str_includes text s); [apply chunks_of_short; exact H |].
    destruct rest; [apply chunks_of_short; exact H | apply IH; exact H].
Qed.

(** *** Texts without white space *)

Lemma length_drop (n : nat) (s : string) :
  String.length (Chunker.drop n s) = String.length s - n.
Proof.
  revert s; induction n as [| n IH]; intros [| c s]; simpl; auto.
Qed.

Lemma drop_append (a b : string) : Chunker.drop (String.length a) (a ++ b) = b.
Proof. induction a as [| x a IH]; simpl; [destruct b |]; auto. Qed.

Lemma drop_within (n : nat) (a b : string) :
  n <= String.length a -> Chunker.drop n (a ++ b) = Chunker.drop n a ++ b.
Proof.
  revert a; induction n as [| n IH]; intros a H; [destruct a; reflexivity |].
  destruct a as [| x a]; simpl in *; [lia |]. apply IH. lia.
Qed.

Lemma drop_empty (n : nat) : Chunker.drop n "" = "".
Proof. destruct n; reflexivity. Qed.

Lemma characters_app (a b : string) :
  Chunker.characters (a ++ b) = (Chunker.characters a ++ Chunker.characters b)%list.
Proof. induction a as [| x a IH]; simpl; [| rewrite IH]; reflexivity. Qed.

Lemma length_characters (s : string) : length (Chunker.characters s) = String.length s.
Proof. induction s as [| c s IH]; simpl; [| rewrite IH]; reflexivity. Qed.

Lemma characters_not_empty (s : string) :
  filter (fun d => negb (String.eqb d "")) (Chunker.characters s) = Chunker.characters s.
Proof. induction s as [| c s IH]; simpl; [| rewrite IH]; reflexivity. Qed.

Lemma no_space_app (a b : string) : no_space a -> no_space b -> no_space (a ++ b).
Proof.
  unfold no_space, all_chars. induction a as [| x a IH]; intros Ha Hb; [exact Hb |].
  simpl in *. inversion Ha; subst. constructor; [assumption | apply IH; assumption].
Qed.

Lemma no_space_drop (n : nat) (s : string) : no_space s -> no_space (Chunker.drop n s).
Proof.
  unfold no_space, all_chars. revert s; induction n as [| n IH]; intros [| c s] H;
    simpl; try exact H.
  simpl in H. inversion H; subst. apply IH. assumption.
Qed.

Lemma no_space_ends (s : string) :
  no_space s -> starts_with_space s = false /\ ends_with_space s = false.
Proof.
  unfold no_space, all_chars. induction s as [| c s IH]; intro H; [split; reflexivity |].
  simpl in H. inversion H as [| ? ? Hc Hs]; subst.
  split; [exact Hc |]. destruct (IH Hs) as [_ E].
  destruct s as [| d s]; [exact Hc | exact E].
Qed.

Lemma trim_no_space (s : string) : no_space s -> LoadDb.trim s = s.
Proof.
  intro H. destruct (no_space_ends s H) as [S E]. unfold LoadDb.trim.
  rewrite (trim_start_clean s S). exact (trim_end_clean s E).
Qed.

(** A chunk of characters that are not white space is pushed as it is. *)
Lemma pushed_characters (u : string) :
  no_space u ->
  Chunker.pushed (Chunker.joinDocs (Chunker.characters u) "")
  = match u with
    | EmptyString => []
    | String _ _ => [u]
    end.
Proof.
  intro H. unfold Chunker.joinDocs. cbv zeta.
  rewrite characters_concat, (trim_no_space u H).
  destruct u; reflexivity.
Qed.

(** The overlap taken from a chunk of characters is its trailing
    [chunkOverlap] characters. *)
Lemma shift_while_characters (chunkSize chunkOverlap : nat) (u : string) :
  chunkOverlap < chunkSize ->
  forall total,
    total = String.length u -> chunkOverlap <= total ->
    Chunker.shift_while chunkSize chunkOverlap 1 0 (Chunker.characters u) total
    = (Chunker.characters (Chunker.drop (total - chunkOverlap) u), chunkOverlap).
Proof.
  intro V. induction u as [| a u IH]; intros total E L;
    cbn [Chunker.characters Chunker.shift_while].
  - simpl in E. subst total. assert (chunkOverlap = 0) as -> by lia.
    simpl. rewrite Bool.andb_false_r. reflexivity.
  - rewrite Nat.mul_0_r, Nat.add_0_r. simpl in E.
    destruct (Nat.ltb chunkOverlap total) eqn:C; cbn [orb].
    + apply Nat.ltb_lt in C. cbn [String.length].
      rewrite (IH (total - 1)); [| lia | lia].
      replace (total - chunkOverlap) with (S (total - 1 - chunkOverlap)) by lia.
      reflexivity.
    + apply Nat.ltb_ge in C. assert (total = chunkOverlap) as -> by lia.
      assert (D : Nat.ltb chunkSize (chunkOverlap + 1) = false) by (apply Nat.ltb_ge; lia).
      rewrite D. cbn [andb]. rewrite Nat.sub_diag. reflexivity.
Qed.

(** The chunks after the first, their leading [chunkOverlap] characters
    stripped, are the text that the chunk before them did not hold. *)
Lemma merge_characters_rest (chunkSize chunkOverlap : nat) (v : string) :
  chunkOverlap < chunkSize ->
  no_space v ->
  forall u total,
    no_space u -> total = String.length u -> chunkOverlap <= total -> total <= chunkSize ->
    String.concat ""
      (map (Chunker.drop chunkOverlap)
         (Chunker.merge_from chunkSize chunkOverlap "" (Chunker.characters v)
            (Chunker.characters u) total))
    = Chunker.drop chunkOverlap u ++ v.
Proof.
  intros V Hv. unfold no_space, all_chars in Hv.
  induction v as [| c v IH]; intros u total Hu E L B.
  - cbn [Chunker.characters Chunker.merge_from]. rewrite (pushed_characters u Hu).
    destruct u; [rewrite drop_empty; reflexivity |].
    simpl. rewrite !append_empty. reflexivity.
  - simpl in Hv. apply Forall_cons_iff in Hv. destruct Hv as [Hc Hv'].
    assert (Hc' : no_space (String c "")) by (repeat constructor; exact Hc).
    cbn [Chunker.characters Chunker.merge_from]. cbv zeta. cbn [String.length].
    rewrite Nat.mul_0_r, Nat.add_0_r.
    destruct (Nat.ltb chunkSize (total + 1)) eqn:C.
    + apply Nat.ltb_lt in C. assert (T : total = chunkSize) by lia.
      assert (K := shift_while_characters chunkSize chunkOverlap u V total E L).
      assert (P := pushed_characters u Hu).
      assert (D : chunkOverlap = String.length (Chunker.drop (total - chunkOverlap) u))
        by (rewrite length_drop; lia).
      assert (N : String.length (Chunker.drop (total - chunkOverlap) u ++ String c "")
                  = chunkOverlap + 1)
        by (rewrite length_append, <- D; reflexivity).
      destruct u as [| a u0]; [simpl in E; lia |].
      cbn [Chunker.characters] in K, P |- *. rewrite K, P. cbn [fst snd].
      set (u := String a u0) in *.
      cbn [app map]. rewrite concat_cons.
      change [String c ""] with (Chunker.characters (String c "")).
      rewrite <- characters_app.
      rewrite (IH Hv' (Chunker.drop (total - chunkOverlap) u ++ String c "")
                 (chunkOverlap + 1)).
      * rewrite D at 2. rewrite drop_append. reflexivity.
      * apply no_space_app; [apply no_space_drop; exact Hu | exact Hc'].
      * symmetry; exact N.
      * lia.
      * lia.
    + apply Nat.ltb_ge in C.
      change [String c ""] with (Chunker.characters (String c "")).
      rewrite <- characters_app.
      rewrite (IH Hv' (u ++ String c "") (total + 1)).
      * rewrite drop_within by lia. rewrite append_assoc. reflexivity.
      * apply no_space_app; assumption.
      * rewrite length_append. simpl. lia.
      * lia.
      * lia.
Qed.

(** The chunks of a text without white space, merged from its characters,
    give the text back. *)
Lemma merge_characters_reconstruct (chunkSize chunkOverlap : nat) (v : string) :
  chunkOverlap < chunkSize ->
  no_space v ->
  forall u total,
    no_space u -> total = String.length u -> total <= chunkSize ->
    Chunker.reconstruct chunkOverlap
      (Chunker.merge_from chunkSize chunkOverlap "" (Chunker.characters v)
         (Chunker.characters u) total)
    = u ++ v.
Proof.
  intros V Hv. assert (Hv0 := Hv). unfold no_space, all_chars in Hv.
  induction v as [| c v IH]; intros u total Hu E B.
  - cbn [Chunker.characters Chunker.merge_from]. rewrite (pushed_characters u Hu).
    destruct u; [reflexivity |]. simpl. rewrite !append_empty. reflexivity.
  - simpl in Hv. apply Forall_cons_iff in Hv. destruct Hv as [Hc Hv'].
    assert (Hc' : no_space (String c "")) by (repeat constructor; exact Hc).
    cbn [Chunker.characters Chunker.merge_from]. cbv zeta. cbn [String.length].
    rewrite Nat.mul_0_r, Nat.add_0_r.
    destruct (Nat.ltb chunkSize (total + 1)) eqn:C.
    + apply Nat.ltb_lt in C. assert (T : total = chunkSize) by lia.
      assert (L : chunkOverlap <= total) by lia.
      assert (K := shift_while_characters chunkSize chunkOverlap u V total E L).
      assert (P := pushed_characters u Hu).
      assert (D : chunkOverlap = String.length (Chunker.drop (total - chunkOverlap) u))
        by (rewrite length_drop; lia).
      assert (N : String.length (Chunker.drop (total - chunkOverlap) u ++ String c "")
                  = chunkOverlap + 1)
        by (rewrite length_append, <- D; reflexivity).
      destruct u as [| a u0]; [simpl in E; lia |].
      cbn [Chunker.characters] in K, P |- *. rewrite K, P. cbn [fst snd].
      set (u := String a u0) in *.
      cbn [app Chunker.reconstruct].
      change [String c ""] with (Chunker.characters (String c "")).
      rewrite <- characters_app.
      rewrite (merge_characters_rest chunkSize chunkOverlap v V Hv'
                 (Chunker.drop (total - chunkOverlap) u ++ String c "")
                 (chunkOverlap + 1)).
      * rewrite D at 1. rewrite drop_append. reflexivity.
      * apply no_space_app; [apply no_space_drop; exact Hu | exact Hc'].
      * symmetry; exact N.
      * lia.
      * lia.
    + apply Nat.ltb_ge in C.
      change [String c ""] with (Chunker.characters (String c "")).
      rewrite <- characters_app.
      rewrite (IH Hv' Hv' (u ++ String c "") (total + 1)).
      * rewrite append_assoc. reflexivity.
      * apply no_space_app; assumption.
      * rewrite length_append. simpl. lia.
      * lia.
Qed.

Lemma index_absent (c : ascii) (sep text : string) :
  all_chars (fun d => d <> c) text -> String.index 0 (String c sep) text = None.
Proof.
  unfold all_chars. induction text as [| d text IH]; intro H; [reflexivity |].
  simpl in H. apply Forall_cons_iff in H. destruct H as [Hd H].
  cbn [String.index String.prefix].
  destruct (ascii_dec c d) as [E | _]; [symmetry in E; contradiction |].
  rewrite (IH H). reflexivity.
Qed.

(** A separator that starts with white space does not occur in a text
    without white space. *)
Lemma separator_absent (c : ascii) (sep text : string) :
  LoadDb.is_space c = true -> no_space text -> str_includes text (String c sep) = false.
Proof.
  intros Hc H. unfold str_includes. rewrite index_absent; [reflexivity |].
  unfold no_space, all_chars in *. eapply Forall_impl; [| exact H].
  intros d Hd ->. congruence.
Qed.

(** A text without white space is split on character boundaries. *)
Lemma split_no_space (chunkSize overlap : nat) (text : string) :
  no_space text ->
  Chunker.split text chunkSize overlap
  = Chunker.collect chunkSize overlap None (Chunker.characters text) [].
Proof.
  intro H. unfold Chunker.split, Chunker.separators.
  change (Route.newline ++ Route.newline) with (String "010"%char (String "010"%char "")).
  change Route.newline with (String "010"%char "").
  cbn [Chunker._splitText String.eqb].
  rewrite !(separator_absent _ _ text) by (reflexivity || exact H).
  unfold Chunker.chunks_of, Chunker.splitOnSeparator. cbn [String.eqb].
  rewrite characters_not_empty. reflexivity.
Qed.

Lemma collect_single (overlap : nat) (text : string) :
  Chunker.collect 1 overlap None (Chunker.characters text) [] = Chunker.characters text.
Proof.
  induction text as [| c text IH]; [reflexivity |].
  cbn [Chunker.characters Chunker.collect String.length Nat.ltb Nat.leb app].
  rewrite IH. reflexivity.
Qed.

Lemma reconstruct_characters (text : string) :
  Chunker.reconstruct 0 (Chunker.characters text) = text.
Proof.
  destruct text as [| c text]; [reflexivity |].
  cbn [Chunker.characters Chunker.reconstruct].
  replace (map (Chunker.drop 0) (Chunker.characters text)) with (Chunker.characters text).
  - rewrite characters_concat. reflexivity.
  - induction (Chunker.characters text) as [| x l IH]; [reflexivity |].
    cbn [map]. rewrite <- IH. destruct x; reflexivity.
Qed.

Lemma letters_no_space (n : nat) : forall k, no_space (letters k n).
Proof.
  unfold no_space, all_chars. induction n as [| n IH]; intro k; [constructor |].
  cbn [letters list_ascii_of_string]. constructor; [| apply IH].
  assert (B : Nat.modulo k 26 < 26) by (apply Nat.mod_upper_bound; lia).
  revert B. generalize (Nat.modulo k 26). intros m B.
  do 26 (destruct m as [| m]; [reflexivity |]). lia.
Qed.

(** The example of section 8 of the design document: 1200 characters,
    chunk size 512 and overlap 100, give the ranges [0,512), [412,924)
    and [824,1200). *)
Lemma split_example_of_the_design :
  Chunker.split (letters 0 1200) 512 100
  = [substring 0 512 (letters 0 1200);
     substring 412 512 (letters 0 1200);
     substring 824 376 (letters 0 1200)].
Proof. vm_compute. reflexivity. Qed.

(** C2 (chunk reconstruction), as the claim states it, fails: a word of 50
    letters, a space and a word of 500 letters, 551 characters, give the
    two words as chunks, the space between them trimmed away and nothing
    carried over; stripping 100 characters from the second chunk leaves
    450 characters. *)
Lemma C2_words_are_not_reconstructed :
  Chunker.valid 512 100
  /\ Chunker.split (Chunker.two_words 50) 512 100
     = [Chunker.replicate 50 "a"; Chunker.replicate 500 "b"]
  /\ Chunker.reconstruct 100 (Chunker.split (Chunker.two_words 50) 512 100)
     <> Chunker.two_words 50.
Proof.
  split; [unfold Chunker.valid; lia |].
  assert (E : Chunker.split (Chunker.two_words 50) 512 100
              = [Chunker.replicate 50 "a"; Chunker.replicate 500 "b"])
    by (vm_compute; reflexivity).
  split; [exact E |].
  rewrite E. intro H. apply (f_equal String.length) in H. vm_compute in H.
  discriminate H.
Qed.

(** C2 (chunk reconstruction), amended: for a text without white space
    and a valid chunk size and overlap, the chunks are cut on character
    boundaries, each after the first starting with the last [overlap]
    characters of the one before it, and concatenating them, the leading
    [overlap] characters of each chunk after the first stripped, gives
    the text back. *)
Theorem C2_reconstruction_without_white_space :
  forall (text : string) (chunkSize overlap : nat),
    Chunker.valid chunkSize overlap ->
    no_space text ->
    Chunker.reconstruct overlap (Chunker.split text chunkSize overlap) = text.
Proof.
  intros text chunkSize overlap [P V] H.
  rewrite (split_no_space chunkSize overlap text H).
  destruct (Nat.eq_dec chunkSize 1) as [-> | N].
  - assert (overlap = 0) as -> by lia.
    rewrite collect_single. apply reconstruct_characters.
  - rewrite collect_good.
    + cbn [app]. unfold Chunker.mergeSplits.
      change (@nil string) with (Chunker.characters "").
      rewrite (merge_characters_reconstruct chunkSize overlap text V H "" 0);
        [reflexivity | constructor | reflexivity | lia].
    + eapply Forall_impl; [| apply characters_single].
      intros d ->. lia.
Qed.

(** The example of the design document, a text of 1200 letters. *)
Lemma C2_example_of_the_design :
  Chunker.valid 512 100
  /\ no_space (letters 0 1200)
  /\ Chunker.reconstruct 100 (Chunker.split (letters 0 1200) 512 100) = letters 0 1200.
Proof.
  assert (V : Chunker.valid 512 100) by (unfold Chunker.valid; lia).
  split; [exact V |]. split; [apply letters_no_space |].
  exact (C2_reconstruction_without_white_space (letters 0 1200) 512 100 V
           (letters_no_space 1200 0)).
Defined.

(** C3 (chunk size bound), as the claim states it, fails on its last part:
    the empty text, which [scrapePage] returns for a page with no content,
    is shorter than the chunk size and yields no chunk. *)
Lemma C3_empty_text_yields_no_chunk :
  String.length "" < 512
  /\ Chunker.split "" 512 100 = []
  /\ length (Chunker.split "" 512 100) <> 1.
Proof.
  split; [simpl; lia |]. split; [reflexivity |]. simpl. discriminate.
Qed.

(** C3 (chunk size bound), amended: with chunk size 512 no chunk is longer
    than 512 characters, whatever the text (characters being the last
    boundary, no unit is indivisible); and a text shorter than 512 yields
    one chunk, the text without the white space at its ends, unless
    nothing is left of it, in which case it yields no chunk. *)
Theorem C3_chunk_size_bound :
  forall (text : string) (overlap : nat),
    Forall (within 512) (Chunker.split text 512 overlap)
    /\ (String.length text < 512 ->
        Chunker.split text 512 overlap
        = if String.eqb (LoadDb.trim text) "" then [] else [LoadDb.trim text]).
Proof.
  intros text overlap. split.
  - apply splitText_within; [lia |]. unfold Chunker.separators. do 3 right. left. reflexivity.
  - intro H. unfold Chunker.split. rewrite splitText_short by exact H.
    unfold Chunker.joinDocs. cbv zeta. cbn [String.concat].
    destruct (String.eqb (LoadDb.trim text) ""); reflexivity.
Qed.

(** Two words of 300 and 500 letters: two chunks, of 300 and 500
    characters. *)
Lemma C3_two_words_within :
  Forall (within 512) (Chunker.split (Chunker.two_words 300) 512 100)
  /\ map String.length (Chunker.split (Chunker.two_words 300) 512 100) = [300; 500].
Proof.
  split; [exact (proj1 (C3_chunk_size_bound (Chunker.two_words 300) 100)) |].
  vm_compute. reflexivity.
Defined.
